(** * Backtest engine of binance_api: signals, execution, metrics

    A shallow embedding of the signal generators ([strategies/*.py]), of
    the metrics code ([core/metrics.py], [strategies/base.py]), of the
    runner ([core/backtester.py], the loop of [main.py]) and of the checks
    of [core/data_loader.py].

    Numbers.  A Python/NumPy [float64] is modelled by [float]: an exact
    rational, or one of the three IEEE special values.  Rounding and
    overflow are not modelled; what is modelled is everything the code
    branches on: comparisons (false on nan), division by zero (inf or nan,
    as NumPy does, no exception), and the propagation of nan and inf.

    Libraries.  pandas and NumPy operations are modelled as documented
    ([dropna], [rolling], [np.where], [np.select], column assignment).  The
    moving average of [ta] is a rolling mean; its RSI and Bollinger bands
    are parameters.  The simulator [vbt.Portfolio.from_signals] is modelled
    at the defaults the strategies leave it at; the return statistics of a
    portfolio are parameters.

    Exceptions.  A computation that may raise returns a [result]. *)

From Stdlib Require Import ZArith QArith Qabs Bool String List Lia.
From Stdlib Require Import Sorted Permutation.
From Stdlib Require Import Lqa.
Import ListNotations.
Open Scope Z_scope.

(** ** float64 values *)

Module Float.

Inductive float : Type :=
| NaN
| NInf
| PInf
| Fin (q : Q).

Definition zero : float := Fin 0.
Definition of_Z (z : Z) : float := Fin (inject_Z z).
Definition of_nat (n : nat) : float := of_Z (Z.of_nat n).

Definition Qlt_bool (x y : Q) : bool := negb (Qle_bool y x).

Definition is_nan (x : float) : bool :=
  match x with NaN => true | _ => false end.

Definition is_finite (x : float) : bool :=
  match x with Fin _ => true | _ => false end.

Definition is_inf (x : float) : bool :=
  match x with PInf | NInf => true | _ => false end.

Definition notna (x : float) : bool := negb (is_nan x).

(** [x < y]; false as soon as one side is nan. *)
Definition flt (x y : float) : bool :=
  match x, y with
  | NaN, _ | _, NaN => false
  | NInf, NInf => false
  | NInf, _ => true
  | _, NInf => false
  | PInf, _ => false
  | Fin _, PInf => true
  | Fin a, Fin b => Qlt_bool a b
  end.

Definition fgt (x y : float) : bool := flt y x.

(** [x <= y]; false as soon as one side is nan. *)
Definition fle (x y : float) : bool :=
  match x, y with
  | NaN, _ | _, NaN => false
  | NInf, _ => true
  | _, PInf => true
  | PInf, _ => false
  | Fin _, NInf => false
  | Fin a, Fin b => Qle_bool a b
  end.

Definition fge (x y : float) : bool := fle y x.

(** [x == y]; nan is not equal to itself. *)
Definition feqb (x y : float) : bool :=
  match x, y with
  | NInf, NInf | PInf, PInf => true
  | Fin a, Fin b => Qeq_bool a b
  | _, _ => false
  end.

Definition fneg (x : float) : float :=
  match x with
  | NaN => NaN
  | NInf => PInf
  | PInf => NInf
  | Fin a => Fin (- a)
  end.

Definition fabs (x : float) : float :=
  match x with
  | NaN => NaN
  | NInf | PInf => PInf
  | Fin a => Fin (Qabs a)
  end.

Definition fadd (x y : float) : float :=
  match x, y with
  | NaN, _ | _, NaN => NaN
  | PInf, NInf | NInf, PInf => NaN
  | PInf, _ | _, PInf => PInf
  | NInf, _ | _, NInf => NInf
  | Fin a, Fin b => Fin (a + b)
  end.

Definition fsub (x y : float) : float := fadd x (fneg y).

(** The sign of an infinity times a finite factor; [inf * 0] is nan. *)
Definition scale_inf (pos : bool) (a : Q) : float :=
  if Qeq_bool a 0 then NaN
  else if Qlt_bool 0 a then (if pos then PInf else NInf)
  else (if pos then NInf else PInf).

Definition fmul (x y : float) : float :=
  match x, y with
  | NaN, _ | _, NaN => NaN
  | PInf, PInf | NInf, NInf => PInf
  | PInf, NInf | NInf, PInf => NInf
  | PInf, Fin a | Fin a, PInf => scale_inf true a
  | NInf, Fin a | Fin a, NInf => scale_inf false a
  | Fin a, Fin b => Fin (a * b)
  end.

(** NumPy division: a non-zero number over zero is an infinity, [0/0] and
    [inf/inf] are nan; nothing is raised. *)
Definition fdiv (x y : float) : float :=
  match x, y with
  | NaN, _ | _, NaN => NaN
  | (PInf | NInf), (PInf | NInf) => NaN
  | PInf, Fin b => if Qlt_bool b 0 then NInf else PInf
  | NInf, Fin b => if Qlt_bool b 0 then PInf else NInf
  | Fin _, (PInf | NInf) => Fin 0
  | Fin a, Fin b =>
      if Qeq_bool b 0 then
        (if Qeq_bool a 0 then NaN
         else if Qlt_bool 0 a then PInf else NInf)
      else Fin (a / b)
  end.

Definition fsum (xs : list float) : float :=
  fold_left fadd xs zero.

Definition fmax (x y : float) : float := if flt x y then y else x.
Definition fmin (x y : float) : float := if flt y x then y else x.

End Float.
Import Float.

(** ** Exceptions *)

Inductive exn : Type :=
| ValueError (msg : string)
| OtherError (msg : string).

Inductive result (A : Type) : Type :=
| Ok (a : A)
| Raise (e : exn).
Arguments Ok {A} a.
Arguments Raise {A} e.

Definition bind {A B : Type} (m : result A) (k : A -> result B) : result B :=
  match m with
  | Ok a => k a
  | Raise e => Raise e
  end.

Notation "x <- m ;; k" := (bind m (fun x => k))
  (at level 61, m at next level, right associativity).

Definition raises {A : Type} (m : result A) : Prop :=
  exists e, m = Raise e.

(** ** The pandas and NumPy operations the strategies use *)

Module Pandas.

(** [Series.dropna()]: the rows whose value is nan are removed, so the
    result is shorter than the frame it came from when there are any. *)
Definition dropna (xs : list float) : list float :=
  filter notna xs.

(** The window that ends at position [i]: the last [w] values up to and
    including [i], fewer when fewer exist. *)
Definition window_at (w : nat) (xs : list float) (i : nat) : list float :=
  skipn (i + 1 - w) (firstn (i + 1) xs).

(** A window counts as full when it holds [w] values none of which is nan
    ([min_periods] defaults to the window length). *)
Definition window_full (w : nat) (win : list float) : bool :=
  (length win =? w)%nat && forallb notna win.

(** [Series.rolling(w).sum()] *)
Definition rolling_sum (w : nat) (xs : list float) : list float :=
  map (fun i => let win := window_at w xs i in
                if window_full w win then fsum win else NaN)
      (seq 0 (length xs)).

(** [Series.rolling(w, min_periods=w).mean()] *)
Definition rolling_mean (w : nat) (xs : list float) : list float :=
  map (fun i => let win := window_at w xs i in
                if window_full w win
                then fdiv (fsum win) (of_nat (length win)) else NaN)
      (seq 0 (length xs)).

(** Element-wise binary operation on two series over the same index. *)
Fixpoint zip_with {A B C : Type} (f : A -> B -> C)
         (xs : list A) (ys : list B) : list C :=
  match xs, ys with
  | x :: xs', y :: ys' => f x y :: zip_with f xs' ys'
  | _, _ => []
  end.

(** [np.where(cond, a, b)] with a scalar [a] and an array [b]. *)
Definition np_where (cond : list bool) (a : Z) (b : list Z) : list Z :=
  zip_with (fun (c : bool) y => if c then a else y) cond b.

(** [np.where(cond, a, b)] with two scalars. *)
Definition np_where0 (cond : list bool) (a b : Z) : list Z :=
  map (fun c : bool => if c then a else b) cond.

(** [np.select([c1, c2], [v1, v2], default=d)]: the first condition that
    holds decides. *)
Definition np_select2 (c1 c2 : list bool) (v1 v2 d : Z) : list Z :=
  zip_with (fun (a b : bool) => if a then v1 else if b then v2 else d)
           c1 c2.

End Pandas.
Import Pandas.

(** ** Price panel and signal frame *)

(** One row of one asset: the five OHLCV fields at one timestamp. *)
Record Bar : Type := mkBar {
  bar_open : float;
  bar_high : float;
  bar_low : float;
  bar_close : float;
  bar_volume : float
}.

(** The row index of a frame: timestamps (nanoseconds since the epoch, as
    [pd.Timestamp] stores them) or plain positions. *)
Inductive Index : Type :=
| DatetimeIndex (stamps : list Z)
| RangeIndex (n : nat).

Definition index_len (ix : Index) : nat :=
  match ix with
  | DatetimeIndex stamps => length stamps
  | RangeIndex n => n
  end.

(** The price panel: columns keyed by [(pair, field)] over one index.  The
    five fields of a pair are kept together, one [Bar] per row. *)
Record DataFrame : Type := mkDataFrame {
  index : Index;
  assets : list (string * list Bar)
}.

(** Every column of a frame is as long as its index. *)
Definition well_formed (df : DataFrame) : Prop :=
  Forall (fun a => length (snd a) = index_len (index df)) (assets df).

(** [price_data.columns.get_level_values(0).unique()] *)
Definition pairs_of (df : DataFrame) : list string :=
  nodup string_dec (map fst (assets df)).

Definition lookup {A : Type} (k : string) (d : list (string * A)) : option A :=
  match find (fun kv => String.eqb (fst kv) k) d with
  | Some kv => Some (snd kv)
  | None => None
  end.

(** [price_data[(pair, field)]] *)
Definition getitem (df : DataFrame) (pair : string) (field : Bar -> float)
  : result (list float) :=
  match lookup pair (assets df) with
  | Some bars => Ok (map field bars)
  | None => Raise (OtherError "KeyError")
  end.

(** The frame of signals: one integer column per pair over the index of the
    price panel. *)
Record SignalFrame : Type := mkSignalFrame {
  sig_index : Index;
  sig_columns : list (string * list Z)
}.

(** [pd.DataFrame(index=..., columns=...)]: no column holds a value yet. *)
Definition empty_signals (ix : Index) : SignalFrame :=
  {| sig_index := ix; sig_columns := [] |}.

Fixpoint dict_set {A : Type} (k : string) (v : A) (d : list (string * A))
  : list (string * A) :=
  match d with
  | [] => [(k, v)]
  | (k', v') :: d' =>
      if String.eqb k' k then (k, v) :: d' else (k', v') :: dict_set k v d'
  end.

(** [signals[(pair, 'signal')] = values] with [values] a NumPy array: pandas
    refuses an array whose length is not that of the index. *)
Definition setitem (signals : SignalFrame) (pair : string) (values : list Z)
  : result SignalFrame :=
  if (length values =? index_len (sig_index signals))%nat
  then Ok {| sig_index := sig_index signals;
             sig_columns := dict_set pair values (sig_columns signals) |}
  else Raise (ValueError "Length of values does not match length of index").

(** The body of [for pair in self.pairs: signals[(pair, 'signal')] = ...],
    shared by the three strategies. *)
Definition assign_signals (df : DataFrame)
           (pair_signal : string -> result (list Z)) : result SignalFrame :=
  fold_left
    (fun acc pair =>
       signals <- acc ;;
       values <- pair_signal pair ;;
       setitem signals pair values)
    (pairs_of df)
    (Ok (empty_signals (index df))).

(** ** Indicators of the [ta] package *)

Module Ta.

(** [SMAIndicator(close, window).sma_indicator()]: the rolling mean with
    [min_periods = window]. *)
Definition sma_indicator (window : nat) (close : list float) : list float :=
  rolling_mean window close.

End Ta.

(** ** vectorbt: [Portfolio.from_signals]

    The simulator is vectorbt's, not the repository's.  It is modelled here
    as the strategies call it: boolean [entries] and [exits], [fees],
    [slippage], and every other argument at vectorbt's default (long-only
    direction, the whole cash as order size, an initial cash of 100 per
    column, no accumulation, columns simulated independently). *)

Module Vbt.

Inductive Status : Type := Open | Closed.

Record Trade : Type := mkTrade {
  col : string;
  entry_idx : nat;
  exit_idx : nat;
  entry_price : float;
  exit_price : float;
  size : float;
  pnl : float;
  status : Status
}.

(** The entry order of the position that is open, if any. *)
Record Entry : Type := mkEntry {
  e_idx : nat;
  e_price : float;
  e_size : float;
  e_fees : float
}.

(** The state of one column between two bars: cash, the signed position
    size (positive long, negative short, zero flat), the open entry, the
    trades closed so far and the number of filled orders. *)
Record SimState : Type := mkSimState {
  cash : float;
  position : float;
  entry : option Entry;
  closed_trades : list Trade;
  orders : nat
}.

Definition init_cash : float := of_Z 100.

Definition init_state : SimState :=
  {| cash := init_cash; position := zero; entry := None;
     closed_trades := []; orders := 0 |}.

Inductive Direction : Type := FLAT | LONG | SHORT.

Definition direction_of (s : SimState) : Direction :=
  if flt zero (position s) then LONG
  else if flt (position s) zero then SHORT
  else FLAT.

Definition one : float := of_Z 1.

(** A price at which an order can be filled: nan makes vectorbt ignore the
    order, anything else that is not a positive finite number is refused
    with a [ValueError]. *)
Inductive PriceCheck : Type := Ignored | Refused | Valid.

Definition check_price (price : float) : PriceCheck :=
  if is_nan price then Ignored
  else if is_finite price && flt zero price then Valid
  else Refused.

Definition price_error : exn :=
  ValueError "order.price must be finite and greater than 0".

(** Buy with all the cash at the close raised by the slippage; the fees
    are taken out of the cash, so the size is what the rest can pay. *)
Definition buy (fees slippage : float) (i : nat) (close : float)
           (s : SimState) : result SimState :=
  match check_price close with
  | Ignored => Ok s
  | Refused => Raise price_error
  | Valid =>
      if flt zero (cash s) then
        let adj_price := fmul close (fadd one slippage) in
        let max_req_cash := fdiv (cash s) (fadd one fees) in
        let final_size := fdiv max_req_cash adj_price in
        let fees_paid := fsub (cash s) max_req_cash in
        Ok {| cash := fsub (cash s) (cash s);
              position := fadd (position s) final_size;
              entry := Some {| e_idx := i; e_price := adj_price;
                               e_size := final_size; e_fees := fees_paid |};
              closed_trades := closed_trades s;
              orders := S (orders s) |}
      else Ok s
  end.

Definition trade_of (c : string) (e : Entry) (i : nat)
           (price exit_fees : float) (st : Status) : Trade :=
  {| col := c;
     entry_idx := e_idx e;
     exit_idx := i;
     entry_price := e_price e;
     exit_price := price;
     size := e_size e;
     pnl := fsub (fsub (fmul (fsub price (e_price e)) (e_size e))
                       (e_fees e))
                 exit_fees;
     status := st |}.

(** Sell the whole long position at the close lowered by the slippage. *)
Definition sell (c : string) (fees slippage : float) (i : nat)
           (close : float) (s : SimState) : result SimState :=
  match check_price close with
  | Ignored => Ok s
  | Refused => Raise price_error
  | Valid =>
      let adj_price := fmul close (fsub one slippage) in
      let acq_cash := fmul (position s) adj_price in
      let fees_paid := fmul acq_cash fees in
      Ok {| cash := fadd (cash s) (fsub acq_cash fees_paid);
            position := fsub (position s) (position s);
            entry := None;
            closed_trades :=
              match entry s with
              | Some e =>
                  closed_trades s
                    ++ [trade_of c e i adj_price fees_paid Closed]
              | None => closed_trades s
              end;
            orders := S (orders s) |}
  end.

(** One bar of one column.  An entry signal acts only when flat, an exit
    signal only when long; a bar with neither signal, or with both, leaves
    the state as it is. *)
Definition step (c : string) (fees slippage : float) (i : nat)
           (close : float) (is_entry is_exit : bool) (s : SimState)
  : result SimState :=
  if is_entry && negb is_exit then
    if feqb (position s) zero then buy fees slippage i close s else Ok s
  else if is_exit && negb is_entry then
    if flt zero (position s) then sell c fees slippage i close s else Ok s
  else Ok s.

(** The bars of one column from bar [i] on. *)
Fixpoint simulate_from (c : string) (fees slippage : float) (i : nat)
         (rows : list (float * (bool * bool))) (s : SimState)
  : result SimState :=
  match rows with
  | [] => Ok s
  | (close, (is_entry, is_exit)) :: rows' =>
      s' <- step c fees slippage i close is_entry is_exit s ;;
      simulate_from c fees slippage (S i) rows' s'
  end.

Definition simulate (c : string) (fees slippage : float)
           (close : list float) (entries exits : list bool)
  : result SimState :=
  simulate_from c fees slippage 0
                (combine close (combine entries exits)) init_state.

(** The trade records of a column: the closed trades and, when a position
    is still open after the last bar, that position valued at the last
    close. *)
Definition column_trades (c : string) (close : list float) (s : SimState)
  : list Trade :=
  match entry s with
  | Some e =>
      closed_trades s
        ++ [trade_of c e (length close - 1) (last close NaN) zero Open]
  | None => closed_trades s
  end.

(** The return statistics of a portfolio; each is a call into vectorbt
    and, like any call, may raise. *)
Record Statistics : Type := mkStatistics {
  stat_total_return : result float;
  stat_sharpe_ratio : result float;
  stat_max_drawdown : result float
}.

(** What the repository reads of a [vbt.Portfolio]. *)
Record Portfolio : Type := mkPortfolio {
  wrapper_index : Index;
  trades_records : list Trade;
  positions_records : list Trade;
  orders_len : nat;
  statistics : Statistics
}.

Definition total_return (p : Portfolio) := stat_total_return (statistics p).
Definition sharpe_ratio (p : Portfolio) := stat_sharpe_ratio (statistics p).
Definition max_drawdown (p : Portfolio) := stat_max_drawdown (statistics p).

(** One simulated column: its name, its closes and its final state. *)
Definition Column : Type := (string * (list float * SimState))%type.

Fixpoint simulate_columns (fees slippage : float)
         (cols : list (string * (list float * (list bool * list bool))))
  : result (list Column) :=
  match cols with
  | [] => Ok []
  | (c, (close, (entries, exits))) :: cols' =>
      s <- simulate c fees slippage close entries exits ;;
      rest <- simulate_columns fees slippage cols' ;;
      Ok ((c, (close, s)) :: rest)
  end.

Section FromSignals.

(** How vectorbt derives the return statistics from the simulated
    columns is left open. *)
Variable derive_statistics : list Column -> Statistics.

Definition from_signals (ix : Index)
           (cols : list (string * (list float * (list bool * list bool))))
           (fees slippage : float) : result Portfolio :=
  sims <- simulate_columns fees slippage cols ;;
  let trades :=
    flat_map (fun sc : Column =>
                column_trades (fst sc) (fst (snd sc)) (snd (snd sc)))
             sims in
  Ok {| wrapper_index := ix;
        trades_records := trades;
        positions_records := trades;
        orders_len :=
          fold_left Nat.add
                    (map (fun sc : Column => orders (snd (snd sc))) sims)
                    0%nat;
        statistics := derive_statistics sims |}.

End FromSignals.

End Vbt.

(** ** Metric records *)

(** The values a metrics dictionary holds. *)
Inductive pyval : Type :=
| VFloat (x : float)
| VInt (n : Z)
| VStr (s : string).

(** A Python [dict] with string keys, in insertion order. *)
Definition dict : Type := list (string * pyval).

(** [d.update(other)], also [{**d, **other}]. *)
Definition dict_update (d other : dict) : dict :=
  fold_left (fun acc kv => dict_set (fst kv) (snd kv) acc) other d.

Definition has_key (k : string) (d : dict) : bool :=
  match lookup k d with Some _ => true | None => false end.

(** ** core/metrics.py *)

Module MetricsCalculator.
Import Vbt.

(** [ndarray.mean()] *)
Definition mean (xs : list float) : float :=
  fdiv (fsum xs) (of_nat (length xs)).

Fixpoint insert_sorted (x : float) (xs : list float) : list float :=
  match xs with
  | [] => [x]
  | y :: ys => if fle x y then x :: y :: ys else y :: insert_sorted x ys
  end.

Definition sort (xs : list float) : list float :=
  fold_right insert_sorted [] xs.

(** [Series.median()]: nan is skipped; the middle value of the sorted
    rest, or the mean of the two middle values. *)
Definition median (xs : list float) : float :=
  let sorted := sort (dropna xs) in
  let n := length sorted in
  if (n =? 0)%nat then NaN
  else if Nat.even n
       then fdiv (fadd (nth (n / 2 - 1) sorted NaN) (nth (n / 2) sorted NaN))
                 (of_Z 2)
       else nth (n / 2) sorted NaN.

Definition empty_reduction : exn :=
  ValueError "zero-size array to reduction operation".

(** [ndarray.max()] and [ndarray.min()] raise on an empty array. *)
Definition np_max (xs : list float) : result float :=
  match xs with
  | [] => Raise empty_reduction
  | x :: xs' => Ok (fold_left fmax xs' x)
  end.

Definition np_min (xs : list float) : result float :=
  match xs with
  | [] => Raise empty_reduction
  | x :: xs' => Ok (fold_left fmin xs' x)
  end.

(** [Timedelta.total_seconds()] of the difference of two timestamps given
    in nanoseconds. *)
Definition total_seconds (t0 t1 : Z) : float :=
  Fin (inject_Z (t1 - t0) / inject_Z 1000000000).

(** The length of one bar in minutes: from the first two timestamps of a
    time index that has at least two, and 1 otherwise. *)
Definition bar_duration (ix : Index) : float :=
  match ix with
  | DatetimeIndex (t0 :: t1 :: _) => fdiv (total_seconds t0 t1) (of_Z 60)
  | _ => of_Z 1
  end.

(** [trades['exit_idx'] - trades['entry_idx']] *)
Definition durations_bars (trades : list Trade) : list Z :=
  map (fun t => Z.of_nat (exit_idx t) - Z.of_nat (entry_idx t)) trades.

Definition durations_minutes (ix : Index) (trades : list Trade)
  : list float :=
  map (fun d => fmul (of_Z d) (bar_duration ix)) (durations_bars trades).

Definition calculate_trade_duration_stats (portfolio : Portfolio)
  : result dict :=
  let trades := trades_records portfolio in
  if (length trades =? 0)%nat then Ok []
  else
    let minutes := durations_minutes (wrapper_index portfolio) trades in
    max_duration <- np_max minutes ;;
    min_duration <- np_min minutes ;;
    Ok [("avg_trade_duration"%string, VFloat (mean minutes));
        ("median_trade_duration"%string, VFloat (median minutes));
        ("max_trade_duration"%string, VFloat max_duration);
        ("min_trade_duration"%string, VFloat min_duration)].

(** [trades[trades['PnL'] > 0]['PnL'].sum()] *)
Definition gross_profits (trades : list Trade) : float :=
  fsum (filter (fun x => fgt x zero) (map pnl trades)).

(** [trades[trades['PnL'] < 0]['PnL'].sum()] *)
Definition gross_losses (trades : list Trade) : float :=
  fsum (filter (fun x => flt x zero) (map pnl trades)).

Definition calculate_profit_factor (portfolio : Portfolio) : float :=
  let trades := trades_records portfolio in
  if (length trades =? 0)%nat then zero
  else
    if feqb (gross_losses trades) zero then PInf
    else fdiv (gross_profits trades) (fabs (gross_losses trades)).

End MetricsCalculator.

(** ** strategies/base.py *)

Module StrategyBase.
Import Vbt.

Record t : Type := mk {
  price_data : DataFrame;
  commission : float;
  slippage : float
}.

Definition default_commission : float := Fin (1 # 1000).
Definition default_slippage : float := Fin (5 # 10000).

Definition pairs (self : t) : list string := pairs_of (price_data self).

(** The body of the [try] of [_calculate_exposure]. *)
Definition exposure_body (portfolio : Portfolio) : result float :=
  let positions := positions_records portfolio in
  if (length positions =? 0)%nat then Ok zero
  else
    Ok (fdiv (MetricsCalculator.mean
                (map of_Z (MetricsCalculator.durations_bars positions)))
             (of_nat (orders_len portfolio))).

Definition calculate_exposure (portfolio : Portfolio) : float :=
  match exposure_body portfolio with
  | Ok x => x
  | Raise _ => zero
  end.

(** [len(trades[trades['pnl'] > 0]) / len(trades) if len(trades) > 0
    else 0.0] *)
Definition win_rate (trades : list Trade) : float :=
  if (0 <? length trades)%nat
  then fdiv (of_nat (length (filter (fun t => fgt (pnl t) zero) trades)))
            (of_nat (length trades))
  else zero.

(** The body of the [try] of [calculate_metrics]. *)
Definition metrics_body (portfolio : Portfolio) : result dict :=
  let trades := trades_records portfolio in
  total <- total_return portfolio ;;
  sharpe <- sharpe_ratio portfolio ;;
  drawdown <- max_drawdown portfolio ;;
  let base_metrics : dict :=
    [("total_return"%string, VFloat total);
     ("sharpe_ratio"%string, VFloat sharpe);
     ("max_drawdown"%string, VFloat drawdown);
     ("win_rate"%string, VFloat (win_rate trades));
     ("total_trades"%string, VInt (Z.of_nat (length trades)));
     ("exposure_time"%string, VFloat (calculate_exposure portfolio))] in
  trade_stats <- MetricsCalculator.calculate_trade_duration_stats portfolio ;;
  let profit_factor := MetricsCalculator.calculate_profit_factor portfolio in
  Ok (dict_set "profit_factor" (VFloat profit_factor)
               (dict_update base_metrics trade_stats)).

(** The record the [except] branch returns. *)
Definition placeholder : dict :=
  [("total_return"%string, VFloat zero);
   ("sharpe_ratio"%string, VFloat zero);
   ("max_drawdown"%string, VFloat zero);
   ("win_rate"%string, VFloat zero);
   ("total_trades"%string, VInt 0);
   ("exposure_time"%string, VFloat zero);
   ("avg_trade_duration"%string, VFloat zero);
   ("median_trade_duration"%string, VFloat zero);
   ("max_trade_duration"%string, VFloat zero);
   ("min_trade_duration"%string, VFloat zero);
   ("profit_factor"%string, VFloat zero)].

Definition calculate_metrics (portfolio : Portfolio) : dict :=
  match metrics_body portfolio with
  | Ok metrics => metrics
  | Raise _ => placeholder
  end.

(** The column of one pair in the signal frame. *)
Definition signal_column (signals : SignalFrame) (pair : string) : list Z :=
  match lookup pair (sig_columns signals) with
  | Some values => values
  | None => []
  end.

(** The three arguments of [from_signals], column by column: the close
    [price_data.xs('close')], [entries = signals == 1] and
    [exits = signals == -1]. *)
Definition signal_columns (self : t) (signals : SignalFrame)
  : list (string * (list float * (list bool * list bool))) :=
  map (fun a =>
         let values := signal_column signals (fst a) in
         (fst a,
          (map bar_close (snd a),
           (map (fun s => Z.eqb s 1) values,
            map (fun s => Z.eqb s (-1)) values))))
      (assets (price_data self)).

Section RunBacktest.

Variable derive_statistics : list Column -> Statistics.

(** What each [run_backtest] does with its signals: the columns above, the
    commission as fees and the slippage go to [from_signals]. *)
Definition backtest_signals (self : t) (signals : SignalFrame)
  : result Portfolio :=
  from_signals derive_statistics (index (price_data self))
               (signal_columns self signals)
               (commission self) (slippage self).

End RunBacktest.

End StrategyBase.

(** What [Backtester] asks of the object it is given: two methods, each of
    which may raise. *)
Module Strategy.

Record t : Type := mk {
  run_backtest : result Vbt.Portfolio;
  get_metrics : result dict
}.

End Strategy.

(** ** strategies/sma_cross.py *)

Module SMACrossoverStrategy.

Record t : Type := mk {
  base : StrategyBase.t;
  fast_window : nat;
  slow_window : nat
}.

(** The array assigned to one pair's column, from that pair's closes
    after [dropna()]. *)
Definition crossover (self : t) (close : list float) : list Z :=
  let fast_sma := Ta.sma_indicator (fast_window self) close in
  let slow_sma := Ta.sma_indicator (slow_window self) close in
  np_where (zip_with fgt fast_sma slow_sma) 1
           (np_where0 (zip_with flt fast_sma slow_sma) (-1) 0).

Definition pair_signal (self : t) (pair : string) : result (list Z) :=
  column <- getitem (StrategyBase.price_data (base self)) pair bar_close ;;
  let close := dropna column in
  Ok (crossover self close).

Definition generate_signals (self : t) : result SignalFrame :=
  assign_signals (StrategyBase.price_data (base self)) (pair_signal self).

Section WithVectorbt.

Variable derive_statistics : list Vbt.Column -> Vbt.Statistics.

Definition run_backtest (self : t) : result Vbt.Portfolio :=
  signals <- generate_signals self ;;
  StrategyBase.backtest_signals derive_statistics (base self) signals.

Definition get_metrics (self : t) : result dict :=
  portfolio <- run_backtest self ;;
  let metrics := StrategyBase.calculate_metrics portfolio in
  Ok (dict_update metrics
        [("strategy"%string, VStr "SMA Crossover");
         ("fast_window"%string, VInt (Z.of_nat (fast_window self)));
         ("slow_window"%string, VInt (Z.of_nat (slow_window self)))]).

Definition strategy (self : t) : Strategy.t :=
  {| Strategy.run_backtest := run_backtest self;
     Strategy.get_metrics := get_metrics self |}.

End WithVectorbt.

End SMACrossoverStrategy.

(** ** strategies/rsi_bb.py *)

Module RSIBollingerStrategy.

Record t : Type := mk {
  base : StrategyBase.t;
  rsi_window : nat;
  bb_window : nat;
  bb_std : float;
  rsi_oversold : float;
  rsi_overbought : float
}.

Section WithIndicators.

(** [RSIIndicator(close, window).rsi()] of the [ta] package. *)
Variable rsi_indicator : nat -> list float -> list float.
(** [BollingerBands(close, window, window_dev).bollinger_lband()] and
    [.bollinger_hband()] of the [ta] package. *)
Variable bollinger_lband : nat -> float -> list float -> list float.
Variable bollinger_hband : nat -> float -> list float -> list float.

Definition band_signal (self : t) (close : list float) : list Z :=
  let rsi := rsi_indicator (rsi_window self) close in
  let bb_lower := bollinger_lband (bb_window self) (bb_std self) close in
  let bb_upper := bollinger_hband (bb_window self) (bb_std self) close in
  let long_cond :=
    zip_with andb (map (fun r => flt r (rsi_oversold self)) rsi)
             (zip_with fle close bb_lower) in
  let short_cond :=
    zip_with andb (map (fun r => fgt r (rsi_overbought self)) rsi)
             (zip_with fge close bb_upper) in
  np_select2 long_cond short_cond 1 (-1) 0.

Definition pair_signal (self : t) (pair : string) : result (list Z) :=
  column <- getitem (StrategyBase.price_data (base self)) pair bar_close ;;
  let close := dropna column in
  Ok (band_signal self close).

Definition generate_signals (self : t) : result SignalFrame :=
  assign_signals (StrategyBase.price_data (base self)) (pair_signal self).

Variable derive_statistics : list Vbt.Column -> Vbt.Statistics.

Definition run_backtest (self : t) : result Vbt.Portfolio :=
  signals <- generate_signals self ;;
  StrategyBase.backtest_signals derive_statistics (base self) signals.

Definition get_metrics (self : t) : result dict :=
  portfolio <- run_backtest self ;;
  let metrics := StrategyBase.calculate_metrics portfolio in
  Ok (dict_update metrics
        [("strategy"%string, VStr "RSI with Bollinger Bands");
         ("rsi_window"%string, VInt (Z.of_nat (rsi_window self)));
         ("bb_window"%string, VInt (Z.of_nat (bb_window self)));
         ("bb_std"%string, VFloat (bb_std self));
         ("rsi_oversold"%string, VFloat (rsi_oversold self));
         ("rsi_overbought"%string, VFloat (rsi_overbought self))]).

Definition strategy (self : t) : Strategy.t :=
  {| Strategy.run_backtest := run_backtest self;
     Strategy.get_metrics := get_metrics self |}.

End WithIndicators.

End RSIBollingerStrategy.

(** ** strategies/vwap_reversion.py *)

Module VWAPReversionStrategy.

Record t : Type := mk {
  base : StrategyBase.t;
  lookback_window : nat;
  deviation_threshold : float
}.

Definition typical_price (high low close : list float) : list float :=
  zip_with (fun hl c => fdiv (fadd hl c) (of_Z 3))
           (zip_with fadd high low) close.

Definition calculate_vwap (self : t) (high low close volume : list float)
  : list float :=
  zip_with fdiv
    (rolling_sum (lookback_window self)
                 (zip_with fmul (typical_price high low close) volume))
    (rolling_sum (lookback_window self) volume).

Definition deviation_of (close vwap : list float) : list float :=
  zip_with fdiv (zip_with fsub close vwap) vwap.

(** The [np.select] of the source on a deviation series. *)
Definition select_signal (self : t) (deviation : list float) : list Z :=
  np_select2
    (map (fun d => flt d (fneg (deviation_threshold self))) deviation)
    (map (fun d => fgt d (deviation_threshold self)) deviation)
    1 (-1) 0.

Definition pair_signal (self : t) (pair : string) : result (list Z) :=
  high <- getitem (StrategyBase.price_data (base self)) pair bar_high ;;
  low <- getitem (StrategyBase.price_data (base self)) pair bar_low ;;
  close <- getitem (StrategyBase.price_data (base self)) pair bar_close ;;
  volume <- getitem (StrategyBase.price_data (base self)) pair bar_volume ;;
  let vwap := calculate_vwap self high low close volume in
  let deviation := deviation_of close vwap in
  Ok (select_signal self deviation).

Definition generate_signals (self : t) : result SignalFrame :=
  assign_signals (StrategyBase.price_data (base self)) (pair_signal self).

Section WithVectorbt.

Variable derive_statistics : list Vbt.Column -> Vbt.Statistics.

Definition run_backtest (self : t) : result Vbt.Portfolio :=
  signals <- generate_signals self ;;
  StrategyBase.backtest_signals derive_statistics (base self) signals.

Definition get_metrics (self : t) : result dict :=
  portfolio <- run_backtest self ;;
  let metrics := StrategyBase.calculate_metrics portfolio in
  Ok (dict_update metrics
        [("strategy"%string, VStr "VWAP Reversion");
         ("lookback_window"%string, VInt (Z.of_nat (lookback_window self)));
         ("deviation_threshold"%string,
           VFloat (deviation_threshold self))]).

Definition strategy (self : t) : Strategy.t :=
  {| Strategy.run_backtest := run_backtest self;
     Strategy.get_metrics := get_metrics self |}.

End WithVectorbt.

End VWAPReversionStrategy.

(** ** core/backtester.py and the loop of main.py *)

Module Backtester.

Record Outcome : Type := mkOutcome {
  metrics : dict;
  portfolio : Vbt.Portfolio
}.

(** The body of the [try] of [run_backtest]. *)
Definition run_body (strategy : Strategy.t) : result Outcome :=
  portfolio <- Strategy.run_backtest strategy ;;
  metrics <- Strategy.get_metrics strategy ;;
  Ok {| metrics := metrics; portfolio := portfolio |}.

(** [None] when anything in the body raised. *)
Definition run_backtest (strategy : Strategy.t) : option Outcome :=
  match run_body strategy with
  | Ok outcome => Some outcome
  | Raise _ => None
  end.

(** [all_metrics] of [main]: the metrics of the runs that returned a
    result, in the order of the strategies. *)
Definition all_metrics (strategies : list Strategy.t) : list dict :=
  flat_map (fun strategy =>
              match run_backtest strategy with
              | Some outcome => [metrics outcome]
              | None => []
              end)
           strategies.

End Backtester.

(** ** The three variants behind one [generate_signals] *)

(** [generate_signals] is abstract in [StrategyBase]; a strategy object is
    one of the three subclasses. *)
Inductive Variant : Type :=
| Crossover (self : SMACrossoverStrategy.t)
| OscillatorBand (self : RSIBollingerStrategy.t)
| MeanReversion (self : VWAPReversionStrategy.t).

Section Dispatch.

Variable rsi_indicator : nat -> list float -> list float.
Variable bollinger_lband : nat -> float -> list float -> list float.
Variable bollinger_hband : nat -> float -> list float -> list float.

Definition generate_signals (v : Variant) : result SignalFrame :=
  match v with
  | Crossover self => SMACrossoverStrategy.generate_signals self
  | OscillatorBand self =>
      RSIBollingerStrategy.generate_signals
        rsi_indicator bollinger_lband bollinger_hband self
  | MeanReversion self => VWAPReversionStrategy.generate_signals self
  end.

End Dispatch.

Definition variant_data (v : Variant) : DataFrame :=
  match v with
  | Crossover self => StrategyBase.price_data (SMACrossoverStrategy.base self)
  | OscillatorBand self =>
      StrategyBase.price_data (RSIBollingerStrategy.base self)
  | MeanReversion self =>
      StrategyBase.price_data (VWAPReversionStrategy.base self)
  end.

(** The closed world of signal values. *)
Definition is_signal (z : Z) : Prop := z = -1 \/ z = 0 \/ z = 1.

(** ** Sample data *)

Definition settings (df : DataFrame) : StrategyBase.t :=
  StrategyBase.mk df StrategyBase.default_commission
                  StrategyBase.default_slippage.

(** A bar whose four prices are [c], with volume 1. *)
Definition flat_bar (c : float) : Bar := mkBar c c c c (of_Z 1).

(** Four bars of one pair, closes 1, 3, 2, 2. *)
Definition sample_panel : DataFrame :=
  mkDataFrame (RangeIndex 4)
    [("BTC/USDT"%string,
      [flat_bar (of_Z 1); flat_bar (of_Z 3);
       flat_bar (of_Z 2); flat_bar (of_Z 2)])].

Definition sample_crossover : SMACrossoverStrategy.t :=
  SMACrossoverStrategy.mk (settings sample_panel) 1 2.

(** One pair over three timestamps, the close of the middle one missing. *)
Definition gap_panel : DataFrame :=
  mkDataFrame (RangeIndex 3)
    [("BTC/USDT"%string,
      [flat_bar (of_Z 1); flat_bar NaN; flat_bar (of_Z 2)])].

(** Two pairs over two timestamps; the second pair has no data at all. *)
Definition missing_asset_panel : DataFrame :=
  mkDataFrame (RangeIndex 2)
    [("BTC/USDT"%string, [flat_bar (of_Z 1); flat_bar (of_Z 2)]);
     ("ETH/BTC"%string, [flat_bar NaN; flat_bar NaN])].

Definition length_mismatch : exn :=
  ValueError "Length of values does not match length of index".

(** ** Trades, as the metrics see them *)

(** A trade is losing when its P&L is below zero, winning when above. *)
Definition losing (t : Vbt.Trade) : Prop := flt (Vbt.pnl t) zero = true.

(** A closed trade of the given P&L between two bars. *)
Definition sample_trade (entry_bar exit_bar : nat) (pnl : float)
  : Vbt.Trade :=
  Vbt.mkTrade "BTC/USDT" entry_bar exit_bar (of_Z 100) (of_Z 100)
              (of_Z 1) pnl Vbt.Closed.

Definition sample_statistics : Vbt.Statistics :=
  Vbt.mkStatistics (Ok zero) (Ok zero) (Ok zero).

(** A portfolio over the given index holding the given trades. *)
Definition portfolio_of (ix : Index) (trades : list Vbt.Trade)
  : Vbt.Portfolio :=
  Vbt.mkPortfolio ix trades trades (2 * length trades) sample_statistics.

(** The number of trades whose P&L is strictly positive. *)
Fixpoint count_wins (trades : list Vbt.Trade) : nat :=
  match trades with
  | [] => 0
  | t :: trades' =>
      (if fgt (Vbt.pnl t) zero then 1 else 0) + count_wins trades'
  end.

(** ** Trade durations, counted in bars

    The statistics of [exit_idx - entry_idx] as integers, before any
    conversion to minutes; the duration statistics of the code are compared
    with these. *)

Definition bars_mean (ds : list Z) : Q :=
  inject_Z (fold_left Z.add ds 0) / inject_Z (Z.of_nat (length ds)).

Definition bars_max (ds : list Z) : Z :=
  match ds with
  | [] => 0
  | d :: ds' => fold_left Z.max ds' d
  end.

Definition bars_min (ds : list Z) : Z :=
  match ds with
  | [] => 0
  | d :: ds' => fold_left Z.min ds' d
  end.

Fixpoint bars_insert (d : Z) (ds : list Z) : list Z :=
  match ds with
  | [] => [d]
  | e :: es => if d <=? e then d :: e :: es else e :: bars_insert d es
  end.

Definition bars_sort (ds : list Z) : list Z :=
  fold_right bars_insert [] ds.




(** One-minute bars from 2025-02-01 00:00 UTC on. *)
Definition minute_index (n : nat) : Index :=
  DatetimeIndex
    (map (fun i => 1738368000000000000 + Z.of_nat i * 60000000000)
         (seq 0 n)).


(** ** Strategy objects *)

Section StrategyObjects.

Variable rsi_indicator : nat -> list float -> list float.
Variable bollinger_lband : nat -> float -> list float -> list float.
Variable bollinger_hband : nat -> float -> list float -> list float.
Variable derive_statistics : list Vbt.Column -> Vbt.Statistics.

(** The object handed to [Backtester.run_backtest]. *)
Definition strategy_of (v : Variant) : Strategy.t :=
  match v with
  | Crossover self => SMACrossoverStrategy.strategy derive_statistics self
  | OscillatorBand self =>
      RSIBollingerStrategy.strategy
        rsi_indicator bollinger_lband bollinger_hband derive_statistics self
  | MeanReversion self =>
      VWAPReversionStrategy.strategy derive_statistics self
  end.

End StrategyObjects.

(** What [get_metrics] adds to the metrics: the name of the strategy and
    its parameters. *)
Definition identity_of (v : Variant) : dict :=
  match v with
  | Crossover self =>
      [("strategy"%string, VStr "SMA Crossover");
       ("fast_window"%string,
        VInt (Z.of_nat (SMACrossoverStrategy.fast_window self)));
       ("slow_window"%string,
        VInt (Z.of_nat (SMACrossoverStrategy.slow_window self)))]
  | OscillatorBand self =>
      [("strategy"%string, VStr "RSI with Bollinger Bands");
       ("rsi_window"%string,
        VInt (Z.of_nat (RSIBollingerStrategy.rsi_window self)));
       ("bb_window"%string,
        VInt (Z.of_nat (RSIBollingerStrategy.bb_window self)));
       ("bb_std"%string, VFloat (RSIBollingerStrategy.bb_std self));
       ("rsi_oversold"%string,
        VFloat (RSIBollingerStrategy.rsi_oversold self));
       ("rsi_overbought"%string,
        VFloat (RSIBollingerStrategy.rsi_overbought self))]
  | MeanReversion self =>
      [("strategy"%string, VStr "VWAP Reversion");
       ("lookback_window"%string,
        VInt (Z.of_nat (VWAPReversionStrategy.lookback_window self)));
       ("deviation_threshold"%string,
        VFloat (VWAPReversionStrategy.deviation_threshold self))]
  end.

(** A portfolio whose [total_return()] raises. *)
Definition failing_statistics (_ : list Vbt.Column) : Vbt.Statistics :=
  Vbt.mkStatistics (Raise (OtherError "total_return")) (Ok zero) (Ok zero).

Definition failing_run : Strategy.t :=
  SMACrossoverStrategy.strategy failing_statistics sample_crossover.

(** A strategy whose signal generation raises. *)
Definition broken_run : Strategy.t :=
  SMACrossoverStrategy.strategy
    (fun _ => sample_statistics)
    (SMACrossoverStrategy.mk (settings gap_panel) 1 2).

(** As the claim has it: a run whose metrics computation raises yields no
    record. *)
Definition failed_metrics_yield_nothing (strategy : Strategy.t) : Prop :=
  forall portfolio,
    Strategy.run_backtest strategy = Ok portfolio ->
    raises (StrategyBase.metrics_body portfolio) ->
    Backtester.run_backtest strategy = None.

(** ** The VWAP variant at an undefined indicator *)

(** The four columns of a pair that the VWAP generator reads. *)
Definition vwap_of (self : VWAPReversionStrategy.t) (bars : list Bar)
  : list float :=
  VWAPReversionStrategy.calculate_vwap self
    (map bar_high bars) (map bar_low bars)
    (map bar_close bars) (map bar_volume bars).

(** The array the VWAP generator assigns to a pair with these bars. *)
Definition vwap_signal_of (self : VWAPReversionStrategy.t) (bars : list Bar)
  : list Z :=
  VWAPReversionStrategy.select_signal self
    (VWAPReversionStrategy.deviation_of (map bar_close bars)
                                        (vwap_of self bars)).

(** As the claim has it: wherever the VWAP is missing or zero, the signal
    is 0. *)
Definition undefined_vwap_gives_zero (self : VWAPReversionStrategy.t)
           (bars : list Bar) : Prop :=
  forall i, (i < length bars)%nat ->
    let vwap := nth i (vwap_of self bars) NaN in
    is_nan vwap = true \/ feqb vwap zero = true ->
    nth i (vwap_signal_of self bars) 0 = 0.

(** One bar with high 1, low -2, close 1 and volume 1: its typical price,
    and so its VWAP over a window of one bar, is zero. *)
Definition zero_vwap_panel : DataFrame :=
  mkDataFrame (RangeIndex 1)
    [("BTC/USDT"%string,
      [mkBar (of_Z 1) (of_Z 1) (of_Z (-2)) (of_Z 1) (of_Z 1)])].

Definition zero_vwap_strategy : VWAPReversionStrategy.t :=
  VWAPReversionStrategy.mk (settings zero_vwap_panel) 1 (Fin (1 # 100)).

(** Two bars: prices 0 traded with volume 1, then prices 1 with volume 0;
    over a window of two bars the VWAP of the second bar is zero. *)
Definition idle_panel : DataFrame :=
  mkDataFrame (RangeIndex 2)
    [("BTC/USDT"%string,
      [mkBar zero zero zero zero (of_Z 1);
       mkBar (of_Z 1) (of_Z 1) (of_Z 1) (of_Z 1) zero])].

Definition idle_strategy : VWAPReversionStrategy.t :=
  VWAPReversionStrategy.mk (settings idle_panel) 2 (Fin (1 # 100)).

(** ** The execution state machine *)

(** One bar as [run_backtest] presents it to the simulator: the entry flag
    is [signal == 1], the exit flag [signal == -1]. *)
Definition signal_step (c : string) (fees slippage : float) (i : nat)
           (close : float) (signal : Z) (s : Vbt.SimState)
  : result Vbt.SimState :=
  Vbt.step c fees slippage i close (signal =? 1) (signal =? -1) s.

(** The bars of a column from bar [i] on, each with its signal. *)
Fixpoint run_signals (c : string) (fees slippage : float) (i : nat)
         (rows : list (float * Z)) (s : Vbt.SimState)
  : result Vbt.SimState :=
  match rows with
  | [] => Ok s
  | (close, signal) :: rows' =>
      s' <- signal_step c fees slippage i close signal s ;;
      run_signals c fees slippage (S i) rows' s'
  end.

(** The signal that stands for a held direction. *)
Definition held (d : Vbt.Direction) : Z :=
  match d with
  | Vbt.FLAT => 0
  | Vbt.LONG => 1
  | Vbt.SHORT => -1
  end.

(** Modelled from the spec: the transition rule of the FLAT/LONG/SHORT
    machine.  A signal that differs from the held direction closes the
    position and, when it is not zero, opens one in its own direction. *)
Definition spec_transition (d : Vbt.Direction) (signal : Z) : Vbt.Direction :=
  if signal =? held d then d
  else if signal =? 1 then Vbt.LONG
  else if signal =? -1 then Vbt.SHORT
  else Vbt.FLAT.

(** As the claim has it: every step of the simulator moves the held
    direction as the transition rule of the spec says. *)
Definition follows_spec_machine (c : string) (fees slippage : float)
           (close : float) : Prop :=
  forall i signal s s',
    is_signal signal ->
    signal_step c fees slippage i close signal s = Ok s' ->
    Vbt.direction_of s' = spec_transition (Vbt.direction_of s) signal.

(** A flat state: no open entry, no position, cash to spend. *)
Definition flat_state (s : Vbt.SimState) : Prop :=
  Vbt.entry s = None /\
  exists p k, Vbt.position s = Fin p /\ (p == 0)%Q /\
              Vbt.cash s = Fin k /\ (0 < k)%Q.

(** A long state: an open entry whose size is the position. *)
Definition long_state (s : Vbt.SimState) : Prop :=
  exists e p k, Vbt.entry s = Some e /\ Vbt.position s = Fin p /\
                (0 < p)%Q /\ Vbt.cash s = Fin k /\ (0 <= k)%Q.

(** The states the simulator can be in. *)
Definition funded (s : Vbt.SimState) : Prop := flat_state s \/ long_state s.

(** Fees and slippage as fractions below one. *)
Definition fraction (x : float) : Prop :=
  exists q, x = Fin q /\ (0 <= q)%Q /\ (q < 1)%Q.

(** ** More sample data *)

(** Indicators that return the closes themselves, and bands that do the
    same: stand-ins of the right shape for the parameters. *)
Definition echo_rsi (_ : nat) (close : list float) : list float := close.
Definition echo_band (_ : nat) (_ : float) (close : list float)
  : list float := close.

Definition sample_band : RSIBollingerStrategy.t :=
  RSIBollingerStrategy.mk (settings sample_panel) 14 20
                          (of_Z 2) (of_Z 30) (of_Z 70).

Definition sample_reversion : VWAPReversionStrategy.t :=
  VWAPReversionStrategy.mk (settings sample_panel) 2 (Fin (1 # 100)).

(** ** The keys of a metrics record *)

(** The keys [calculate_metrics] writes on every path. *)
Definition core_keys : list string :=
  ["total_return"; "sharpe_ratio"; "max_drawdown"; "win_rate";
   "total_trades"; "exposure_time"; "profit_factor"]%string.

(** The keys of the duration statistics. *)
Definition duration_keys : list string :=
  ["avg_trade_duration"; "median_trade_duration";
   "max_trade_duration"; "min_trade_duration"]%string.

(** A close the simulator can take: missing, or a positive finite price. *)
Definition tradable (close : float) : Prop :=
  is_nan close = true \/ exists x, close = Fin x /\ (0 < x)%Q.

(** A variant that drops missing closes before computing its indicators. *)
Definition drops_missing (v : Variant) : bool :=
  match v with
  | Crossover _ | OscillatorBand _ => true
  | MeanReversion _ => false
  end.

(** ** core/data_loader.py *)

Module BinanceDataLoader.

(** A frame as [verify_data_integrity] may receive it: an index and
    columns labelled [(pair, field)], each label once.  Unlike [DataFrame],
    nothing ties the fields of a pair together: a pair may come without
    its close column. *)
Definition Label : Type := (string * string)%type.

Record Frame : Type := mkFrame {
  frame_index : Index;
  frame_columns : list (Label * list float)
}.

Definition label_eqb (a b : Label) : bool :=
  String.eqb (fst a) (fst b) && String.eqb (snd a) (snd b).

Definition key_error : exn := OtherError "KeyError".

(** [data[(pair, field)]]: a label the frame does not have is a
    [KeyError]. *)
Definition column (data : Frame) (label : Label) : result (list float) :=
  match find (fun c => label_eqb (fst c) label) (frame_columns data) with
  | Some c => Ok (snd c)
  | None => Raise key_error
  end.

(** [Index.unique()]: the values in the order of their first occurrence;
    [seen] holds the values already met. *)
Fixpoint unique (seen xs : list string) : list string :=
  match xs with
  | [] => []
  | x :: rest =>
      if existsb (String.eqb x) seen then unique seen rest
      else x :: unique (x :: seen) rest
  end.

(** [data.columns.get_level_values(0).unique()] *)
Definition level_pairs (data : Frame) : list string :=
  unique [] (map (fun c => fst (fst c)) (frame_columns data)).

(** [data.empty]: a frame without rows or without columns. *)
Definition empty (data : Frame) : bool :=
  (index_len (frame_index data) =? 0)%nat
  || (length (frame_columns data) =? 0)%nat.

(** The loop of [verify_data_integrity] over the pairs: a pair without a
    close column raises, the first pair with a close at or below zero ends
    the loop with [False]. *)
Fixpoint check_closes (data : Frame) (pairs : list string)
  : result bool :=
  match pairs with
  | [] => Ok true
  | name :: rest =>
      close <- column data (name, "close"%string) ;;
      if existsb (fun c => fle c zero) close then Ok false
      else check_closes data rest
  end.

(** Missing values are counted and logged, nothing more. *)
Definition verify_data_integrity (data : Frame) : result bool :=
  if empty data then Ok false
  else check_closes data (level_pairs data).

(** [s.endswith(suffix)] *)
Definition ends_with (suffix s : string) : bool :=
  let n := String.length s in
  let m := String.length suffix in
  (m <=? n)%nat && String.eqb (substring (n - m) m s) suffix.

(** One entry of [exchange.load_markets()]: the symbol and, when the
    market carries the key, its ['quoteVolume24h'], a number. *)
Definition Market : Type := (string * option Q)%type.

(** [markets[x].get('quoteVolume24h', 0)] *)
Definition volume_of (m : Market) : Q :=
  match snd m with
  | Some v => v
  | None => 0
  end.

(** [sorted(..., key=..., reverse=True)]: decreasing keys, and markets of
    equal key in the order they came in. *)
Fixpoint insert_by_volume (m : Market) (sorted : list Market)
  : list Market :=
  match sorted with
  | [] => [m]
  | x :: rest =>
      if Qle_bool (volume_of m) (volume_of x)
      then x :: insert_by_volume m rest
      else m :: x :: rest
  end.

Definition sort_by_volume (markets : list Market) : list Market :=
  fold_left (fun sorted m => insert_by_volume m sorted) markets [].

Definition btc_pairs (markets : list Market) : list Market :=
  filter (fun m => ends_with "/BTC" (fst m)) markets.

(** [load_markets] stands for the call to the exchange, which may raise;
    [top_n] is not negative. *)
Definition get_top_btc_pairs (load_markets : result (list Market))
           (top_n : nat) : list string :=
  match load_markets with
  | Ok markets => map fst (firstn top_n (sort_by_volume (btc_pairs markets)))
  | Raise _ => []
  end.

End BinanceDataLoader.

(** Two pairs with a close column each; the second close has a gap. *)
Definition sound_frame : BinanceDataLoader.Frame :=
  BinanceDataLoader.mkFrame (RangeIndex 2)
    [(("BTC/USDT", "open"), [of_Z 1; of_Z 2]);
     (("BTC/USDT", "close"), [of_Z 1; of_Z 2]);
     (("ETH/USDT", "close"), [NaN; of_Z 3])]%string.

(** The second pair comes with its volume only. *)
Definition closeless_frame : BinanceDataLoader.Frame :=
  BinanceDataLoader.mkFrame (RangeIndex 2)
    [(("BTC/USDT", "close"), [of_Z 1; of_Z 2]);
     (("ETH/USDT", "volume"), [of_Z 5; of_Z 3])]%string.

(** Markets in decreasing order of volume. *)
Definition by_volume (a b : BinanceDataLoader.Market) : Prop :=
  (BinanceDataLoader.volume_of b <= BinanceDataLoader.volume_of a)%Q.

Definition sample_markets : list BinanceDataLoader.Market :=
  [("ETH/BTC"%string, Some 5%Q); ("BTC/USDT"%string, Some 9%Q);
   ("LTC/BTC"%string, Some 7%Q); ("XRP/BTC"%string, None);
   ("BNB/BTC"%string, Some 7%Q)].

(** ** core/backtester.py: the grid of [compare_strategies] *)

Module CompareStrategies.

(** For [n] metrics to plot: [ncols = min(n, 2)] and
    [nrows = (n + 1) // 2]. *)
Definition ncols (n : nat) : nat := Nat.min n 2.
Definition nrows (n : nat) : nat := (n + 1) / 2.

(** [len(axes)] after [axes.flatten() if n > 1 else [axes]]. *)
Definition axes_len (n : nat) : nat :=
  if (1 <? n)%nat then nrows n * ncols n else 1.

(** The axes removed by [for j in range(i + 1, len(axes))] after the last
    metric, of position [i = n - 1], was drawn. *)
Definition spare_axes (n : nat) : list nat :=
  seq n (axes_len n - n).

End CompareStrategies.

(** ** Finite bars *)

(** ** Positions left open at the last bar *)

Definition is_closed (t : Vbt.Trade) : bool :=
  match Vbt.status t with
  | Vbt.Closed => true
  | Vbt.Open => false
  end.

(** Modelled from the spec: the win rate as the claim has it, the trades
    with a positive P&L over the closed trades, 0.0 without a closed
    trade. *)
Definition spec_win_rate (trades : list Vbt.Trade) : float :=
  let closed := filter is_closed trades in
  if (0 <? length closed)%nat
  then fdiv (of_nat (count_wins closed)) (of_nat (length closed))
  else zero.

(** A position of the given P&L still open at the last bar. *)
Definition open_trade (entry_bar last_bar : nat) (pnl : float) : Vbt.Trade :=
  Vbt.mkTrade "BTC/USDT" entry_bar last_bar (of_Z 100) (of_Z 100)
              (of_Z 1) pnl Vbt.Open.

(** Closes 1, 2, 3: the fast average crosses above the slow one at the
    second bar and stays there, so the position bought is never sold. *)
Definition rising_panel : DataFrame :=
  mkDataFrame (RangeIndex 3)
    [("BTC/USDT"%string,
      [flat_bar (of_Z 1); flat_bar (of_Z 2); flat_bar (of_Z 3)])].

Definition rising_crossover : SMACrossoverStrategy.t :=
  SMACrossoverStrategy.mk (settings rising_panel) 1 2.




(** * Properties *)

(** ** Comparisons of float values *)

Section FloatFacts.

Lemma Qlt_bool_iff (a b : Q) : Qlt_bool a b = true <-> (a < b)%Q.
Proof.
  unfold Qlt_bool. rewrite negb_true_iff. split.
  - intros H. apply Qnot_le_lt. intros Hle.
    apply Qle_bool_iff in Hle. congruence.
  - intros H. destruct (Qle_bool b a) eqn:E; [|reflexivity].
    apply Qle_bool_iff in E. exfalso. exact (Qlt_not_le _ _ H E).
Qed.

Lemma Qlt_bool_false_iff (a b : Q) : Qlt_bool a b = false <-> (b <= a)%Q.
Proof.
  unfold Qlt_bool. rewrite negb_false_iff. apply Qle_bool_iff.
Qed.

Lemma Qlt_bool_asym (a b : Q) : Qlt_bool a b = true -> Qlt_bool b a = false.
Proof.
  rewrite Qlt_bool_iff, Qlt_bool_false_iff. apply Qlt_le_weak.
Qed.

Lemma Qlt_bool_irrefl (a : Q) : Qlt_bool a a = false.
Proof. apply Qlt_bool_false_iff, Qle_refl. Qed.

Lemma flt_asym (x y : float) : flt x y = true -> flt y x = false.
Proof.
  destruct x, y; simpl; try congruence. apply Qlt_bool_asym.
Qed.

Lemma flt_nan_l (y : float) : flt NaN y = false.
Proof. reflexivity. Qed.

Lemma flt_nan_r (x : float) : flt x NaN = false.
Proof. destruct x; reflexivity. Qed.

Lemma feqb_not_flt (x y : float) : feqb x y = true -> flt x y = false.
Proof.
  destruct x, y; simpl; try congruence. intros H.
  apply Qeq_bool_iff in H. apply Qlt_bool_false_iff.
  rewrite H. apply Qle_refl.
Qed.

Lemma feqb_sym (x y : float) : feqb x y = feqb y x.
Proof.
  destruct x, y; simpl; try reflexivity. apply Qeq_bool_comm.
Qed.

Lemma fsub_nan_r (x : float) : fsub x NaN = NaN.
Proof. destruct x; reflexivity. Qed.

Lemma fdiv_nan_l (y : float) : fdiv NaN y = NaN.
Proof. reflexivity. Qed.

Lemma fdiv_nan_r (x : float) : fdiv x NaN = NaN.
Proof. destruct x; reflexivity. Qed.

End FloatFacts.

(** ** Lists, element-wise operations and rolling windows *)

Section ListFacts.

Context {A B C : Type}.

Lemma length_zip_with (f : A -> B -> C) (xs : list A) (ys : list B) :
  length (zip_with f xs ys) = Nat.min (length xs) (length ys).
Proof.
  revert ys. induction xs as [|x xs IH]; intros [|y ys]; simpl; auto.
Qed.

Lemma nth_zip_with (f : A -> B -> C) (xs : list A) (ys : list B)
      (i : nat) (da : A) (db : B) (dc : C) :
  (i < length xs)%nat -> (i < length ys)%nat ->
  nth i (zip_with f xs ys) dc = f (nth i xs da) (nth i ys db).
Proof.
  revert ys i. induction xs as [|x xs IH]; intros [|y ys] [|i]; simpl;
    intros Hx Hy; try lia; auto.
  apply IH; lia.
Qed.

Lemma Forall_zip_with (P : C -> Prop) (f : A -> B -> C)
      (xs : list A) (ys : list B) :
  (forall a b, P (f a b)) -> Forall P (zip_with f xs ys).
Proof.
  intros Hf. revert ys.
  induction xs as [|x xs IH]; intros [|y ys]; simpl; constructor; auto.
Qed.

End ListFacts.

Lemma nth_map_in {A B : Type} (f : A -> B) (xs : list A) (i : nat)
      (da : A) (db : B) :
  (i < length xs)%nat -> nth i (map f xs) db = f (nth i xs da).
Proof.
  intros Hi. rewrite (nth_indep _ db (f da)) by (rewrite length_map; exact Hi).
  apply map_nth.
Qed.

Lemma length_dropna_le (xs : list float) :
  (length (dropna xs) <= length xs)%nat.
Proof.
  unfold dropna. induction xs as [|x xs IH]; simpl; [lia|].
  destruct (notna x); simpl; lia.
Qed.

Lemma length_dropna_lt (xs : list float) :
  existsb is_nan xs = true -> (length (dropna xs) < length xs)%nat.
Proof.
  unfold dropna, notna. induction xs as [|x xs IH]; simpl; [discriminate|].
  destruct (is_nan x); simpl; intros H.
  - pose proof (length_dropna_le xs) as Hle. unfold dropna, notna in Hle. lia.
  - apply IH in H. lia.
Qed.

Lemma length_rolling_mean (w : nat) (xs : list float) :
  length (rolling_mean w xs) = length xs.
Proof. unfold rolling_mean. now rewrite length_map, length_seq. Qed.

Lemma length_rolling_sum (w : nat) (xs : list float) :
  length (rolling_sum w xs) = length xs.
Proof. unfold rolling_sum. now rewrite length_map, length_seq. Qed.

Lemma length_window_at (w : nat) (xs : list float) (i : nat) :
  (i < length xs)%nat ->
  length (window_at w xs i) = Nat.min w (i + 1).
Proof.
  intros Hi. unfold window_at.
  rewrite length_skipn, length_firstn. lia.
Qed.

(** During the warm-up of a window of length [w] the window is not full. *)
Lemma window_warm_up (w : nat) (xs : list float) (i : nat) :
  (i < length xs)%nat -> (i + 1 < w)%nat ->
  window_full w (window_at w xs i) = false.
Proof.
  intros Hi Hw. unfold window_full.
  rewrite length_window_at by exact Hi.
  replace (Nat.min w (i + 1) =? w)%nat with false; [reflexivity|].
  symmetry. apply Nat.eqb_neq. lia.
Qed.

Lemma nth_rolling_mean (w : nat) (xs : list float) (i : nat) :
  (i < length xs)%nat ->
  nth i (rolling_mean w xs) NaN =
  let win := window_at w xs i in
  if window_full w win then fdiv (fsum win) (of_nat (length win)) else NaN.
Proof.
  intros Hi. unfold rolling_mean.
  rewrite (nth_map_in _ _ _ 0%nat) by (rewrite length_seq; exact Hi).
  rewrite seq_nth by exact Hi. reflexivity.
Qed.

Lemma nth_rolling_sum (w : nat) (xs : list float) (i : nat) :
  (i < length xs)%nat ->
  nth i (rolling_sum w xs) NaN =
  let win := window_at w xs i in
  if window_full w win then fsum win else NaN.
Proof.
  intros Hi. unfold rolling_sum.
  rewrite (nth_map_in _ _ _ 0%nat) by (rewrite length_seq; exact Hi).
  rewrite seq_nth by exact Hi. reflexivity.
Qed.

Lemma rolling_mean_warm_up (w : nat) (xs : list float) (i : nat) :
  (i < length xs)%nat -> (i + 1 < w)%nat ->
  nth i (rolling_mean w xs) NaN = NaN.
Proof.
  intros Hi Hw. rewrite nth_rolling_mean by exact Hi. simpl.
  now rewrite window_warm_up.
Qed.

Lemma rolling_sum_warm_up (w : nat) (xs : list float) (i : nat) :
  (i < length xs)%nat -> (i + 1 < w)%nat ->
  nth i (rolling_sum w xs) NaN = NaN.
Proof.
  intros Hi Hw. rewrite nth_rolling_sum by exact Hi. simpl.
  now rewrite window_warm_up.
Qed.

(** ** The signal frame a strategy fills *)

Lemma lookup_dict_set_same {A : Type} (k : string) (v : A)
      (d : list (string * A)) :
  lookup k (dict_set k v d) = Some v.
Proof.
  unfold lookup. induction d as [|[k' v'] d IH]; simpl.
  - now rewrite String.eqb_refl.
  - destruct (String.eqb k' k) eqn:E; simpl.
    + now rewrite String.eqb_refl.
    + rewrite E. exact IH.
Qed.

Lemma lookup_dict_set_other {A : Type} (k k0 : string) (v : A)
      (d : list (string * A)) :
  k0 <> k -> lookup k (dict_set k0 v d) = lookup k d.
Proof.
  intros Hne. unfold lookup. induction d as [|[k' v'] d IH]; simpl.
  - apply String.eqb_neq in Hne. now rewrite Hne.
  - destruct (String.eqb k' k0) eqn:E; simpl.
    + apply String.eqb_eq in E. subst k'.
      apply String.eqb_neq in Hne. now rewrite Hne.
    + destruct (String.eqb k' k); [reflexivity | exact IH].
Qed.

Lemma in_dict_set {A : Type} (k k0 : string) (v v0 : A)
      (d : list (string * A)) :
  In (k, v) (dict_set k0 v0 d) -> (k, v) = (k0, v0) \/ In (k, v) d.
Proof.
  induction d as [|[k' v'] d IH]; simpl.
  - intros [H | []]. left. now symmetry.
  - destruct (String.eqb k' k0); simpl.
    + intros [H | H]; [left; now symmetry | right; now right].
    + intros [H | H]; [right; now left|].
      destruct (IH H) as [H' | H']; [now left | right; now right].
Qed.

Lemma lookup_in {A : Type} (k : string) (v : A) (d : list (string * A)) :
  lookup k d = Some v -> In (k, v) d.
Proof.
  unfold lookup. induction d as [|[k' v'] d IH]; simpl; [discriminate|].
  destruct (String.eqb k' k) eqn:E.
  - apply String.eqb_eq in E. subst k'. intros H. injection H as ->. now left.
  - intros H. right. exact (IH H).
Qed.

Lemma in_lookup_some {A : Type} (k : string) (v : A) (d : list (string * A)) :
  In (k, v) d -> exists v', lookup k d = Some v'.
Proof.
  unfold lookup. induction d as [|[k' v'] d IH]; simpl; [intros []|].
  intros [H | H].
  - injection H as -> ->. rewrite String.eqb_refl. now exists v.
  - destruct (String.eqb k' k); [now exists v' | exact (IH H)].
Qed.

Section AssignSignals.

Variable ix : Index.
Variable pair_signal : string -> result (list Z).

Let body (acc : result SignalFrame) (pair : string) : result SignalFrame :=
  signals <- acc ;;
  values <- pair_signal pair ;;
  setitem signals pair values.

Lemma assign_raise (l : list string) (e : exn) :
  fold_left body l (Raise e) = Raise e.
Proof. induction l as [|p l IH]; simpl; auto. Qed.

Lemma setitem_ok (signals signals' : SignalFrame) (pair : string)
      (values : list Z) :
  setitem signals pair values = Ok signals' ->
  length values = index_len (sig_index signals) /\
  sig_index signals' = sig_index signals /\
  sig_columns signals' = dict_set pair values (sig_columns signals).
Proof.
  unfold setitem.
  destruct (length values =? index_len (sig_index signals))%nat eqn:E;
    [|discriminate].
  intros H. injection H as <-. apply Nat.eqb_eq in E. now simpl.
Qed.

(** Whatever holds of every array a pair is given holds of every column
    of the finished frame. *)
Lemma assign_fold_columns (P : list Z -> Prop) (l : list string)
      (s0 signals : SignalFrame) :
  (forall pair values, pair_signal pair = Ok values -> P values) ->
  (forall k v, In (k, v) (sig_columns s0) -> P v) ->
  fold_left body l (Ok s0) = Ok signals ->
  forall k v, In (k, v) (sig_columns signals) -> P v.
Proof.
  intros Hf. revert s0.
  induction l as [|p l IH]; simpl; intros s0 H0 Hrun.
  - injection Hrun as <-. exact H0.
  - destruct (pair_signal p) as [values|e] eqn:Ep; simpl in Hrun;
      [|rewrite assign_raise in Hrun; discriminate].
    destruct (setitem s0 p values) as [s1|e] eqn:Es;
      [|rewrite assign_raise in Hrun; discriminate].
    apply setitem_ok in Es. destruct Es as (_ & _ & Hcols).
    apply (IH s1); [|exact Hrun].
    intros k v Hin. rewrite Hcols in Hin.
    destruct (in_dict_set _ _ _ _ _ Hin) as [Heq | Hold].
    + injection Heq as -> ->. eapply Hf; eauto.
    + eapply H0; eauto.
Qed.

(** The finished frame holds, for each pair of the loop, the array that
    pair was given, of the length of the index. *)
Lemma assign_fold_lookup (l : list string) (s0 signals : SignalFrame) :
  NoDup l ->
  fold_left body l (Ok s0) = Ok signals ->
  sig_index signals = sig_index s0 /\
  forall k,
    (In k l ->
     exists values,
       pair_signal k = Ok values /\
       length values = index_len (sig_index s0) /\
       lookup k (sig_columns signals) = Some values) /\
    (~ In k l ->
     lookup k (sig_columns signals) = lookup k (sig_columns s0)).
Proof.
  revert s0. induction l as [|p l IH]; simpl; intros s0 Hnd Hrun.
  - injection Hrun as <-. split; [reflexivity|].
    intros k. split; [intros [] | reflexivity].
  - destruct (pair_signal p) as [values|e] eqn:Ep; simpl in Hrun;
      [|rewrite assign_raise in Hrun; discriminate].
    destruct (setitem s0 p values) as [s1|e] eqn:Es;
      [|rewrite assign_raise in Hrun; discriminate].
    apply setitem_ok in Es. destruct Es as (Hlen & Hix & Hcols).
    inversion Hnd as [|? ? Hnotin Hnd']; subst.
    destruct (IH s1 Hnd' Hrun) as [Hix' Hk].
    split; [congruence|].
    intros k. destruct (Hk k) as [Hin Hout]. split.
    + intros [-> | Hl].
      * exists values. repeat split; auto.
        rewrite (Hout Hnotin), Hcols. apply lookup_dict_set_same.
      * destruct (Hin Hl) as (vs & H1 & H2 & H3).
        exists vs. repeat split; auto. congruence.
    + intros Hno. rewrite Hout by tauto. rewrite Hcols.
      apply lookup_dict_set_other. tauto.
Qed.

End AssignSignals.

(** A pair whose array has not the length of the index makes the whole
    loop raise. *)
Lemma assign_signals_raises (df : DataFrame)
      (pair_signal : string -> result (list Z)) (pair : string)
      (values : list Z) :
  In pair (pairs_of df) ->
  pair_signal pair = Ok values ->
  length values <> index_len (index df) ->
  raises (assign_signals df pair_signal).
Proof.
  intros Hin Hp Hlen.
  destruct (assign_signals df pair_signal) as [signals|e] eqn:Hrun;
    [|now exists e].
  exfalso. unfold assign_signals in Hrun.
  apply assign_fold_lookup in Hrun; [|apply NoDup_nodup].
  destruct Hrun as [_ Hk]. destruct (Hk pair) as [Hsome _].
  destruct (Hsome Hin) as (vs & H1 & H2 & _).
  simpl in H2. congruence.
Qed.

Lemma assign_signals_columns (df : DataFrame)
      (pair_signal : string -> result (list Z)) (P : list Z -> Prop)
      (signals : SignalFrame) :
  (forall pair values, pair_signal pair = Ok values -> P values) ->
  assign_signals df pair_signal = Ok signals ->
  forall k v, In (k, v) (sig_columns signals) -> P v.
Proof.
  intros Hf Hrun. unfold assign_signals in Hrun.
  eapply assign_fold_columns; eauto. simpl. intros k v [].
Qed.

Lemma assign_signals_lookup (df : DataFrame)
      (pair_signal : string -> result (list Z)) (signals : SignalFrame)
      (pair : string) :
  assign_signals df pair_signal = Ok signals ->
  In pair (pairs_of df) ->
  exists values,
    pair_signal pair = Ok values /\
    length values = index_len (index df) /\
    lookup pair (sig_columns signals) = Some values.
Proof.
  intros Hrun Hin. unfold assign_signals in Hrun.
  apply assign_fold_lookup in Hrun; [|apply NoDup_nodup].
  destruct Hrun as [_ Hk]. destruct (Hk pair) as [Hsome _].
  exact (Hsome Hin).
Qed.

(** ** Signal values: the closed world *)

Lemma np_where_scalars_signal (c1 c2 : list bool) :
  Forall is_signal (np_where c1 1 (np_where0 c2 (-1) 0)).
Proof.
  unfold np_where. remember (np_where0 c2 (-1) 0) as inner eqn:E.
  assert (Hin : Forall is_signal inner).
  { subst inner. unfold np_where0. apply Forall_forall. intros z Hz.
    apply in_map_iff in Hz. destruct Hz as (c & <- & _).
    destruct c; unfold is_signal; auto. }
  clear E. revert inner Hin.
  induction c1 as [|c c1 IH]; intros [|y ys] Hin; simpl; constructor.
  - inversion Hin; subst. destruct c; [unfold is_signal; auto | assumption].
  - apply IH. now inversion Hin.
Qed.

Lemma np_select2_signal (c1 c2 : list bool) :
  Forall is_signal (np_select2 c1 c2 1 (-1) 0).
Proof.
  unfold np_select2. apply Forall_zip_with.
  intros [] []; unfold is_signal; auto.
Qed.

Lemma lookup_pairs_of (df : DataFrame) (pair : string) (bars : list Bar) :
  lookup pair (assets df) = Some bars -> In pair (pairs_of df).
Proof.
  intros H. apply lookup_in in H. unfold pairs_of. apply nodup_In.
  apply in_map_iff. exists (pair, bars). auto.
Qed.

Lemma pairs_of_lookup (df : DataFrame) (pair : string) :
  In pair (pairs_of df) -> exists bars, lookup pair (assets df) = Some bars.
Proof.
  unfold pairs_of. intros H. apply nodup_In in H.
  apply in_map_iff in H. destruct H as ([k bars] & Hk & Hin).
  simpl in Hk. subst k. eapply in_lookup_some; eauto.
Qed.

(** C3. Whatever the variant, a frame of signals that [generate_signals]
    returns has, for every pair of the price panel, one column as long as
    the index, and every value of every column is -1, 0 or 1. *)
Theorem signal_values_closed
        (rsi_indicator : nat -> list float -> list float)
        (bollinger_lband bollinger_hband :
           nat -> float -> list float -> list float)
        (v : Variant) (signals : SignalFrame) :
  generate_signals rsi_indicator bollinger_lband bollinger_hband v
    = Ok signals ->
  (forall pair values,
      In (pair, values) (sig_columns signals) -> Forall is_signal values) /\
  (forall pair,
      In pair (pairs_of (variant_data v)) ->
      exists values,
        lookup pair (sig_columns signals) = Some values /\
        length values = index_len (index (variant_data v)) /\
        Forall is_signal values).
Proof.
  intros Hrun.
  assert (Hall : forall pair values,
             In (pair, values) (sig_columns signals) ->
             Forall is_signal values).
  { destruct v as [self | self | self]; simpl in Hrun;
      eapply assign_signals_columns; try exact Hrun;
      intros pair values Hp.
    - unfold SMACrossoverStrategy.pair_signal in Hp.
      destruct (getitem _ pair bar_close); simpl in Hp; [|discriminate].
      injection Hp as <-. apply np_where_scalars_signal.
    - unfold RSIBollingerStrategy.pair_signal in Hp.
      destruct (getitem _ pair bar_close); simpl in Hp; [|discriminate].
      injection Hp as <-. apply np_select2_signal.
    - unfold VWAPReversionStrategy.pair_signal in Hp.
      destruct (getitem _ pair bar_high); simpl in Hp; [|discriminate].
      destruct (getitem _ pair bar_low); simpl in Hp; [|discriminate].
      destruct (getitem _ pair bar_close); simpl in Hp; [|discriminate].
      destruct (getitem _ pair bar_volume); simpl in Hp; [|discriminate].
      injection Hp as <-. apply np_select2_signal. }
  split; [exact Hall|].
  intros pair Hin.
  assert (Hex : exists values,
             lookup pair (sig_columns signals) = Some values /\
             length values = index_len (index (variant_data v))).
  { destruct v as [self | self | self]; simpl in Hrun, Hin |- *;
      destruct (assign_signals_lookup _ _ _ _ Hrun Hin)
        as (values & _ & Hlen & Hl);
      exists values; auto. }
  destruct Hex as (values & Hl & Hlen).
  exists values. repeat split; auto.
  eapply Hall. apply lookup_in. exact Hl.
Qed.

Lemma signal_values_closed_witness :
  exists signals,
    generate_signals (fun _ xs => xs) (fun _ _ xs => xs) (fun _ _ xs => xs)
                     (Crossover sample_crossover) = Ok signals /\
    lookup "BTC/USDT"%string (sig_columns signals) = Some [0; 1; -1; 0] /\
    forall pair values,
      In (pair, values) (sig_columns signals) -> Forall is_signal values.
Proof.
  eexists. split; [vm_compute; reflexivity|].
  split; [reflexivity|].
  apply (signal_values_closed (fun _ xs => xs) (fun _ _ xs => xs)
           (fun _ _ xs => xs) (Crossover sample_crossover)).
  vm_compute. reflexivity.
Defined.

(** ** The crossover rule *)

Lemma length_sma_indicator (w : nat) (close : list float) :
  length (Ta.sma_indicator w close) = length close.
Proof. apply length_rolling_mean. Qed.

(** The value the nested [np.where] leaves at position [i]. *)
Lemma nth_crossover (self : SMACrossoverStrategy.t) (close : list float)
      (i : nat) :
  (i < length close)%nat ->
  nth i (SMACrossoverStrategy.crossover self close) 0 =
  let fast :=
    nth i (Ta.sma_indicator (SMACrossoverStrategy.fast_window self) close)
        NaN in
  let slow :=
    nth i (Ta.sma_indicator (SMACrossoverStrategy.slow_window self) close)
        NaN in
  if fgt fast slow then 1 else if flt fast slow then -1 else 0.
Proof.
  intros Hi. unfold SMACrossoverStrategy.crossover, np_where, np_where0.
  assert (Hz : forall (f : float -> float -> bool),
             length (zip_with f
               (Ta.sma_indicator (SMACrossoverStrategy.fast_window self) close)
               (Ta.sma_indicator (SMACrossoverStrategy.slow_window self) close))
             = length close).
  { intros f. rewrite length_zip_with, !length_sma_indicator. lia. }
  rewrite (nth_zip_with _ _ _ _ false 0 0)
    by (rewrite ?length_map, Hz; exact Hi).
  rewrite (nth_map_in _ _ _ false) by (rewrite Hz; exact Hi).
  rewrite !(nth_zip_with _ _ _ _ NaN NaN false)
    by (rewrite length_sma_indicator; exact Hi).
  reflexivity.
Qed.

Lemma crossover_column (self : SMACrossoverStrategy.t)
      (signals : SignalFrame) (pair : string) (bars : list Bar) :
  SMACrossoverStrategy.generate_signals self = Ok signals ->
  lookup pair (assets (StrategyBase.price_data
                         (SMACrossoverStrategy.base self))) = Some bars ->
  StrategyBase.signal_column signals pair =
    SMACrossoverStrategy.crossover self (dropna (map bar_close bars)) /\
  length (SMACrossoverStrategy.crossover self (dropna (map bar_close bars)))
    = index_len (index (StrategyBase.price_data
                          (SMACrossoverStrategy.base self))).
Proof.
  intros Hrun Hl.
  destruct (assign_signals_lookup _ _ _ pair Hrun
              (lookup_pairs_of _ _ _ Hl)) as (values & Hp & Hlen & Hcol).
  unfold SMACrossoverStrategy.pair_signal, getitem in Hp.
  rewrite Hl in Hp. simpl in Hp. injection Hp as <-.
  unfold StrategyBase.signal_column. rewrite Hcol. auto.
Qed.

Lemma length_crossover (self : SMACrossoverStrategy.t) (close : list float) :
  length (SMACrossoverStrategy.crossover self close) = length close.
Proof.
  unfold SMACrossoverStrategy.crossover, np_where, np_where0.
  rewrite length_zip_with, length_map, !length_zip_with,
    !length_sma_indicator. lia.
Qed.

(** C2. In the frame the crossover strategy returns, the column of a pair
    is as long as the pair's closes, and at every position: fast above
    slow gives +1, fast below slow gives -1, and equality, a missing
    average, or the warm-up of either average gives 0. *)
Theorem crossover_signal_rule
        (self : SMACrossoverStrategy.t) (signals : SignalFrame)
        (pair : string) (bars : list Bar) (i : nat) :
  SMACrossoverStrategy.generate_signals self = Ok signals ->
  lookup pair (assets (StrategyBase.price_data
                         (SMACrossoverStrategy.base self))) = Some bars ->
  (i < length (dropna (map bar_close bars)))%nat ->
  let close := dropna (map bar_close bars) in
  let fast :=
    nth i (Ta.sma_indicator (SMACrossoverStrategy.fast_window self) close)
        NaN in
  let slow :=
    nth i (Ta.sma_indicator (SMACrossoverStrategy.slow_window self) close)
        NaN in
  let signal := nth i (StrategyBase.signal_column signals pair) 0 in
  length (StrategyBase.signal_column signals pair) = length close /\
  (fgt fast slow = true -> signal = 1) /\
  (flt fast slow = true -> signal = -1) /\
  (feqb fast slow = true -> signal = 0) /\
  (is_nan fast = true \/ is_nan slow = true -> signal = 0) /\
  ((i + 1 < SMACrossoverStrategy.fast_window self)%nat \/
   (i + 1 < SMACrossoverStrategy.slow_window self)%nat -> signal = 0).
Proof.
  intros Hrun Hl Hi close fast slow signal.
  destruct (crossover_column _ _ _ _ Hrun Hl) as [Hcol _].
  assert (Hsig : signal =
                 if fgt fast slow then 1
                 else if flt fast slow then -1 else 0).
  { unfold signal. rewrite Hcol. now rewrite nth_crossover. }
  assert (Hnan : is_nan fast = true \/ is_nan slow = true -> signal = 0).
  { intros [H | H]; rewrite Hsig; unfold fgt.
    - destruct fast; try discriminate. now rewrite flt_nan_r, flt_nan_l.
    - destruct slow; try discriminate. now rewrite flt_nan_r, flt_nan_l. }
  split; [rewrite Hcol; apply length_crossover|].
  split; [intros H; now rewrite Hsig, H|].
  split; [intros H; rewrite Hsig; unfold fgt;
          now rewrite (flt_asym _ _ H), H|].
  split.
  { intros H. rewrite Hsig. unfold fgt.
    rewrite (feqb_not_flt _ _ H).
    rewrite feqb_sym in H. now rewrite (feqb_not_flt _ _ H). }
  split; [exact Hnan|].
  intros [H | H]; apply Hnan; [left | right]; unfold fast, slow;
    unfold Ta.sma_indicator; now rewrite rolling_mean_warm_up.
Qed.

Lemma crossover_signal_rule_witness :
  exists signals,
    SMACrossoverStrategy.generate_signals sample_crossover = Ok signals /\
    nth 1 (StrategyBase.signal_column signals "BTC/USDT") 0 = 1.
Proof.
  eexists. split; [vm_compute; reflexivity|].
  refine (proj1 (proj2
    (crossover_signal_rule sample_crossover _ "BTC/USDT"%string _ 1%nat
       eq_refl eq_refl _)) _).
  - vm_compute. lia.
  - vm_compute. reflexivity.
Defined.

(** ** Missing closes *)

Lemma well_formed_lookup (df : DataFrame) (pair : string) (bars : list Bar) :
  well_formed df -> lookup pair (assets df) = Some bars ->
  length bars = index_len (index df).
Proof.
  intros Hwf Hl. apply lookup_in in Hl.
  unfold well_formed in Hwf. rewrite Forall_forall in Hwf.
  exact (Hwf _ Hl).
Qed.

Lemma existsb_nan_close (bars : list Bar) :
  existsb (fun b => is_nan (bar_close b)) bars = true ->
  existsb is_nan (map bar_close bars) = true.
Proof.
  induction bars as [|b bars IH]; simpl; [auto|].
  destruct (is_nan (bar_close b)); simpl; auto.
Qed.

(** In a well-formed panel, a pair with a missing close makes the
    crossover generator raise: the array computed after [dropna()] is
    shorter than the index it is assigned to. *)
Lemma crossover_raises_on_gap (self : SMACrossoverStrategy.t)
      (pair : string) (bars : list Bar) :
  well_formed (StrategyBase.price_data (SMACrossoverStrategy.base self)) ->
  lookup pair (assets (StrategyBase.price_data
                         (SMACrossoverStrategy.base self))) = Some bars ->
  existsb (fun b => is_nan (bar_close b)) bars = true ->
  raises (SMACrossoverStrategy.generate_signals self).
Proof.
  intros Hwf Hl Hnan.
  eapply assign_signals_raises.
  - eapply lookup_pairs_of; eauto.
  - unfold SMACrossoverStrategy.pair_signal, getitem. rewrite Hl.
    simpl. reflexivity.
  - rewrite length_crossover.
    pose proof (length_dropna_lt _ (existsb_nan_close _ Hnan)) as Hlt.
    rewrite length_map in Hlt.
    rewrite <- (well_formed_lookup _ _ _ Hwf Hl). lia.
Qed.

(** The same for the oscillator and band generator, whatever the two
    indicators compute. *)
Lemma band_raises_on_gap
      (rsi_indicator : nat -> list float -> list float)
      (bollinger_lband bollinger_hband :
         nat -> float -> list float -> list float)
      (self : RSIBollingerStrategy.t) (pair : string) (bars : list Bar) :
  well_formed (StrategyBase.price_data (RSIBollingerStrategy.base self)) ->
  lookup pair (assets (StrategyBase.price_data
                         (RSIBollingerStrategy.base self))) = Some bars ->
  existsb (fun b => is_nan (bar_close b)) bars = true ->
  raises (RSIBollingerStrategy.generate_signals
            rsi_indicator bollinger_lband bollinger_hband self).
Proof.
  intros Hwf Hl Hnan.
  eapply assign_signals_raises.
  - eapply lookup_pairs_of; eauto.
  - unfold RSIBollingerStrategy.pair_signal, getitem. rewrite Hl.
    simpl. reflexivity.
  - unfold RSIBollingerStrategy.band_signal, np_select2.
    rewrite !length_zip_with, !length_map.
    pose proof (length_dropna_lt _ (existsb_nan_close _ Hnan)) as Hlt.
    rewrite length_map in Hlt.
    rewrite <- (well_formed_lookup _ _ _ Hwf Hl). lia.
Qed.

(** C5. With one missing close among three, and with a pair that has no
    data at all next to a pair that has, the crossover and the oscillator
    and band generators raise [ValueError]; no frame of signals comes
    back. *)
Theorem generate_signals_raises_on_missing_close :
  SMACrossoverStrategy.generate_signals
    (SMACrossoverStrategy.mk (settings gap_panel) 1 2)
    = Raise length_mismatch /\
  SMACrossoverStrategy.generate_signals
    (SMACrossoverStrategy.mk (settings missing_asset_panel) 1 2)
    = Raise length_mismatch /\
  (forall rsi_indicator bollinger_lband bollinger_hband,
      raises (RSIBollingerStrategy.generate_signals
                rsi_indicator bollinger_lband bollinger_hband
                (RSIBollingerStrategy.mk (settings gap_panel) 14 20
                   (of_Z 2) (of_Z 30) (of_Z 70)))).
Proof.
  split; [vm_compute; reflexivity|].
  split; [vm_compute; reflexivity|].
  intros rsi lb hb.
  apply (band_raises_on_gap rsi lb hb _ "BTC/USDT"%string
           [flat_bar (of_Z 1); flat_bar NaN; flat_bar (of_Z 2)]).
  - repeat constructor.
  - reflexivity.
  - reflexivity.
Qed.

(** ** Sums of P&L *)

Lemma fsum_fin_from (qs : list Q) (a : Q) :
  fold_left fadd (map Fin qs) (Fin a) = Fin (fold_left Qplus qs a).
Proof.
  revert a. induction qs as [|q qs IH]; intros a; simpl; [reflexivity|].
  apply IH.
Qed.

Lemma fsum_fin (qs : list Q) :
  fsum (map Fin qs) = Fin (fold_left Qplus qs 0%Q).
Proof. apply fsum_fin_from. Qed.

Lemma filter_none (f : float -> bool) (xs : list float) :
  Forall (fun x => f x = false) xs -> filter f xs = [].
Proof.
  induction xs as [|x xs IH]; intros Hall; simpl; [reflexivity|].
  inversion Hall as [|? ? Hx Hxs]; subst. rewrite Hx. auto.
Qed.


Lemma gross_losses_none (trades : list Vbt.Trade) :
  Forall (fun t => ~ losing t) trades ->
  MetricsCalculator.gross_losses trades = zero.
Proof.
  intros Hno. unfold MetricsCalculator.gross_losses.
  rewrite filter_none; [reflexivity|].
  apply Forall_map. eapply Forall_impl; [|exact Hno].
  intros t Ht. unfold losing in Ht. simpl in Ht.
  now destruct (flt (Vbt.pnl t) zero).
Qed.

(** ** The duration statistics never raise *)

Lemma trade_duration_stats_empty (portfolio : Vbt.Portfolio) :
  Vbt.trades_records portfolio = [] ->
  MetricsCalculator.calculate_trade_duration_stats portfolio = Ok [].
Proof.
  intros He. unfold MetricsCalculator.calculate_trade_duration_stats.
  now rewrite He.
Qed.

Lemma trade_duration_stats_some (portfolio : Vbt.Portfolio) :
  Vbt.trades_records portfolio <> [] ->
  exists first rest,
    MetricsCalculator.durations_minutes (Vbt.wrapper_index portfolio)
      (Vbt.trades_records portfolio) = first :: rest /\
    MetricsCalculator.calculate_trade_duration_stats portfolio =
    Ok [("avg_trade_duration"%string,
         VFloat (MetricsCalculator.mean (first :: rest)));
        ("median_trade_duration"%string,
         VFloat (MetricsCalculator.median (first :: rest)));
        ("max_trade_duration"%string, VFloat (fold_left fmax rest first));
        ("min_trade_duration"%string, VFloat (fold_left fmin rest first))].
Proof.
  intros Hne. unfold MetricsCalculator.calculate_trade_duration_stats.
  destruct (Vbt.trades_records portfolio) as [|t ts]; [congruence|].
  simpl length. simpl Nat.eqb. cbv iota.
  unfold MetricsCalculator.durations_minutes,
    MetricsCalculator.durations_bars.
  simpl map. eexists. eexists. split; reflexivity.
Qed.

Lemma trade_duration_stats_total (portfolio : Vbt.Portfolio) :
  exists stats,
    MetricsCalculator.calculate_trade_duration_stats portfolio = Ok stats.
Proof.
  destruct (Vbt.trades_records portfolio) as [|t ts] eqn:E.
  - exists []. now apply trade_duration_stats_empty.
  - destruct (trade_duration_stats_some portfolio) as (f & r & _ & H);
      [congruence|].
    eexists. exact H.
Qed.

Lemma metrics_body_ok (portfolio : Vbt.Portfolio) (metrics : dict) :
  StrategyBase.metrics_body portfolio = Ok metrics ->
  exists total sharpe drawdown stats,
    MetricsCalculator.calculate_trade_duration_stats portfolio = Ok stats /\
    metrics =
    dict_set "profit_factor"
      (VFloat (MetricsCalculator.calculate_profit_factor portfolio))
      (dict_update
         [("total_return"%string, VFloat total);
          ("sharpe_ratio"%string, VFloat sharpe);
          ("max_drawdown"%string, VFloat drawdown);
          ("win_rate"%string,
           VFloat (StrategyBase.win_rate (Vbt.trades_records portfolio)));
          ("total_trades"%string,
           VInt (Z.of_nat (length (Vbt.trades_records portfolio))));
          ("exposure_time"%string,
           VFloat (StrategyBase.calculate_exposure portfolio))]
         stats).
Proof.
  unfold StrategyBase.metrics_body.
  destruct (Vbt.total_return portfolio) as [x1|]; [|discriminate].
  destruct (Vbt.sharpe_ratio portfolio) as [x2|]; [|discriminate].
  destruct (Vbt.max_drawdown portfolio) as [x3|]; [|discriminate].
  simpl bind.
  destruct (trade_duration_stats_total portfolio) as [stats Hstats].
  rewrite Hstats. simpl bind. intros H. injection H as <-.
  exists x1, x2, x3, stats. split; reflexivity.
Qed.

(** The record of a portfolio without trades: no duration statistic, a
    win rate and a profit factor of 0.0, no trade counted. *)
Lemma metrics_without_trades (portfolio : Vbt.Portfolio) (metrics : dict) :
  StrategyBase.metrics_body portfolio = Ok metrics ->
  Vbt.trades_records portfolio = [] ->
  has_key "avg_trade_duration" metrics = false /\
  has_key "median_trade_duration" metrics = false /\
  has_key "max_trade_duration" metrics = false /\
  has_key "min_trade_duration" metrics = false /\
  lookup "win_rate" metrics = Some (VFloat zero) /\
  lookup "profit_factor" metrics = Some (VFloat zero) /\
  lookup "total_trades" metrics = Some (VInt 0).
Proof.
  intros Hbody He.
  destruct (metrics_body_ok _ _ Hbody) as (x1 & x2 & x3 & stats & Hs & ->).
  rewrite (trade_duration_stats_empty _ He) in Hs. injection Hs as <-.
  unfold MetricsCalculator.calculate_profit_factor. rewrite He.
  repeat split; reflexivity.
Qed.

(** With trades, the four duration statistics are in the record as
    computed. *)
Lemma duration_stats_in_metrics (portfolio : Vbt.Portfolio)
      (metrics stats : dict) :
  StrategyBase.metrics_body portfolio = Ok metrics ->
  MetricsCalculator.calculate_trade_duration_stats portfolio = Ok stats ->
  forall k v, In (k, v) stats -> lookup k metrics = Some v.
Proof.
  intros Hbody Hstats k v Hin.
  destruct (metrics_body_ok _ _ Hbody) as (x1 & x2 & x3 & stats' & Hs & ->).
  rewrite Hstats in Hs. injection Hs as <-.
  destruct (Vbt.trades_records portfolio) as [|t ts] eqn:E.
  - rewrite (trade_duration_stats_empty _ E) in Hstats.
    injection Hstats as <-. destruct Hin.
  - destruct (trade_duration_stats_some portfolio) as (f & r & _ & Hsome);
      [congruence|].
    rewrite Hsome in Hstats. injection Hstats as <-.
    simpl in Hin.
    destruct Hin as [H | [H | [H | [H | []]]]]; injection H as <- <-;
      reflexivity.
Qed.


(** ** The profit factor *)













(** C10. Over a ledger that is not empty and holds no losing trade, the
    profit factor is +inf, whether or not a trade is winning; so it is for
    a ledger of trades that all made exactly nothing. *)
Theorem profit_factor_without_losses (portfolio : Vbt.Portfolio) :
  Vbt.trades_records portfolio <> [] ->
  Forall (fun t => ~ losing t) (Vbt.trades_records portfolio) ->
  MetricsCalculator.calculate_profit_factor portfolio = PInf.
Proof.
  intros Hne Hno. unfold MetricsCalculator.calculate_profit_factor.
  destruct (Vbt.trades_records portfolio) as [|t ts]; [congruence|].
  simpl length. simpl Nat.eqb. cbv iota.
  now rewrite (gross_losses_none _ Hno).
Qed.

Lemma profit_factor_without_losses_witness :
  MetricsCalculator.calculate_profit_factor
    (portfolio_of (RangeIndex 9)
       [sample_trade 0 2 zero; sample_trade 3 4 zero]) = PInf.
Proof.
  apply profit_factor_without_losses.
  - simpl. discriminate.
  - repeat constructor; unfold losing; simpl; discriminate.
Defined.

(** ** The win rate *)

Lemma count_wins_filter (trades : list Vbt.Trade) :
  length (filter (fun t => fgt (Vbt.pnl t) zero) trades) = count_wins trades.
Proof.
  induction trades as [|t ts IH]; [reflexivity|].
  cbn [filter count_wins].
  destruct (fgt (Vbt.pnl t) zero); cbn [length Nat.add]; now rewrite IH.
Qed.

Lemma count_wins_le (trades : list Vbt.Trade) :
  (count_wins trades <= length trades)%nat.
Proof.
  induction trades as [|t ts IH]; [simpl; lia|].
  cbn [count_wins length].
  destruct (fgt (Vbt.pnl t) zero); lia.
Qed.

Lemma win_rate_in_metrics (portfolio : Vbt.Portfolio) (metrics : dict) :
  StrategyBase.metrics_body portfolio = Ok metrics ->
  lookup "win_rate" metrics =
  Some (VFloat (StrategyBase.win_rate (Vbt.trades_records portfolio))).
Proof.
  unfold StrategyBase.metrics_body.
  destruct (Vbt.total_return portfolio) as [x1|]; [|discriminate].
  destruct (Vbt.sharpe_ratio portfolio) as [x2|]; [|discriminate].
  destruct (Vbt.max_drawdown portfolio) as [x3|]; [|discriminate].
  simpl bind.
  destruct (Vbt.trades_records portfolio) as [|t ts] eqn:E.
  - rewrite trade_duration_stats_empty by exact E.
    intros H. injection H as <-. reflexivity.
  - destruct (trade_duration_stats_some portfolio) as (f & r & _ & ->);
      [congruence|].
    intros H. injection H as <-. reflexivity.
Qed.

Lemma filter_all_closed (trades : list Vbt.Trade) :
  Forall (fun t => Vbt.status t = Vbt.Closed) trades ->
  filter is_closed trades = trades.
Proof.
  induction trades as [|t ts IH]; intros Hall; [reflexivity|].
  inversion Hall as [|? ? Ht Hts]; subst.
  cbn [filter]. unfold is_closed at 1. rewrite Ht. now rewrite IH.
Qed.

(** C7, where it fails: the position bought at the second bar is still
    open after the last one; no trade is closed, yet the record of the run
    counts one trade and its win rate is 1.0, not 0.0. *)
Lemma closed_win_rate_counterexample :
  exists portfolio,
    SMACrossoverStrategy.run_backtest (fun _ => sample_statistics)
                                      rising_crossover = Ok portfolio /\
    map Vbt.status (Vbt.trades_records portfolio) = [Vbt.Open] /\
    filter is_closed (Vbt.trades_records portfolio) = [] /\
    spec_win_rate (Vbt.trades_records portfolio) = Fin 0 /\
    lookup "win_rate" (StrategyBase.calculate_metrics portfolio)
    = Some (VFloat (Fin 1)) /\
    StrategyBase.win_rate (Vbt.trades_records portfolio)
    <> spec_win_rate (Vbt.trades_records portfolio).
Proof.
  eexists. split; [vm_compute; reflexivity|].
  repeat split; try (vm_compute; reflexivity).
  vm_compute. discriminate.
Qed.

(** C7, as the code has it.  The win rate is 0.0 without a trade record
    and otherwise the number of records with a strictly positive P&L over
    the number of all records, a position still open after the last bar
    counted like a closed trade; it is a number between 0 and 1, never nan,
    and it is the value the metrics record holds under [win_rate].  Where
    every record is a closed trade it is the quotient over the closed
    trades. *)
Theorem win_rate_rule (portfolio : Vbt.Portfolio) (metrics : dict) :
  StrategyBase.metrics_body portfolio = Ok metrics ->
  let trades := Vbt.trades_records portfolio in
  let rate := StrategyBase.win_rate trades in
  lookup "win_rate" (StrategyBase.calculate_metrics portfolio)
    = Some (VFloat rate) /\
  (trades = [] -> rate = Fin 0) /\
  (trades <> [] ->
   rate = Fin (inject_Z (Z.of_nat (count_wins trades))
               / inject_Z (Z.of_nat (length trades))) /\
   (0 <= inject_Z (Z.of_nat (count_wins trades))
         / inject_Z (Z.of_nat (length trades)) <= 1)%Q) /\
  is_nan rate = false /\
  (Forall (fun t => Vbt.status t = Vbt.Closed) trades ->
   rate = spec_win_rate trades).
Proof.
  intros Hbody trades rate.
  assert (Hsome : trades <> [] ->
                  rate = Fin (inject_Z (Z.of_nat (count_wins trades))
                              / inject_Z (Z.of_nat (length trades)))).
  { intros Hne. unfold rate, StrategyBase.win_rate.
    rewrite count_wins_filter.
    destruct trades as [|t ts]; [congruence|].
    replace (0 <? length (t :: ts))%nat with true by reflexivity.
    unfold of_nat, of_Z, fdiv.
    replace (Qeq_bool (inject_Z (Z.of_nat (length (t :: ts)))) 0)
      with false; [reflexivity|].
    symmetry. destruct (Qeq_bool _ 0) eqn:Eq; [|reflexivity].
    apply Qeq_bool_iff in Eq. unfold Qeq in Eq. simpl in Eq. lia. }
  split.
  { unfold StrategyBase.calculate_metrics. rewrite Hbody.
    now apply win_rate_in_metrics. }
  split.
  { intros He. unfold rate. now rewrite He. }
  split.
  { intros Hne. split; [now apply Hsome|].
    pose proof (count_wins_le trades) as Hle.
    assert (Hpos : (0 < inject_Z (Z.of_nat (length trades)))%Q).
    { destruct trades as [|t ts]; [congruence|].
      unfold Qlt. simpl. lia. }
    split.
    - apply Qle_shift_div_l; [exact Hpos|]. rewrite Qmult_0_l.
      unfold Qle. simpl. lia.
    - apply Qle_shift_div_r; [exact Hpos|]. rewrite Qmult_1_l.
      rewrite <- Zle_Qle. lia. }
  split.
  { destruct trades as [|t ts] eqn:E; [reflexivity|].
    rewrite Hsome by discriminate. reflexivity. }
  intros Hclosed. unfold rate, spec_win_rate, StrategyBase.win_rate.
  cbv zeta. rewrite (filter_all_closed _ Hclosed).
  now rewrite count_wins_filter.
Qed.

Lemma win_rate_rule_witness :
  lookup "win_rate"
    (StrategyBase.calculate_metrics
       (portfolio_of (RangeIndex 9)
          [sample_trade 0 2 (of_Z 6); sample_trade 3 4 (of_Z (-1));
           sample_trade 5 8 zero]))
  = Some (VFloat (Fin (1 # 3))) /\
  lookup "win_rate"
    (StrategyBase.calculate_metrics (portfolio_of (RangeIndex 9) []))
  = Some (VFloat (Fin 0)) /\
  lookup "win_rate"
    (StrategyBase.calculate_metrics
       (portfolio_of (RangeIndex 9)
          [sample_trade 0 2 (of_Z (-1)); open_trade 5 8 (of_Z 6)]))
  = Some (VFloat (Fin (1 # 2))).
Proof.
  split; [|split].
  - exact (proj1 (win_rate_rule
      (portfolio_of (RangeIndex 9)
         [sample_trade 0 2 (of_Z 6); sample_trade 3 4 (of_Z (-1));
          sample_trade 5 8 zero]) _ eq_refl)).
  - exact (proj1 (win_rate_rule (portfolio_of (RangeIndex 9) []) _ eq_refl)).
  - exact (proj1 (win_rate_rule
      (portfolio_of (RangeIndex 9)
         [sample_trade 0 2 (of_Z (-1)); open_trade 5 8 (of_Z 6)])
      _ eq_refl)).
Defined.

(** ** Sorting the bar counts *)

Lemma bars_insert_permutation (d : Z) (ds : list Z) :
  Permutation (d :: ds) (bars_insert d ds).
Proof.
  induction ds as [|e es IH]; simpl; [apply Permutation_refl|].
  destruct (d <=? e); [apply Permutation_refl|].
  eapply perm_trans; [apply perm_swap|]. now apply perm_skip.
Qed.

Lemma bars_sort_permutation (ds : list Z) : Permutation ds (bars_sort ds).
Proof.
  unfold bars_sort. induction ds as [|d ds IH]; simpl; [constructor|].
  eapply perm_trans; [apply perm_skip; exact IH|].
  apply bars_insert_permutation.
Qed.

Lemma bars_insert_sorted (d : Z) (ds : list Z) :
  Sorted Z.le ds -> Sorted Z.le (bars_insert d ds).
Proof.
  induction ds as [|e es IH]; intros Hs; simpl.
  - repeat constructor.
  - destruct (Z.leb_spec d e) as [Hle | Hgt].
    + constructor; [exact Hs | constructor; exact Hle].
    + inversion Hs as [|? ? Hes Hhd]; subst.
      constructor; [now apply IH|].
      destruct es as [|e' es']; simpl.
      * constructor. lia.
      * destruct (d <=? e'); constructor; [lia|].
        inversion Hhd; subst. assumption.
Qed.

(** The list whose middle the median of the bar counts takes is the bar
    counts in increasing order. *)
Lemma bars_sort_sorted (ds : list Z) : Sorted Z.le (bars_sort ds).
Proof.
  unfold bars_sort. induction ds as [|d ds IH]; simpl; [constructor|].
  now apply bars_insert_sorted.
Qed.

(** ** Durations: minutes against bars *)



Section Scaling.

Variable b : Q.
Hypothesis b_positive : (0 < b)%Q.

(** One duration in minutes. *)
Let minutes (d : Z) : float := fmul (of_Z d) (Fin b).














Lemma inject_nat_nonzero (n : nat) :
  (0 < n)%nat -> Qeq_bool (inject_Z (Z.of_nat n)) 0 = false.
Proof.
  intros Hn. destruct (Qeq_bool _ 0) eqn:E; [|reflexivity].
  apply Qeq_bool_iff in E. unfold Qeq in E. simpl in E. lia.
Qed.


End Scaling.




(** ** Failed metrics *)

Lemma get_metrics_of (rsi_indicator : nat -> list float -> list float)
      (bollinger_lband bollinger_hband :
         nat -> float -> list float -> list float)
      (derive_statistics : list Vbt.Column -> Vbt.Statistics)
      (v : Variant) :
  let strategy :=
    strategy_of rsi_indicator bollinger_lband bollinger_hband
                derive_statistics v in
  Strategy.get_metrics strategy =
  (portfolio <- Strategy.run_backtest strategy ;;
   Ok (dict_update (StrategyBase.calculate_metrics portfolio)
                   (identity_of v))).
Proof. destruct v; reflexivity. Qed.

Lemma calculate_metrics_placeholder (portfolio : Vbt.Portfolio) :
  raises (StrategyBase.metrics_body portfolio) ->
  StrategyBase.calculate_metrics portfolio = StrategyBase.placeholder.
Proof.
  intros [e He]. unfold StrategyBase.calculate_metrics. now rewrite He.
Qed.

(** C9, where it fails: [total_return()] raises, and the backtester
    returns a record all the same, every metric at zero. *)
Lemma failed_metrics_counterexample :
  ~ failed_metrics_yield_nothing failing_run /\
  exists outcome,
    Backtester.run_backtest failing_run = Some outcome /\
    Backtester.metrics outcome =
      dict_update StrategyBase.placeholder
                  (identity_of (Crossover sample_crossover)) /\
    Backtester.all_metrics [failing_run] = [Backtester.metrics outcome].
Proof.
  split.
  - intros Hclaim.
    assert (Hrun : exists portfolio,
               Strategy.run_backtest failing_run = Ok portfolio)
      by (eexists; vm_compute; reflexivity).
    destruct Hrun as [portfolio Hrun].
    assert (Hraise : raises (StrategyBase.metrics_body portfolio)).
    { vm_compute in Hrun. injection Hrun as <-.
      eexists. vm_compute. reflexivity. }
    pose proof (Hclaim portfolio Hrun Hraise) as Hnone.
    vm_compute in Hnone. discriminate.
  - eexists. split; [vm_compute; reflexivity|].
    split; vm_compute; reflexivity.
Qed.

(** C9, as the code has it.  For each of the three strategies: when the
    backtest returns a portfolio and computing its metrics raises, the
    backtester still returns a record, the placeholder with every metric at
    zero, extended with the name and the parameters of the strategy; the
    backtester returns nothing exactly when the backtest itself raises. *)
Theorem failed_metrics_placeholder
        (rsi_indicator : nat -> list float -> list float)
        (bollinger_lband bollinger_hband :
           nat -> float -> list float -> list float)
        (derive_statistics : list Vbt.Column -> Vbt.Statistics)
        (v : Variant) :
  let strategy :=
    strategy_of rsi_indicator bollinger_lband bollinger_hband
                derive_statistics v in
  (forall portfolio,
      Strategy.run_backtest strategy = Ok portfolio ->
      raises (StrategyBase.metrics_body portfolio) ->
      Backtester.run_backtest strategy =
      Some {| Backtester.metrics :=
                dict_update StrategyBase.placeholder (identity_of v);
              Backtester.portfolio := portfolio |}) /\
  (Backtester.run_backtest strategy = None <->
   raises (Strategy.run_backtest strategy)).
Proof.
  intros strategy.
  pose proof (get_metrics_of rsi_indicator bollinger_lband bollinger_hband
                derive_statistics v) as Hget.
  fold strategy in Hget. simpl in Hget.
  split.
  - intros portfolio Hrun Hraise.
    unfold Backtester.run_backtest, Backtester.run_body.
    rewrite Hget, Hrun. simpl.
    now rewrite (calculate_metrics_placeholder _ Hraise).
  - unfold Backtester.run_backtest, Backtester.run_body. rewrite Hget.
    destruct (Strategy.run_backtest strategy) as [portfolio|e]; simpl.
    + split; [discriminate | intros [e He]; discriminate].
    + split; [intros _; now exists e | reflexivity].
Qed.

Lemma failed_metrics_placeholder_witness :
  (exists portfolio,
      Strategy.run_backtest failing_run = Ok portfolio /\
      Backtester.run_backtest failing_run =
      Some {| Backtester.metrics :=
                dict_update StrategyBase.placeholder
                            (identity_of (Crossover sample_crossover));
              Backtester.portfolio := portfolio |}) /\
  Backtester.run_backtest broken_run = None.
Proof.
  split.
  - eexists. split; [vm_compute; reflexivity|].
    apply (proj1 (failed_metrics_placeholder
                    (fun _ xs => xs) (fun _ _ xs => xs) (fun _ _ xs => xs)
                    failing_statistics (Crossover sample_crossover))).
    + vm_compute. reflexivity.
    + eexists. vm_compute. reflexivity.
  - apply (proj2 (failed_metrics_placeholder
                    (fun _ xs => xs) (fun _ _ xs => xs) (fun _ _ xs => xs)
                    (fun _ => sample_statistics)
                    (Crossover (SMACrossoverStrategy.mk
                                  (settings gap_panel) 1 2)))).
    eexists. vm_compute. reflexivity.
Defined.

(** ** A loop that cannot raise *)

Lemma assign_signals_ok (df : DataFrame)
      (pair_signal : string -> result (list Z)) :
  (forall pair, In pair (pairs_of df) ->
     exists values, pair_signal pair = Ok values /\
                    length values = index_len (index df)) ->
  exists signals, assign_signals df pair_signal = Ok signals.
Proof.
  unfold assign_signals.
  assert (Hgen : forall l s0,
             sig_index s0 = index df ->
             (forall pair, In pair l ->
                exists values, pair_signal pair = Ok values /\
                               length values = index_len (index df)) ->
             exists signals,
               fold_left
                 (fun acc pair =>
                    signals <- acc ;;
                    values <- pair_signal pair ;;
                    setitem signals pair values) l (Ok s0) = Ok signals).
  { induction l as [|p l IH]; intros s0 Hix Hall; simpl.
    - now exists s0.
    - destruct (Hall p (or_introl eq_refl)) as (values & Hp & Hlen).
      rewrite Hp. simpl. unfold setitem. rewrite Hix, Hlen, Nat.eqb_refl.
      apply IH; [reflexivity|].
      intros pair Hin. apply Hall. now right. }
  intros Hall. apply Hgen; [reflexivity | exact Hall].
Qed.

(** ** The VWAP variant *)

Lemma length_vwap_of (self : VWAPReversionStrategy.t) (bars : list Bar) :
  length (vwap_of self bars) = length bars.
Proof.
  unfold vwap_of, VWAPReversionStrategy.calculate_vwap,
    VWAPReversionStrategy.typical_price.
  rewrite length_zip_with, !length_rolling_sum, !length_zip_with,
    !length_map. lia.
Qed.

Lemma length_vwap_signal_of (self : VWAPReversionStrategy.t)
      (bars : list Bar) :
  length (vwap_signal_of self bars) = length bars.
Proof.
  unfold vwap_signal_of, VWAPReversionStrategy.select_signal, np_select2,
    VWAPReversionStrategy.deviation_of.
  rewrite length_zip_with, !length_map, !length_zip_with, length_map,
    length_vwap_of. lia.
Qed.

(** The signal of one timestamp, from the close and the VWAP there. *)
Lemma nth_vwap_signal (self : VWAPReversionStrategy.t) (bars : list Bar)
      (i : nat) :
  (i < length bars)%nat ->
  nth i (vwap_signal_of self bars) 0 =
  let close := nth i (map bar_close bars) NaN in
  let vwap := nth i (vwap_of self bars) NaN in
  let deviation := fdiv (fsub close vwap) vwap in
  if flt deviation (fneg (VWAPReversionStrategy.deviation_threshold self))
  then 1
  else if fgt deviation (VWAPReversionStrategy.deviation_threshold self)
       then -1 else 0.
Proof.
  intros Hi.
  unfold vwap_signal_of, VWAPReversionStrategy.select_signal, np_select2,
    VWAPReversionStrategy.deviation_of.
  assert (Hv : length (vwap_of self bars) = length bars)
    by apply length_vwap_of.
  assert (Hd : length (zip_with fdiv
                         (zip_with fsub (map bar_close bars)
                                   (vwap_of self bars))
                         (vwap_of self bars)) = length bars).
  { rewrite !length_zip_with, length_map, Hv. lia. }
  rewrite (nth_zip_with _ _ _ _ false false 0)
    by (rewrite length_map, Hd; exact Hi).
  rewrite !(nth_map_in _ _ _ NaN false) by (rewrite Hd; exact Hi).
  rewrite (nth_zip_with _ _ _ _ NaN NaN NaN);
    [| rewrite length_zip_with, length_map, Hv; lia | rewrite Hv; exact Hi].
  rewrite (nth_zip_with _ _ _ _ NaN NaN NaN);
    [| rewrite length_map; exact Hi | rewrite Hv; exact Hi].
  reflexivity.
Qed.

Lemma vwap_warm_up (self : VWAPReversionStrategy.t) (bars : list Bar)
      (i : nat) :
  (i < length bars)%nat ->
  (i + 1 < VWAPReversionStrategy.lookback_window self)%nat ->
  nth i (vwap_of self bars) NaN = NaN.
Proof.
  intros Hi Hw. unfold vwap_of, VWAPReversionStrategy.calculate_vwap.
  rewrite (nth_zip_with _ _ _ _ NaN NaN NaN).
  - rewrite rolling_sum_warm_up; [reflexivity | | exact Hw].
    unfold VWAPReversionStrategy.typical_price.
    rewrite !length_zip_with, !length_map. lia.
  - rewrite length_rolling_sum.
    unfold VWAPReversionStrategy.typical_price.
    rewrite !length_zip_with, !length_map. lia.
  - rewrite length_rolling_sum, length_map. exact Hi.
Qed.

Lemma vwap_pair_signal (self : VWAPReversionStrategy.t) (pair : string)
      (bars : list Bar) :
  lookup pair (assets (StrategyBase.price_data
                         (VWAPReversionStrategy.base self))) = Some bars ->
  VWAPReversionStrategy.pair_signal self pair
  = Ok (vwap_signal_of self bars).
Proof.
  intros Hl. unfold VWAPReversionStrategy.pair_signal, getitem.
  rewrite Hl. reflexivity.
Qed.

(** On a well-formed panel the VWAP generator returns a frame, and the
    column of each pair is the array computed from its bars. *)
Lemma vwap_generate_signals_ok (self : VWAPReversionStrategy.t) :
  well_formed (StrategyBase.price_data (VWAPReversionStrategy.base self)) ->
  exists signals,
    VWAPReversionStrategy.generate_signals self = Ok signals /\
    forall pair bars,
      lookup pair (assets (StrategyBase.price_data
                             (VWAPReversionStrategy.base self)))
        = Some bars ->
      StrategyBase.signal_column signals pair = vwap_signal_of self bars.
Proof.
  intros Hwf.
  destruct (assign_signals_ok
              (StrategyBase.price_data (VWAPReversionStrategy.base self))
              (VWAPReversionStrategy.pair_signal self)) as [signals Hrun].
  { intros pair Hin. destruct (pairs_of_lookup _ _ Hin) as [bars Hl].
    exists (vwap_signal_of self bars). split.
    - now apply vwap_pair_signal.
    - rewrite length_vwap_signal_of.
      now apply (well_formed_lookup _ pair). }
  exists signals. split; [exact Hrun|].
  intros pair bars Hl.
  destruct (assign_signals_lookup _ _ _ pair Hrun
              (lookup_pairs_of _ _ _ Hl)) as (values & Hp & _ & Hcol).
  rewrite (vwap_pair_signal _ _ _ Hl) in Hp. injection Hp as <-.
  unfold StrategyBase.signal_column. now rewrite Hcol.
Qed.

(** C4, where it fails: the VWAP is exactly zero under a close of 1, the
    deviation is +inf, and the signal is -1. *)
Lemma zero_vwap_counterexample :
  ~ undefined_vwap_gives_zero zero_vwap_strategy
      [mkBar (of_Z 1) (of_Z 1) (of_Z (-2)) (of_Z 1) (of_Z 1)] /\
  VWAPReversionStrategy.generate_signals zero_vwap_strategy
    = Ok {| sig_index := RangeIndex 1;
            sig_columns := [("BTC/USDT"%string, [-1])] |} /\
  ~ undefined_vwap_gives_zero idle_strategy
      [mkBar zero zero zero zero (of_Z 1);
       mkBar (of_Z 1) (of_Z 1) (of_Z 1) (of_Z 1) zero] /\
  VWAPReversionStrategy.generate_signals idle_strategy
    = Ok {| sig_index := RangeIndex 2;
            sig_columns := [("BTC/USDT"%string, [0; -1])] |}.
Proof.
  split.
  { intros Hclaim. specialize (Hclaim 0%nat).
    simpl in Hclaim.
    assert (H : -1 = 0); [|discriminate].
    apply Hclaim; [lia | right; vm_compute; reflexivity]. }
  split; [vm_compute; reflexivity|].
  split; [|vm_compute; reflexivity].
  intros Hclaim. specialize (Hclaim 1%nat).
  simpl in Hclaim.
  assert (H : -1 = 0); [|discriminate].
  apply Hclaim; [lia | right; vm_compute; reflexivity].
Qed.

(** C4, as the code has it.  On a well-formed panel the VWAP generator
    returns a frame, nothing is raised, and at each timestamp of each pair:
    during the warm-up the VWAP is nan; a nan VWAP gives the signal 0; a
    zero VWAP gives 0 when the close is zero or nan as well; and a zero
    VWAP under a finite close that is not zero is not guarded: under a
    finite threshold the deviation is infinite and the signal is -1 for a
    positive close, +1 for a negative one. *)
Theorem vwap_signal_edge_cases
        (self : VWAPReversionStrategy.t) (pair : string) (bars : list Bar)
        (i : nat) :
  well_formed (StrategyBase.price_data (VWAPReversionStrategy.base self)) ->
  lookup pair (assets (StrategyBase.price_data
                         (VWAPReversionStrategy.base self))) = Some bars ->
  (i < length bars)%nat ->
  exists signals,
    VWAPReversionStrategy.generate_signals self = Ok signals /\
    let close := bar_close (nth i bars (flat_bar NaN)) in
    let vwap := nth i (vwap_of self bars) NaN in
    let signal := nth i (StrategyBase.signal_column signals pair) 0 in
    ((i + 1 < VWAPReversionStrategy.lookback_window self)%nat ->
     is_nan vwap = true) /\
    (is_nan vwap = true -> signal = 0) /\
    (feqb vwap zero = true ->
     is_nan close = true \/ feqb close zero = true -> signal = 0) /\
    (forall threshold x,
        VWAPReversionStrategy.deviation_threshold self = Fin threshold ->
        feqb vwap zero = true -> close = Fin x ->
        ((0 < x)%Q -> signal = -1) /\ ((x < 0)%Q -> signal = 1)).
Proof.
  intros Hwf Hl Hi.
  destruct (vwap_generate_signals_ok self Hwf) as (signals & Hrun & Hcols).
  exists signals. split; [exact Hrun|].
  intros close vwap signal.
  assert (Hsig : signal =
            let deviation := fdiv (fsub close vwap) vwap in
            if flt deviation
                   (fneg (VWAPReversionStrategy.deviation_threshold self))
            then 1
            else if fgt deviation
                        (VWAPReversionStrategy.deviation_threshold self)
                 then -1 else 0).
  { unfold signal. rewrite (Hcols _ _ Hl), nth_vwap_signal by exact Hi.
    rewrite (nth_map_in bar_close _ _ (flat_bar NaN) NaN) by exact Hi.
    reflexivity. }
  simpl in Hsig.
  split.
  { intros Hw. unfold vwap. now rewrite vwap_warm_up. }
  split.
  { intros Hnan. rewrite Hsig.
    destruct vwap; try discriminate.
    rewrite fsub_nan_r. simpl. unfold fgt. now rewrite flt_nan_r. }
  split.
  { intros Hzero Hclose. rewrite Hsig.
    destruct vwap as [| | |v]; try discriminate.
    simpl in Hzero.
    destruct close as [| | |x]; simpl in Hclose;
      destruct Hclose as [Hc | Hc]; try discriminate.
    - simpl. unfold fgt. now rewrite flt_nan_r.
    - simpl. rewrite Hzero.
      replace (Qeq_bool (x + - v) 0) with true.
      + unfold fgt. now rewrite flt_nan_r.
      + symmetry. apply Qeq_bool_iff.
        apply Qeq_bool_iff in Hzero, Hc. rewrite Hzero, Hc. reflexivity. }
  intros threshold x Hthr Hzero Hclose.
  destruct vwap as [| | |v]; try discriminate.
  simpl in Hzero. rewrite Hthr, Hclose in Hsig. simpl in Hsig.
  rewrite Hzero in Hsig.
  pose proof (proj1 (Qeq_bool_iff _ _) Hzero) as Hv.
  split; intros Hx.
  - assert (Hpos : (0 < x + - v)%Q) by (rewrite Hv; now ring_simplify).
    replace (Qeq_bool (x + - v) 0) with false in Hsig.
    + replace (Qlt_bool 0 (x + - v)) with true in Hsig
        by (symmetry; now apply Qlt_bool_iff).
      exact Hsig.
    + symmetry. destruct (Qeq_bool (x + - v) 0) eqn:E; [|reflexivity].
      apply Qeq_bool_iff in E. rewrite E in Hpos.
      now apply Qlt_irrefl in Hpos.
  - assert (Hneg : (x + - v < 0)%Q) by (rewrite Hv; now ring_simplify).
    replace (Qeq_bool (x + - v) 0) with false in Hsig.
    + replace (Qlt_bool 0 (x + - v)) with false in Hsig.
      * exact Hsig.
      * symmetry. apply Qlt_bool_false_iff. now apply Qlt_le_weak.
    + symmetry. destruct (Qeq_bool (x + - v) 0) eqn:E; [|reflexivity].
      apply Qeq_bool_iff in E. rewrite E in Hneg.
      now apply Qlt_irrefl in Hneg.
Qed.

Lemma vwap_signal_edge_cases_witness :
  exists signals,
    VWAPReversionStrategy.generate_signals idle_strategy = Ok signals /\
    nth 0 (StrategyBase.signal_column signals "BTC/USDT") 0 = 0 /\
    nth 1 (StrategyBase.signal_column signals "BTC/USDT") 0 = -1.
Proof.
  destruct (vwap_signal_edge_cases idle_strategy "BTC/USDT"%string
              [mkBar zero zero zero zero (of_Z 1);
               mkBar (of_Z 1) (of_Z 1) (of_Z 1) (of_Z 1) zero] 0%nat
              ltac:(repeat constructor) eq_refl ltac:(simpl; lia))
    as (signals & Hrun & Hwarm & Hnan & _).
  destruct (vwap_signal_edge_cases idle_strategy "BTC/USDT"%string
              [mkBar zero zero zero zero (of_Z 1);
               mkBar (of_Z 1) (of_Z 1) (of_Z 1) (of_Z 1) zero] 1%nat
              ltac:(repeat constructor) eq_refl ltac:(simpl; lia))
    as (signals' & Hrun' & _ & _ & _ & Hzero).
  rewrite Hrun in Hrun'. injection Hrun' as <-.
  exists signals. split; [exact Hrun|]. split.
  - apply Hnan. apply Hwarm. simpl. lia.
  - apply (proj1 (Hzero (1 # 100)%Q 1%Q eq_refl eq_refl eq_refl)).
    reflexivity.
Defined.

(** ** The execution state machine *)

(** The flags of [run_backtest] make the simulation a run over signals. *)
Lemma simulate_from_signals (c : string) (fees slippage : float)
      (rows : list (float * Z)) (i : nat) (s : Vbt.SimState) :
  Vbt.simulate_from c fees slippage i
    (combine (map fst rows)
             (combine (map (fun r => snd r =? 1) rows)
                      (map (fun r => snd r =? -1) rows))) s
  = run_signals c fees slippage i rows s.
Proof.
  revert i s. induction rows as [|[close signal] rows IH]; intros i s;
    simpl; [reflexivity|].
  unfold signal_step.
  destruct (Vbt.step c fees slippage i close (signal =? 1) (signal =? -1) s);
    simpl; [apply IH | reflexivity].
Qed.

Lemma flt_zero_fin (q : Q) : flt zero (Fin q) = true <-> (0 < q)%Q.
Proof. simpl. apply Qlt_bool_iff. Qed.

Lemma Qeq_bool_pos (q : Q) : (0 < q)%Q -> Qeq_bool q 0 = false.
Proof.
  intros H. destruct (Qeq_bool q 0) eqn:E; [|reflexivity].
  apply Qeq_bool_iff in E. rewrite E in H. now apply Qlt_irrefl in H.
Qed.

Lemma fdiv_fin_pos (a b : Q) :
  (0 < b)%Q -> fdiv (Fin a) (Fin b) = Fin (a / b).
Proof. intros H. simpl. now rewrite Qeq_bool_pos. Qed.

Lemma Qdiv_pos (a b : Q) : (0 < a)%Q -> (0 < b)%Q -> (0 < a / b)%Q.
Proof.
  intros Ha Hb. apply Qlt_shift_div_l; [exact Hb|]. now rewrite Qmult_0_l.
Qed.

Lemma Qone_plus_pos (q : Q) : (0 <= q)%Q -> (0 < 1 + q)%Q.
Proof.
  intros H. apply Qlt_le_trans with (y := 1%Q); [reflexivity|].
  rewrite <- (Qplus_0_r 1) at 1. now apply Qplus_le_r.
Qed.

Lemma Qone_minus_pos (q : Q) : (q < 1)%Q -> (0 < 1 + - q)%Q.
Proof.
  intros H. apply (Qplus_lt_l _ _ q). ring_simplify. exact H.
Qed.

Lemma direction_flat (s : Vbt.SimState) :
  flat_state s -> Vbt.direction_of s = Vbt.FLAT.
Proof.
  intros (_ & p & k & Hp & Hp0 & _). unfold Vbt.direction_of.
  rewrite Hp. simpl.
  replace (Qlt_bool 0 p) with false
    by (symmetry; apply Qlt_bool_false_iff; rewrite Hp0; apply Qle_refl).
  replace (Qlt_bool p 0) with false
    by (symmetry; apply Qlt_bool_false_iff; rewrite Hp0; apply Qle_refl).
  reflexivity.
Qed.

Lemma direction_long (s : Vbt.SimState) :
  long_state s -> Vbt.direction_of s = Vbt.LONG.
Proof.
  intros (e & p & k & _ & Hp & Hpos & _). unfold Vbt.direction_of.
  rewrite Hp. now rewrite (proj2 (flt_zero_fin p) Hpos).
Qed.

Lemma check_price_valid (x : Q) :
  (0 < x)%Q -> Vbt.check_price (Fin x) = Vbt.Valid.
Proof.
  intros H. unfold Vbt.check_price. simpl.
  now rewrite (proj2 (Qlt_bool_iff 0 x) H).
Qed.

Lemma check_price_cases (close : float) :
  match Vbt.check_price close with
  | Vbt.Valid => exists x, close = Fin x /\ (0 < x)%Q
  | _ => True
  end.
Proof.
  unfold Vbt.check_price. destruct close as [| | |x]; simpl; auto.
  destruct (Qlt_bool 0 x) eqn:E; [|exact I].
  exists x. split; [reflexivity | now apply Qlt_bool_iff].
Qed.

(** Buying when flat: the whole cash is spent at the close raised by the
    slippage, and the state is long. *)
Lemma buy_opens (fees slippage : float) (i : nat) (x : Q)
      (s : Vbt.SimState) :
  fraction fees -> fraction slippage -> (0 < x)%Q -> flat_state s ->
  exists s' e,
    Vbt.buy fees slippage i (Fin x) s = Ok s' /\
    long_state s' /\
    Vbt.entry s' = Some e /\
    Vbt.e_idx e = i /\
    Vbt.e_price e = fmul (Fin x) (fadd Vbt.one slippage) /\
    Vbt.closed_trades s' = Vbt.closed_trades s.
Proof.
  intros (f & -> & Hf0 & Hf1) (sl & -> & Hs0 & Hs1) Hx
         (Hentry & p & k & Hp & Hp0 & Hk & Hkpos).
  unfold Vbt.buy. rewrite (check_price_valid _ Hx), Hk.
  rewrite (proj2 (flt_zero_fin k) Hkpos).
  eexists. eexists. split; [reflexivity|].
  split; [|repeat split; reflexivity].
  assert (H1f : (0 < inject_Z 1 + f)%Q) by now apply Qone_plus_pos.
  assert (H1s : (0 < inject_Z 1 + sl)%Q) by now apply Qone_plus_pos.
  assert (Hadj : (0 < x * (inject_Z 1 + sl))%Q)
    by now apply Qmult_lt_0_compat.
  assert (Hsize : (0 < k / (inject_Z 1 + f) / (x * (inject_Z 1 + sl)))%Q).
  { apply Qdiv_pos; [apply Qdiv_pos|]; assumption. }
  assert (Hmax : fdiv (Fin k) (fadd Vbt.one (Fin f))
                 = Fin (k / (inject_Z 1 + f)))
    by apply (fdiv_fin_pos k _ H1f).
  assert (Hprice : fmul (Fin x) (fadd Vbt.one (Fin sl))
                   = Fin (x * (inject_Z 1 + sl))) by reflexivity.
  unfold long_state.
  cbn [Vbt.entry Vbt.position Vbt.cash].
  rewrite Hp, Hmax, Hprice, (fdiv_fin_pos _ _ Hadj).
  eexists. eexists. eexists.
  split; [reflexivity|].
  split; [reflexivity|].
  split; [rewrite Hp0, Qplus_0_l; exact Hsize|].
  split; [reflexivity|].
  ring_simplify. apply Qle_refl.
Qed.

(** Selling when long: the whole position goes at the close lowered by
    the slippage, the trade is recorded, and the state is flat. *)
Lemma sell_closes (c : string) (fees slippage : float) (i : nat) (x : Q)
      (s : Vbt.SimState) :
  fraction fees -> fraction slippage -> (0 < x)%Q -> long_state s ->
  exists s' e,
    Vbt.entry s = Some e /\
    Vbt.sell c fees slippage i (Fin x) s = Ok s' /\
    flat_state s' /\
    Vbt.closed_trades s' =
      Vbt.closed_trades s
        ++ [Vbt.trade_of c e i (fmul (Fin x) (fsub Vbt.one slippage))
              (fmul (fmul (Vbt.position s)
                          (fmul (Fin x) (fsub Vbt.one slippage))) fees)
              Vbt.Closed].
Proof.
  intros (f & -> & Hf0 & Hf1) (sl & -> & Hs0 & Hs1) Hx
         (e & p & k & Hentry & Hp & Hppos & Hk & Hk0).
  unfold Vbt.sell. rewrite (check_price_valid _ Hx), Hentry.
  eexists. exists e. split; [reflexivity|].
  split; [reflexivity|].
  split; [|reflexivity].
  unfold flat_state.
  cbn [Vbt.entry Vbt.position Vbt.cash].
  split; [reflexivity|].
  rewrite Hp, Hk.
  exists (p + - p)%Q.
  exists (k + (p * (x * (inject_Z 1 + - sl))
               + - (p * (x * (inject_Z 1 + - sl)) * f)))%Q.
  split; [reflexivity|].
  split; [ring|].
  split; [reflexivity|].
  assert (H1s : (0 < inject_Z 1 + - sl)%Q) by now apply Qone_minus_pos.
  assert (H1f : (0 < inject_Z 1 + - f)%Q) by now apply Qone_minus_pos.
  assert (Hacq : (0 < p * (x * (inject_Z 1 + - sl)))%Q).
  { apply Qmult_lt_0_compat; [exact Hppos|].
    now apply Qmult_lt_0_compat. }
  assert (Hnet : (0 < p * (x * (inject_Z 1 + - sl)) * (inject_Z 1 + - f))%Q)
    by now apply Qmult_lt_0_compat.
  apply Qle_lt_trans with (y := (0 + 0)%Q); [apply Qle_refl|].
  rewrite (Qplus_comm k). apply Qplus_lt_le_compat; [|exact Hk0].
  eapply Qlt_le_trans; [exact Hnet|].
  ring_simplify. apply Qle_refl.
Qed.

Lemma flat_position_zero (s : Vbt.SimState) :
  flat_state s ->
  feqb (Vbt.position s) zero = true /\ flt zero (Vbt.position s) = false.
Proof.
  intros (_ & p & k & Hp & Hp0 & _). rewrite Hp. simpl. split.
  - now apply Qeq_bool_iff.
  - apply Qlt_bool_false_iff. rewrite Hp0. apply Qle_refl.
Qed.

Lemma long_position_positive (s : Vbt.SimState) :
  long_state s ->
  feqb (Vbt.position s) zero = false /\ flt zero (Vbt.position s) = true.
Proof.
  intros (e & p & k & _ & Hp & Hpos & _). rewrite Hp. simpl. split.
  - now apply Qeq_bool_pos.
  - now apply Qlt_bool_iff.
Qed.

Lemma signal_step_entry (c : string) (fees slippage : float) (i : nat)
      (close : float) (s : Vbt.SimState) :
  signal_step c fees slippage i close 1 s =
  if feqb (Vbt.position s) zero then Vbt.buy fees slippage i close s
  else Ok s.
Proof. reflexivity. Qed.

Lemma signal_step_exit (c : string) (fees slippage : float) (i : nat)
      (close : float) (s : Vbt.SimState) :
  signal_step c fees slippage i close (-1) s =
  if flt zero (Vbt.position s) then Vbt.sell c fees slippage i close s
  else Ok s.
Proof. reflexivity. Qed.

Lemma signal_step_idle (c : string) (fees slippage : float) (i : nat)
      (close : float) (s : Vbt.SimState) :
  signal_step c fees slippage i close 0 s = Ok s.
Proof. reflexivity. Qed.

Lemma init_state_flat : flat_state Vbt.init_state.
Proof.
  split; [reflexivity|].
  exists 0%Q, (inject_Z 100). repeat split; reflexivity.
Qed.

(** C1, where it fails: a 0 while long closes nothing, so the transition
    rule of the claim does not hold of the simulator; and a -1 while flat
    opens no short position. *)
Lemma spec_machine_counterexample :
  ~ follows_spec_machine "BTC/USDT" StrategyBase.default_commission
      StrategyBase.default_slippage (of_Z 100) /\
  (signal_step "BTC/USDT" StrategyBase.default_commission
     StrategyBase.default_slippage 0 (of_Z 100) (-1) Vbt.init_state
   = Ok Vbt.init_state /\
   Vbt.direction_of Vbt.init_state = Vbt.FLAT /\
   spec_transition Vbt.FLAT (-1) = Vbt.SHORT) /\
  (exists s,
      run_signals "BTC/USDT" StrategyBase.default_commission
        StrategyBase.default_slippage 0
        [(of_Z 100, 1); (of_Z 100, 0)] Vbt.init_state = Ok s /\
      Vbt.direction_of s = Vbt.LONG /\
      spec_transition Vbt.LONG 0 = Vbt.FLAT).
Proof.
  split.
  { intros Hclaim.
    destruct (signal_step "BTC/USDT" StrategyBase.default_commission
                StrategyBase.default_slippage 0 (of_Z 100) 1 Vbt.init_state)
      as [s|e] eqn:E; [|vm_compute in E; discriminate].
    assert (Hd : Vbt.direction_of s = Vbt.LONG).
    { vm_compute in E. injection E as <-. vm_compute. reflexivity. }
    pose proof (Hclaim 1%nat 0 s s (or_intror (or_introl eq_refl))
                  (signal_step_idle _ _ _ _ _ _)) as H.
    rewrite Hd in H. discriminate. }
  split; [repeat split; reflexivity|].
  eexists. split; [vm_compute; reflexivity|].
  split; reflexivity.
Qed.

(** Buying when flat, in full: the fill, the fees, the size and what is
    left of the cash. *)
Lemma buy_fills (fees slippage : float) (i : nat) (x : Q)
      (s : Vbt.SimState) :
  fraction fees -> fraction slippage -> (0 < x)%Q -> flat_state s ->
  exists s' e,
    Vbt.buy fees slippage i (Fin x) s = Ok s' /\
    long_state s' /\
    Vbt.entry s' = Some e /\
    Vbt.e_idx e = i /\
    Vbt.e_price e = fmul (Fin x) (fadd Vbt.one slippage) /\
    Vbt.e_fees e
    = fsub (Vbt.cash s) (fdiv (Vbt.cash s) (fadd Vbt.one fees)) /\
    Vbt.e_size e
    = fdiv (fdiv (Vbt.cash s) (fadd Vbt.one fees)) (Vbt.e_price e) /\
    feqb (Vbt.cash s') zero = true /\
    feqb (Vbt.position s') (Vbt.e_size e) = true /\
    Vbt.closed_trades s' = Vbt.closed_trades s /\
    Vbt.orders s' = S (Vbt.orders s) /\
    exists k size price paid,
      Vbt.cash s = Fin k /\ Vbt.e_size e = Fin size /\
      Vbt.e_price e = Fin price /\ Vbt.e_fees e = Fin paid /\
      (0 < size)%Q /\ (0 <= paid)%Q /\ (size * price + paid == k)%Q.
Proof.
  intros (f & -> & Hf0 & Hf1) (sl & -> & Hs0 & Hs1) Hx
         (Hentry & p & k & Hp & Hp0 & Hk & Hkpos).
  assert (H1f : (0 < inject_Z 1 + f)%Q) by now apply Qone_plus_pos.
  assert (H1s : (0 < inject_Z 1 + sl)%Q) by now apply Qone_plus_pos.
  assert (Hadj : (0 < x * (inject_Z 1 + sl))%Q)
    by now apply Qmult_lt_0_compat.
  assert (Hsize : (0 < k / (inject_Z 1 + f) / (x * (inject_Z 1 + sl)))%Q).
  { apply Qdiv_pos; [apply Qdiv_pos|]; assumption. }
  assert (Hmax : fdiv (Fin k) (fadd Vbt.one (Fin f))
                 = Fin (k / (inject_Z 1 + f)))
    by apply (fdiv_fin_pos k _ H1f).
  assert (Hprice : fmul (Fin x) (fadd Vbt.one (Fin sl))
                   = Fin (x * (inject_Z 1 + sl))) by reflexivity.
  unfold Vbt.buy. rewrite (check_price_valid _ Hx), Hk.
  rewrite (proj2 (flt_zero_fin k) Hkpos).
  eexists. eexists. split; [reflexivity|].
  unfold long_state.
  cbn [Vbt.entry Vbt.e_idx Vbt.e_price Vbt.e_fees Vbt.e_size Vbt.cash
       Vbt.position Vbt.closed_trades Vbt.orders].
  rewrite Hp, Hmax, Hprice, (fdiv_fin_pos _ _ Hadj).
  split.
  { eexists. eexists. eexists.
    split; [reflexivity|].
    split; [reflexivity|].
    split; [rewrite Hp0, Qplus_0_l; exact Hsize|].
    split; [reflexivity|].
    ring_simplify. apply Qle_refl. }
  split; [reflexivity|].
  cbn [Vbt.e_idx Vbt.e_price Vbt.e_fees Vbt.e_size].
  rewrite (fdiv_fin_pos _ _ Hadj).
  split; [reflexivity|]. split; [reflexivity|].
  split; [reflexivity|]. split; [reflexivity|].
  split.
  { cbn [fsub fneg fadd feqb zero]. apply Qeq_bool_iff. ring. }
  split.
  { cbn [fadd feqb]. apply Qeq_bool_iff. rewrite Hp0. ring. }
  split; [reflexivity|]. split; [reflexivity|].
  exists k, (k / (inject_Z 1 + f) / (x * (inject_Z 1 + sl)))%Q,
         (x * (inject_Z 1 + sl))%Q, (k + - (k / (inject_Z 1 + f)))%Q.
  split; [reflexivity|]. split; [reflexivity|]. split; [reflexivity|].
  split; [reflexivity|]. split; [exact Hsize|].
  split.
  - assert (Hle : (k / (inject_Z 1 + f) <= k)%Q).
    { apply Qle_shift_div_r; [exact H1f|].
      setoid_replace (k * (inject_Z 1 + f))%Q with (k + k * f)%Q by ring.
      assert (0 <= k * f)%Q by (apply Qmult_le_0_compat; lra). lra. }
    lra.
  - field. split; lra.
Qed.

(** Selling when long, in full: the fill, the fees, the cash and the
    trade recorded. *)
Lemma sell_fills (c : string) (fees slippage : float) (i : nat) (x : Q)
      (s : Vbt.SimState) :
  fraction fees -> fraction slippage -> (0 < x)%Q -> long_state s ->
  let price := fmul (Fin x) (fsub Vbt.one slippage) in
  let proceeds := fmul (Vbt.position s) price in
  let exit_fees := fmul proceeds fees in
  exists s' e,
    Vbt.entry s = Some e /\
    Vbt.sell c fees slippage i (Fin x) s = Ok s' /\
    flat_state s' /\
    Vbt.cash s' = fadd (Vbt.cash s) (fsub proceeds exit_fees) /\
    Vbt.entry s' = None /\
    feqb (Vbt.position s') zero = true /\
    Vbt.closed_trades s' =
      Vbt.closed_trades s
        ++ [Vbt.mkTrade c (Vbt.e_idx e) i (Vbt.e_price e) price
              (Vbt.e_size e)
              (fsub (fsub (fmul (fsub price (Vbt.e_price e))
                                (Vbt.e_size e))
                          (Vbt.e_fees e))
                    exit_fees)
              Vbt.Closed] /\
    Vbt.orders s' = S (Vbt.orders s).
Proof.
  intros Hfees Hslip Hx Hlong price proceeds exit_fees.
  destruct (sell_closes c fees slippage i x s Hfees Hslip Hx Hlong)
    as (s' & e & He & Hsell & Hflat & Htrades).
  exists s', e. split; [exact He|]. split; [exact Hsell|].
  split; [exact Hflat|].
  destruct (flat_position_zero _ Hflat) as [Hz _].
  revert Hsell. unfold Vbt.sell. rewrite (check_price_valid _ Hx).
  intros Hs'. injection Hs' as Hs'. rewrite <- Hs'.
  cbn [Vbt.cash Vbt.entry Vbt.orders].
  split; [reflexivity|]. split; [reflexivity|].
  split; [rewrite Hs'; exact Hz|].
  split; [|reflexivity].
  rewrite Hs'. exact Htrades.
Qed.

(** C1, as the code has it.  The simulator is handed two flags per bar,
    entry where the signal is +1 and exit where it is -1.  At a positive
    close, with fees and slippage below one and a state that is flat with
    cash or long: a signal of 0 leaves the state as it is, an open position
    included, and so does +1 while long.  A +1 while flat opens a long
    position with all the cash: the fill is the close raised by the
    slippage, the fees [cash - cash / (1 + fees)] come out of the cash, the
    size is what the rest buys at the fill, no cash is left, and size times
    fill plus fees is the cash spent.  A -1 while long closes the position:
    the fill is the close lowered by the slippage, the proceeds less the
    fees on them go to the cash, and the trade is recorded with the P&L
    [(exit - entry) * size - entry fees - exit fees]. *)
Theorem execution_state_machine
        (c : string) (fees slippage : float) (i : nat) (x : Q)
        (signal : Z) (s : Vbt.SimState) :
  fraction fees -> fraction slippage -> (0 < x)%Q -> funded s ->
  (signal = 0 -> signal_step c fees slippage i (Fin x) signal s = Ok s) /\
  (Vbt.direction_of s = Vbt.LONG -> signal = 1 ->
   signal_step c fees slippage i (Fin x) signal s = Ok s) /\
  (Vbt.direction_of s = Vbt.FLAT -> signal = 1 ->
   exists s' e,
     signal_step c fees slippage i (Fin x) signal s = Ok s' /\
     Vbt.direction_of s' = Vbt.LONG /\ funded s' /\
     Vbt.entry s' = Some e /\
     Vbt.e_idx e = i /\
     Vbt.e_price e = fmul (Fin x) (fadd Vbt.one slippage) /\
     Vbt.e_fees e
     = fsub (Vbt.cash s) (fdiv (Vbt.cash s) (fadd Vbt.one fees)) /\
     Vbt.e_size e
     = fdiv (fdiv (Vbt.cash s) (fadd Vbt.one fees)) (Vbt.e_price e) /\
     feqb (Vbt.cash s') zero = true /\
     feqb (Vbt.position s') (Vbt.e_size e) = true /\
     Vbt.closed_trades s' = Vbt.closed_trades s /\
     Vbt.orders s' = S (Vbt.orders s) /\
     exists k size price paid,
       Vbt.cash s = Fin k /\ Vbt.e_size e = Fin size /\
       Vbt.e_price e = Fin price /\ Vbt.e_fees e = Fin paid /\
       (0 < size)%Q /\ (0 <= paid)%Q /\ (size * price + paid == k)%Q) /\
  (Vbt.direction_of s = Vbt.LONG -> signal = -1 ->
   let price := fmul (Fin x) (fsub Vbt.one slippage) in
   let proceeds := fmul (Vbt.position s) price in
   let exit_fees := fmul proceeds fees in
   exists s' e,
     Vbt.entry s = Some e /\
     signal_step c fees slippage i (Fin x) signal s = Ok s' /\
     Vbt.direction_of s' = Vbt.FLAT /\ funded s' /\
     Vbt.cash s' = fadd (Vbt.cash s) (fsub proceeds exit_fees) /\
     Vbt.entry s' = None /\
     feqb (Vbt.position s') zero = true /\
     Vbt.closed_trades s' =
       Vbt.closed_trades s
         ++ [Vbt.mkTrade c (Vbt.e_idx e) i (Vbt.e_price e) price
               (Vbt.e_size e)
               (fsub (fsub (fmul (fsub price (Vbt.e_price e))
                                 (Vbt.e_size e))
                           (Vbt.e_fees e))
                     exit_fees)
               Vbt.Closed] /\
     Vbt.orders s' = S (Vbt.orders s)).
Proof.
  intros Hfees Hslip Hx Hfunded.
  split; [intros ->; apply signal_step_idle|].
  split; [|split].
  - intros Hd ->. rewrite signal_step_entry.
    destruct Hfunded as [Hflat | Hlong].
    + rewrite (direction_flat _ Hflat) in Hd. discriminate.
    + now rewrite (proj1 (long_position_positive _ Hlong)).
  - intros Hd ->.
    destruct Hfunded as [Hflat | Hlong];
      [|rewrite (direction_long _ Hlong) in Hd; discriminate].
    destruct (buy_fills fees slippage i x s Hfees Hslip Hx Hflat)
      as (s' & e & Hbuy & Hlong' & Hrest).
    exists s', e.
    split.
    { rewrite signal_step_entry.
      now rewrite (proj1 (flat_position_zero _ Hflat)). }
    split; [now apply direction_long|].
    split; [now right | exact Hrest].
  - intros Hd -> price proceeds exit_fees.
    destruct Hfunded as [Hflat | Hlong];
      [rewrite (direction_flat _ Hflat) in Hd; discriminate|].
    destruct (sell_fills c fees slippage i x s Hfees Hslip Hx Hlong)
      as (s' & e & He & Hsell & Hflat' & Hrest).
    exists s', e. split; [exact He|].
    split.
    { rewrite signal_step_exit.
      now rewrite (proj2 (long_position_positive _ Hlong)). }
    split; [now apply direction_flat|].
    split; [now left | exact Hrest].
Qed.

Lemma fraction_default_commission : fraction StrategyBase.default_commission.
Proof.
  exists (1 # 1000)%Q. split; [reflexivity|].
  split; [discriminate | reflexivity].
Qed.

Lemma fraction_default_slippage : fraction StrategyBase.default_slippage.
Proof.
  exists (5 # 10000)%Q. split; [reflexivity|].
  split; [discriminate | reflexivity].
Qed.

Lemma execution_state_machine_witness :
  exists s e,
    signal_step "BTC/USDT" StrategyBase.default_commission
      StrategyBase.default_slippage 0 (of_Z 100) 1 Vbt.init_state = Ok s /\
    Vbt.direction_of s = Vbt.LONG /\
    Vbt.entry s = Some e /\
    Vbt.e_price e
    = fmul (of_Z 100) (fadd Vbt.one StrategyBase.default_slippage) /\
    Vbt.e_fees e
    = fsub Vbt.init_cash
           (fdiv Vbt.init_cash
                 (fadd Vbt.one StrategyBase.default_commission)).
Proof.
  destruct (proj1 (proj2 (proj2
              (execution_state_machine "BTC/USDT"
                 StrategyBase.default_commission
                 StrategyBase.default_slippage
                 0%nat 100%Q 1 Vbt.init_state
                 fraction_default_commission fraction_default_slippage
                 eq_refl (or_introl init_state_flat))))
              eq_refl eq_refl)
    as (s & e & Hstep & Hdir & _ & He & _ & Hprice & Hfees & _).
  exists s, e. repeat split; assumption.
Defined.

(** Whatever the close and whatever the signal, a bar that does not raise
    leaves a funded state funded. *)
Lemma signal_step_funded (c : string) (fees slippage : float) (i : nat)
      (close : float) (signal : Z) (s s' : Vbt.SimState) :
  fraction fees -> fraction slippage -> funded s ->
  signal_step c fees slippage i close signal s = Ok s' ->
  funded s'.
Proof.
  intros Hfees Hslip Hfunded. unfold signal_step, Vbt.step.
  destruct (signal =? 1), (signal =? -1); simpl andb; cbv iota;
    try (intros H; injection H as <-; exact Hfunded).
  - destruct (feqb (Vbt.position s) zero) eqn:Ez;
      [|intros H; injection H as <-; exact Hfunded].
    destruct Hfunded as [Hflat | Hlong];
      [|destruct (long_position_positive _ Hlong); congruence].
    pose proof (check_price_cases close) as Hc.
    destruct (Vbt.check_price close) eqn:Ec.
    + unfold Vbt.buy. rewrite Ec. intros H. injection H as <-. now left.
    + unfold Vbt.buy. rewrite Ec. discriminate.
    + destruct Hc as (x & -> & Hx).
      destruct (buy_opens fees slippage i x s Hfees Hslip Hx Hflat)
        as (s1 & e & Hbuy & Hlong' & _).
      rewrite Hbuy. intros H. injection H as <-. now right.
  - destruct (flt zero (Vbt.position s)) eqn:Ep;
      [|intros H; injection H as <-; exact Hfunded].
    destruct Hfunded as [Hflat | Hlong];
      [destruct (flat_position_zero _ Hflat); congruence|].
    pose proof (check_price_cases close) as Hc.
    destruct (Vbt.check_price close) eqn:Ec.
    + unfold Vbt.sell. rewrite Ec. intros H. injection H as <-. now right.
    + unfold Vbt.sell. rewrite Ec. discriminate.
    + destruct Hc as (x & -> & Hx).
      destruct (sell_closes c fees slippage i x s Hfees Hslip Hx Hlong)
        as (s1 & e & _ & Hsell & Hflat' & _).
      rewrite Hsell. intros H. injection H as <-. now left.
Qed.

(** So every state the simulator reaches from the initial one is flat
    with cash or long. *)
Lemma run_signals_funded (c : string) (fees slippage : float)
      (rows : list (float * Z)) (i : nat) (s s' : Vbt.SimState) :
  fraction fees -> fraction slippage -> funded s ->
  run_signals c fees slippage i rows s = Ok s' ->
  funded s'.
Proof.
  intros Hfees Hslip. revert i s.
  induction rows as [|[close signal] rows IH]; intros i s Hfunded; simpl.
  - intros H. injection H as <-. exact Hfunded.
  - destruct (signal_step c fees slippage i close signal s) as [s1|e] eqn:E;
      simpl.
    + apply IH.
      exact (signal_step_funded _ _ _ _ _ _ _ _ Hfees Hslip Hfunded E).
    + discriminate.
Qed.

Lemma combine_signals (close : list float) (signals : list Z) :
  combine close
          (combine (map (fun z => z =? 1) signals)
                   (map (fun z => z =? -1) signals))
  = let rows := combine close signals in
    combine (map fst rows)
            (combine (map (fun r => snd r =? 1) rows)
                     (map (fun r => snd r =? -1) rows)).
Proof.
  revert signals. induction close as [|x close IH]; intros [|z signals];
    simpl; try reflexivity.
  f_equal. apply IH.
Qed.


(** * Further properties of the code *)

(** ** When the generators that drop missing closes return a frame *)

Lemma dropna_without_nan (xs : list float) :
  existsb is_nan xs = false -> dropna xs = xs.
Proof.
  unfold dropna, notna. induction xs as [|x xs IH]; simpl; [reflexivity|].
  destruct (is_nan x); simpl; [discriminate|].
  intros H. now rewrite IH.
Qed.

Lemma existsb_close_map (bars : list Bar) :
  existsb is_nan (map bar_close bars)
  = existsb (fun b => is_nan (bar_close b)) bars.
Proof.
  induction bars as [|b bars IH]; simpl; [reflexivity | now rewrite IH].
Qed.

(** On a well-formed panel the crossover generator returns a frame exactly
    when no pair has a missing close. *)
Theorem crossover_returns_iff_complete (self : SMACrossoverStrategy.t) :
  well_formed (StrategyBase.price_data (SMACrossoverStrategy.base self)) ->
  ((exists signals, SMACrossoverStrategy.generate_signals self = Ok signals)
   <->
   forall pair bars,
     lookup pair (assets (StrategyBase.price_data
                            (SMACrossoverStrategy.base self))) = Some bars ->
     existsb (fun b => is_nan (bar_close b)) bars = false).
Proof.
  intros Hwf. split.
  - intros [signals Hrun] pair bars Hl.
    destruct (existsb (fun b => is_nan (bar_close b)) bars) eqn:E;
      [|reflexivity].
    destruct (crossover_raises_on_gap self pair bars Hwf Hl E) as [e He].
    congruence.
  - intros Hall. apply assign_signals_ok. intros pair Hin.
    destruct (pairs_of_lookup _ _ Hin) as [bars Hl].
    exists (SMACrossoverStrategy.crossover self (dropna (map bar_close bars))).
    split.
    + unfold SMACrossoverStrategy.pair_signal, getitem. now rewrite Hl.
    + rewrite length_crossover, dropna_without_nan, length_map.
      * now apply (well_formed_lookup _ pair).
      * rewrite existsb_close_map. now apply (Hall pair).
Qed.

Lemma crossover_returns_iff_complete_witness :
  exists signals,
    SMACrossoverStrategy.generate_signals sample_crossover = Ok signals.
Proof.
  apply (proj2 (crossover_returns_iff_complete sample_crossover
                  ltac:(repeat constructor))).
  intros pair bars Hl.
  unfold sample_crossover, settings, sample_panel, lookup in Hl.
  cbn [StrategyBase.price_data SMACrossoverStrategy.base assets find fst]
    in Hl.
  destruct (String.eqb "BTC/USDT" pair); [|discriminate].
  injection Hl as <-. reflexivity.
Defined.

(** The oscillator and band generator, with indicators that return one
    value per close, returns a frame exactly when no pair has a missing
    close. *)
Theorem band_returns_iff_complete
        (rsi_indicator : nat -> list float -> list float)
        (bollinger_lband bollinger_hband :
           nat -> float -> list float -> list float)
        (self : RSIBollingerStrategy.t) :
  (forall w xs, length (rsi_indicator w xs) = length xs) ->
  (forall w k xs, length (bollinger_lband w k xs) = length xs) ->
  (forall w k xs, length (bollinger_hband w k xs) = length xs) ->
  well_formed (StrategyBase.price_data (RSIBollingerStrategy.base self)) ->
  ((exists signals,
       RSIBollingerStrategy.generate_signals
         rsi_indicator bollinger_lband bollinger_hband self = Ok signals)
   <->
   forall pair bars,
     lookup pair (assets (StrategyBase.price_data
                            (RSIBollingerStrategy.base self))) = Some bars ->
     existsb (fun b => is_nan (bar_close b)) bars = false).
Proof.
  intros Hrsi Hlb Hhb Hwf. split.
  - intros [signals Hrun] pair bars Hl.
    destruct (existsb (fun b => is_nan (bar_close b)) bars) eqn:E;
      [|reflexivity].
    destruct (band_raises_on_gap rsi_indicator bollinger_lband
                bollinger_hband self pair bars Hwf Hl E) as [e He].
    congruence.
  - intros Hall. apply assign_signals_ok. intros pair Hin.
    destruct (pairs_of_lookup _ _ Hin) as [bars Hl].
    eexists. split.
    + unfold RSIBollingerStrategy.pair_signal, getitem. rewrite Hl.
      simpl. reflexivity.
    + unfold RSIBollingerStrategy.band_signal, np_select2.
      repeat (rewrite length_zip_with || rewrite length_map).
      rewrite Hrsi, Hlb, Hhb.
      rewrite dropna_without_nan, length_map
        by (rewrite existsb_close_map; now apply (Hall pair)).
      rewrite (well_formed_lookup _ pair bars Hwf Hl). lia.
Qed.

Lemma band_returns_iff_complete_witness :
  exists signals,
    RSIBollingerStrategy.generate_signals echo_rsi echo_band echo_band
      sample_band = Ok signals.
Proof.
  apply (proj2 (band_returns_iff_complete echo_rsi echo_band echo_band
                  sample_band
                  (fun _ _ => eq_refl) (fun _ _ _ => eq_refl)
                  (fun _ _ _ => eq_refl) ltac:(repeat constructor))).
  intros pair bars Hl.
  unfold sample_band, settings, sample_panel, lookup in Hl.
  cbn [StrategyBase.price_data RSIBollingerStrategy.base assets find fst]
    in Hl.
  destruct (String.eqb "BTC/USDT" pair); [|discriminate].
  injection Hl as <-. reflexivity.
Defined.

(** ** The order of float values *)

Lemma flt_fle_trans (a b c : float) :
  flt a b = true -> fle b c = true -> flt a c = true.
Proof.
  destruct a as [| | |x], b as [| | |y], c as [| | |z]; simpl;
    try congruence.
  rewrite !Qlt_bool_iff, Qle_bool_iff. apply Qlt_le_trans.
Qed.

Lemma flt_irrefl (a : float) : flt a a = false.
Proof. destruct a; simpl; auto. apply Qlt_bool_irrefl. Qed.

Lemma flt_trans (a b c : float) :
  flt a b = true -> flt b c = true -> flt a c = true.
Proof.
  destruct a as [| | |x], b as [| | |y], c as [| | |z]; simpl;
    try congruence.
  rewrite !Qlt_bool_iff. apply Qlt_trans.
Qed.

(** ** The oscillator and band rule *)

Section BandRule.

Variable rsi_indicator : nat -> list float -> list float.
Variable bollinger_lband : nat -> float -> list float -> list float.
Variable bollinger_hband : nat -> float -> list float -> list float.
Hypothesis rsi_length : forall w xs, length (rsi_indicator w xs) = length xs.
Hypothesis lband_length :
  forall w k xs, length (bollinger_lband w k xs) = length xs.
Hypothesis hband_length :
  forall w k xs, length (bollinger_hband w k xs) = length xs.

Lemma nth_band_signal (self : RSIBollingerStrategy.t) (close : list float)
      (i : nat) :
  (i < length close)%nat ->
  nth i (RSIBollingerStrategy.band_signal
           rsi_indicator bollinger_lband bollinger_hband self close) 0 =
  let rsi :=
    nth i (rsi_indicator (RSIBollingerStrategy.rsi_window self) close) NaN in
  let lower :=
    nth i (bollinger_lband (RSIBollingerStrategy.bb_window self)
                           (RSIBollingerStrategy.bb_std self) close) NaN in
  let upper :=
    nth i (bollinger_hband (RSIBollingerStrategy.bb_window self)
                           (RSIBollingerStrategy.bb_std self) close) NaN in
  let price := nth i close NaN in
  if flt rsi (RSIBollingerStrategy.rsi_oversold self) && fle price lower
  then 1
  else if fgt rsi (RSIBollingerStrategy.rsi_overbought self)
          && fge price upper
       then -1 else 0.
Proof.
  intros Hi. unfold RSIBollingerStrategy.band_signal, np_select2.
  rewrite (nth_zip_with _ _ _ _ false false 0);
    [| repeat (rewrite length_zip_with || rewrite length_map);
       rewrite rsi_length, lband_length; lia
     | repeat (rewrite length_zip_with || rewrite length_map);
       rewrite rsi_length, hband_length; lia].
  rewrite !(nth_zip_with andb _ _ _ false false false);
    try (repeat (rewrite length_zip_with || rewrite length_map);
         rewrite ?rsi_length, ?lband_length, ?hband_length; lia).
  rewrite !(nth_map_in _ _ _ NaN false) by (rewrite rsi_length; exact Hi).
  rewrite (nth_zip_with fle _ _ _ NaN NaN false)
    by (rewrite ?lband_length; exact Hi).
  rewrite (nth_zip_with fge _ _ _ NaN NaN false)
    by (rewrite ?hband_length; exact Hi).
  reflexivity.
Qed.

Lemma band_column (self : RSIBollingerStrategy.t) (signals : SignalFrame)
      (pair : string) (bars : list Bar) :
  RSIBollingerStrategy.generate_signals
    rsi_indicator bollinger_lband bollinger_hband self = Ok signals ->
  lookup pair (assets (StrategyBase.price_data
                         (RSIBollingerStrategy.base self))) = Some bars ->
  StrategyBase.signal_column signals pair =
    RSIBollingerStrategy.band_signal
      rsi_indicator bollinger_lband bollinger_hband self
      (dropna (map bar_close bars)).
Proof.
  intros Hrun Hl.
  destruct (assign_signals_lookup _ _ _ pair Hrun
              (lookup_pairs_of _ _ _ Hl)) as (values & Hp & Hlen & Hcol).
  unfold RSIBollingerStrategy.pair_signal, getitem in Hp.
  rewrite Hl in Hp. simpl in Hp. injection Hp as <-.
  unfold StrategyBase.signal_column. now rewrite Hcol.
Qed.

(** In the frame the oscillator and band strategy returns, with the
    oversold level not above the overbought level: the signal is +1
    exactly where the RSI is below the oversold level and the close is at
    or below the lower band, -1 exactly where the RSI is above the
    overbought level and the close is at or above the upper band, and 0
    everywhere else; both conditions never hold together. *)
Theorem band_signal_rule (self : RSIBollingerStrategy.t)
        (signals : SignalFrame) (pair : string) (bars : list Bar)
        (i : nat) :
  RSIBollingerStrategy.generate_signals
    rsi_indicator bollinger_lband bollinger_hband self = Ok signals ->
  lookup pair (assets (StrategyBase.price_data
                         (RSIBollingerStrategy.base self))) = Some bars ->
  (i < length (dropna (map bar_close bars)))%nat ->
  fle (RSIBollingerStrategy.rsi_oversold self)
      (RSIBollingerStrategy.rsi_overbought self) = true ->
  let close := dropna (map bar_close bars) in
  let rsi :=
    nth i (rsi_indicator (RSIBollingerStrategy.rsi_window self) close) NaN in
  let lower :=
    nth i (bollinger_lband (RSIBollingerStrategy.bb_window self)
                           (RSIBollingerStrategy.bb_std self) close) NaN in
  let upper :=
    nth i (bollinger_hband (RSIBollingerStrategy.bb_window self)
                           (RSIBollingerStrategy.bb_std self) close) NaN in
  let long_cond :=
    flt rsi (RSIBollingerStrategy.rsi_oversold self)
    && fle (nth i close NaN) lower in
  let short_cond :=
    fgt rsi (RSIBollingerStrategy.rsi_overbought self)
    && fge (nth i close NaN) upper in
  let signal := nth i (StrategyBase.signal_column signals pair) 0 in
  (signal = 1 <-> long_cond = true) /\
  (signal = -1 <-> short_cond = true) /\
  (signal = 0 <-> long_cond = false /\ short_cond = false) /\
  long_cond && short_cond = false.
Proof.
  intros Hrun Hl Hi Hlevels close rsi lower upper long_cond short_cond signal.
  assert (Hsig : signal =
                 if long_cond then 1 else if short_cond then -1 else 0).
  { unfold signal. rewrite (band_column _ _ _ _ Hrun Hl).
    now rewrite nth_band_signal. }
  assert (Hex : long_cond && short_cond = false).
  { unfold long_cond, short_cond, fgt.
    destruct (flt rsi (RSIBollingerStrategy.rsi_oversold self)) eqn:E1;
      [|reflexivity].
    destruct (flt (RSIBollingerStrategy.rsi_overbought self) rsi) eqn:E2;
      [|now rewrite andb_false_r].
    pose proof (flt_fle_trans _ _ _ E1 Hlevels) as H.
    pose proof (flt_asym _ _ H) as H'. congruence. }
  rewrite Hsig.
  destruct long_cond, short_cond; try discriminate;
    repeat split; intros; try discriminate; try reflexivity; auto;
    destruct H; discriminate.
Qed.

End BandRule.

Lemma band_signal_rule_witness :
  exists signals,
    RSIBollingerStrategy.generate_signals echo_rsi echo_band echo_band
      sample_band = Ok signals /\
    nth 0 (StrategyBase.signal_column signals "BTC/USDT") 0 = 1.
Proof.
  eexists. split; [vm_compute; reflexivity|].
  apply (proj2 (proj1 (band_signal_rule echo_rsi echo_band echo_band
           (fun _ _ => eq_refl) (fun _ _ _ => eq_refl) (fun _ _ _ => eq_refl)
           sample_band _ "BTC/USDT"%string _ 0%nat
           eq_refl eq_refl ltac:(vm_compute; lia) eq_refl))).
  vm_compute. reflexivity.
Defined.

(** ** The VWAP rule *)

Lemma deviation_bands_exclusive (d t : float) :
  fle zero t = true ->
  flt d (fneg t) = true -> fgt d t = true -> False.
Proof.
  unfold fgt.
  destruct d as [| | |x], t as [| | |y]; simpl; try congruence.
  rewrite Qle_bool_iff, !Qlt_bool_iff. intros H0 H1 H2. lra.
Qed.

(** In the frame the VWAP strategy returns on a well-formed panel, with a
    threshold that is not negative: the signal is +1 exactly where the
    deviation (close - vwap) / vwap is below minus the threshold, -1
    exactly where it is above the threshold, and 0 everywhere else. *)
Theorem vwap_signal_rule (self : VWAPReversionStrategy.t)
        (signals : SignalFrame) (pair : string) (bars : list Bar)
        (i : nat) :
  well_formed (StrategyBase.price_data (VWAPReversionStrategy.base self)) ->
  VWAPReversionStrategy.generate_signals self = Ok signals ->
  lookup pair (assets (StrategyBase.price_data
                         (VWAPReversionStrategy.base self))) = Some bars ->
  (i < length bars)%nat ->
  fle zero (VWAPReversionStrategy.deviation_threshold self) = true ->
  let close := bar_close (nth i bars (flat_bar NaN)) in
  let vwap := nth i (vwap_of self bars) NaN in
  let deviation := fdiv (fsub close vwap) vwap in
  let threshold := VWAPReversionStrategy.deviation_threshold self in
  let signal := nth i (StrategyBase.signal_column signals pair) 0 in
  (signal = 1 <-> flt deviation (fneg threshold) = true) /\
  (signal = -1 <-> fgt deviation threshold = true) /\
  (signal = 0 <->
   flt deviation (fneg threshold) = false /\
   fgt deviation threshold = false).
Proof.
  intros Hwf Hrun Hl Hi Hthr close vwap deviation threshold signal.
  destruct (vwap_generate_signals_ok self Hwf) as (signals' & Hrun' & Hcols).
  rewrite Hrun in Hrun'. injection Hrun' as <-.
  assert (Hsig : signal =
                 if flt deviation (fneg threshold) then 1
                 else if fgt deviation threshold then -1 else 0).
  { unfold signal. rewrite (Hcols _ _ Hl), nth_vwap_signal by exact Hi.
    rewrite (nth_map_in bar_close _ _ (flat_bar NaN) NaN) by exact Hi.
    reflexivity. }
  pose proof (deviation_bands_exclusive deviation threshold Hthr) as Hex.
  rewrite Hsig.
  destruct (flt deviation (fneg threshold)), (fgt deviation threshold);
    try (exfalso; now apply Hex);
    repeat split; intros; try discriminate; try reflexivity; auto;
    destruct H; discriminate.
Qed.

Lemma vwap_signal_rule_witness :
  exists signals,
    VWAPReversionStrategy.generate_signals sample_reversion = Ok signals /\
    nth 1 (StrategyBase.signal_column signals "BTC/USDT") 0 = -1.
Proof.
  eexists. split; [vm_compute; reflexivity|].
  apply (proj2 (proj1 (proj2
    (vwap_signal_rule sample_reversion _ "BTC/USDT"%string _ 1%nat
       ltac:(repeat constructor) eq_refl eq_refl
       ltac:(simpl; lia) eq_refl)))).
  vm_compute. reflexivity.
Defined.

(** ** Averages that agree *)

(** With equal windows the two moving averages are the same series, and
    the crossover signal is 0 at every position, whatever the closes. *)
Theorem crossover_equal_windows (self : SMACrossoverStrategy.t)
        (close : list float) :
  SMACrossoverStrategy.fast_window self
    = SMACrossoverStrategy.slow_window self ->
  Forall (fun z => z = 0) (SMACrossoverStrategy.crossover self close).
Proof.
  intros Hw. apply Forall_forall. intros z Hz.
  apply (In_nth _ _ 0) in Hz. destruct Hz as (i & Hi & <-).
  rewrite length_crossover in Hi.
  rewrite nth_crossover by exact Hi. simpl. rewrite Hw.
  unfold fgt. now rewrite flt_irrefl.
Qed.

Lemma crossover_equal_windows_witness :
  Forall (fun z => z = 0)
    (SMACrossoverStrategy.crossover
       (SMACrossoverStrategy.mk (settings sample_panel) 2 2)
       [of_Z 1; of_Z 3; of_Z 2; of_Z 2]).
Proof.
  exact (crossover_equal_windows
           (SMACrossoverStrategy.mk (settings sample_panel) 2 2)
           [of_Z 1; of_Z 3; of_Z 2; of_Z 2] eq_refl).
Defined.

(** ** Windows over constant and finite series *)

Lemma in_firstn_in {A : Type} (n : nat) (l : list A) (x : A) :
  In x (firstn n l) -> In x l.
Proof.
  revert l. induction n as [|n IH]; intros [|y l]; simpl; try tauto.
  intros [H | H]; [now left | right; now apply IH].
Qed.

Lemma in_skipn_in {A : Type} (n : nat) (l : list A) (x : A) :
  In x (skipn n l) -> In x l.
Proof.
  revert l. induction n as [|n IH]; intros [|y l]; simpl; try tauto.
  intros H. right. now apply IH.
Qed.

Lemma Forall_window_at (P : float -> Prop) (w : nat) (xs : list float)
      (i : nat) :
  Forall P xs -> Forall P (window_at w xs i).
Proof.
  intros H. rewrite Forall_forall in *. intros x Hx.
  apply H. unfold window_at in Hx.
  eapply in_firstn_in, in_skipn_in, Hx.
Qed.

Lemma fsum_constant_from (c : Q) (win : list float) (a : Q) :
  Forall (fun x => x = Fin c) win ->
  exists s, fold_left fadd win (Fin a) = Fin s /\
            (s == a + inject_Z (Z.of_nat (length win)) * c)%Q.
Proof.
  revert a. induction win as [|x win IH]; intros a Hall.
  - exists a. split; [reflexivity|]. simpl. ring.
  - inversion Hall as [|? ? Hx Hwin]; subst.
    destruct (IH (a + c)%Q Hwin) as (s & Hs & Heq).
    exists s. split; [exact Hs|].
    rewrite Heq. cbn [length]. rewrite Nat2Z.inj_succ.
    unfold Z.succ. rewrite inject_Z_plus. ring.
Qed.

(** Over closes that are all one finite number, a rolling mean is that
    number wherever it is defined. *)
Lemma rolling_mean_constant (c : Q) (w : nat) (close : list float)
      (i : nat) :
  Forall (fun x => x = Fin c) close ->
  (i < length close)%nat ->
  nth i (rolling_mean w close) NaN = NaN \/
  exists m, nth i (rolling_mean w close) NaN = Fin m /\ (m == c)%Q.
Proof.
  intros Hall Hi. rewrite nth_rolling_mean by exact Hi. cbv zeta.
  destruct (window_full w (window_at w close i)) eqn:Efull; [|now left].
  destruct (fsum_constant_from c (window_at w close i) 0
              (Forall_window_at _ w close i Hall)) as (s & Hs & Heq).
  unfold fsum, zero. rewrite Hs.
  destruct (length (window_at w close i)) as [|n] eqn:En.
  - left. simpl in Heq. simpl.
    replace (Qeq_bool s 0) with true; [reflexivity|].
    symmetry. apply Qeq_bool_iff. rewrite Heq. ring.
  - right. unfold of_nat, of_Z, fdiv.
    rewrite (inject_nat_nonzero (S n)) by lia.
    eexists. split; [reflexivity|].
    rewrite Heq. field.
    intros H0. apply Qeq_bool_iff in H0.
    rewrite (inject_nat_nonzero (S n)) in H0 by lia. discriminate.
Qed.

Lemma flt_equal_means (a b : float) (c : Q) :
  (a = NaN \/ exists m, a = Fin m /\ (m == c)%Q) ->
  (b = NaN \/ exists m, b = Fin m /\ (m == c)%Q) ->
  flt a b = false.
Proof.
  intros [-> | (m & -> & Hm)] [-> | (n & -> & Hn)]; try reflexivity.
  simpl. apply Qlt_bool_false_iff. rewrite Hm, Hn. apply Qle_refl.
Qed.

(** Over closes that are all one finite number the crossover signal is 0
    at every position, whatever the two windows. *)
Theorem crossover_constant_closes (self : SMACrossoverStrategy.t) (c : Q)
        (close : list float) :
  Forall (fun x => x = Fin c) close ->
  Forall (fun z => z = 0) (SMACrossoverStrategy.crossover self close).
Proof.
  intros Hall. apply Forall_forall. intros z Hz.
  apply (In_nth _ _ 0) in Hz. destruct Hz as (i & Hi & <-).
  rewrite length_crossover in Hi.
  rewrite nth_crossover by exact Hi. cbv zeta. unfold fgt, Ta.sma_indicator.
  pose proof (rolling_mean_constant c (SMACrossoverStrategy.fast_window self)
                close i Hall Hi) as Hf.
  pose proof (rolling_mean_constant c (SMACrossoverStrategy.slow_window self)
                close i Hall Hi) as Hs.
  now rewrite (flt_equal_means _ _ c Hs Hf), (flt_equal_means _ _ c Hf Hs).
Qed.

Lemma crossover_constant_closes_witness :
  Forall (fun z => z = 0)
    (SMACrossoverStrategy.crossover sample_crossover
       [of_Z 7; of_Z 7; of_Z 7]).
Proof.
  apply (crossover_constant_closes sample_crossover (inject_Z 7)).
  repeat constructor.
Defined.

(** ** The keys of a metrics record *)

(** Whatever the portfolio, the record of [calculate_metrics] holds the
    seven keys from total_return to profit_factor.  The four duration keys
    are all present or all missing, and they are missing exactly when the
    computation went through without an exception over an empty ledger:
    the fallback record has them, the record of a run without trades has
    not. *)
Theorem calculate_metrics_keys (portfolio : Vbt.Portfolio) :
  let metrics := StrategyBase.calculate_metrics portfolio in
  Forall (fun k => has_key k metrics = true) core_keys /\
  (Forall (fun k => has_key k metrics = true) duration_keys \/
   Forall (fun k => has_key k metrics = false) duration_keys) /\
  (Forall (fun k => has_key k metrics = false) duration_keys <->
   (exists body, StrategyBase.metrics_body portfolio = Ok body) /\
   Vbt.trades_records portfolio = []).
Proof.
  intros metrics. unfold metrics, StrategyBase.calculate_metrics.
  destruct (StrategyBase.metrics_body portfolio) as [body|e] eqn:Ebody.
  - destruct (metrics_body_ok _ _ Ebody)
      as (x1 & x2 & x3 & stats & Hstats & ->).
    destruct (Vbt.trades_records portfolio) as [|t ts] eqn:Et.
    + rewrite (trade_duration_stats_empty _ Et) in Hstats.
      injection Hstats as <-.
      split; [repeat constructor|].
      split; [right; repeat constructor|].
      split; [intros _; split; [eexists|]; reflexivity|].
      intros _. repeat constructor.
    + destruct (trade_duration_stats_some portfolio) as (f & r & _ & Hsome);
        [congruence|].
      rewrite Hsome in Hstats. injection Hstats as <-.
      split; [repeat constructor|].
      split; [left; repeat constructor|].
      split; [|intros [_ H]; discriminate].
      intros H. inversion H as [|? ? Hk _]. discriminate.
  - split; [repeat constructor|].
    split; [left; repeat constructor|].
    split; [|intros [[body H] _]; discriminate].
    intros H. inversion H as [|? ? Hk _]. discriminate.
Qed.

(** ** What [get_metrics] adds *)

Lemma dict_update_cons (d : dict) (k : string) (v : pyval) (other : dict) :
  dict_update d ((k, v) :: other) = dict_update (dict_set k v d) other.
Proof. reflexivity. Qed.

(** Updating leaves every key the update does not name as it was. *)
Lemma lookup_dict_update_other (d other : dict) (k : string) :
  ~ In k (map fst other) ->
  lookup k (dict_update d other) = lookup k d.
Proof.
  revert d. induction other as [|[k0 v0] other IH]; intros d Hk;
    [reflexivity|].
  rewrite dict_update_cons, IH by (intros H; apply Hk; now right).
  apply lookup_dict_set_other. intros ->. apply Hk. now left.
Qed.

(** Updating with distinct keys stores each of its values. *)
Lemma lookup_dict_update_in (d other : dict) (k : string) (v : pyval) :
  NoDup (map fst other) -> In (k, v) other ->
  lookup k (dict_update d other) = Some v.
Proof.
  revert d. induction other as [|[k0 v0] other IH]; intros d Hnd Hin;
    [destruct Hin|].
  inversion Hnd as [|? ? Hnotin Hnd']; subst.
  rewrite dict_update_cons. destruct Hin as [H | H].
  - injection H as -> ->.
    rewrite lookup_dict_update_other by exact Hnotin.
    apply lookup_dict_set_same.
  - now apply IH.
Qed.

Lemma identity_keys_distinct (v : Variant) : NoDup (map fst (identity_of v)).
Proof.
  destruct v; simpl; repeat constructor; simpl; intuition discriminate.
Qed.

(** For each of the three strategies, a record [get_metrics] returns was
    computed from a portfolio its own [run_backtest] returned: it holds the
    name and every parameter of the strategy, and under every other key
    exactly what [calculate_metrics] put there. *)
Theorem get_metrics_identity
        (rsi_indicator : nat -> list float -> list float)
        (bollinger_lband bollinger_hband :
           nat -> float -> list float -> list float)
        (derive_statistics : list Vbt.Column -> Vbt.Statistics)
        (v : Variant) (metrics : dict) :
  let strategy :=
    strategy_of rsi_indicator bollinger_lband bollinger_hband
                derive_statistics v in
  Strategy.get_metrics strategy = Ok metrics ->
  exists portfolio,
    Strategy.run_backtest strategy = Ok portfolio /\
    (forall k value,
        In (k, value) (identity_of v) -> lookup k metrics = Some value) /\
    (forall k,
        ~ In k (map fst (identity_of v)) ->
        lookup k metrics
        = lookup k (StrategyBase.calculate_metrics portfolio)).
Proof.
  intros strategy Hget.
  pose proof (get_metrics_of rsi_indicator bollinger_lband bollinger_hband
                derive_statistics v) as Hof.
  fold strategy in Hof. cbv zeta in Hof. rewrite Hof in Hget.
  destruct (Strategy.run_backtest strategy) as [portfolio|e];
    [|discriminate].
  simpl in Hget. injection Hget as <-.
  exists portfolio. split; [reflexivity|]. split.
  - intros k value Hin.
    apply lookup_dict_update_in; [apply identity_keys_distinct | exact Hin].
  - intros k Hk. now apply lookup_dict_update_other.
Qed.

Lemma get_metrics_identity_witness :
  exists metrics,
    Strategy.get_metrics
      (strategy_of echo_rsi echo_band echo_band (fun _ => sample_statistics)
                   (Crossover sample_crossover)) = Ok metrics /\
    lookup "strategy" metrics = Some (VStr "SMA Crossover") /\
    lookup "slow_window" metrics = Some (VInt 2).
Proof.
  eexists. split; [vm_compute; reflexivity|].
  destruct (get_metrics_identity echo_rsi echo_band echo_band
              (fun _ => sample_statistics) (Crossover sample_crossover) _
              eq_refl) as (portfolio & _ & Hid & _).
  split; apply Hid; simpl; auto.
Defined.

(** ** A batch of strategies *)

Lemma all_metrics_app (xs ys : list Strategy.t) :
  Backtester.all_metrics (xs ++ ys)
  = Backtester.all_metrics xs ++ Backtester.all_metrics ys.
Proof. unfold Backtester.all_metrics. apply flat_map_app. Qed.

Lemma run_backtest_none_iff (strategy : Strategy.t) :
  Backtester.run_backtest strategy = None <->
  raises (Strategy.run_backtest strategy) \/
  raises (Strategy.get_metrics strategy).
Proof.
  unfold Backtester.run_backtest, Backtester.run_body.
  destruct (Strategy.run_backtest strategy) as [p|e]; simpl.
  - destruct (Strategy.get_metrics strategy) as [m|e]; simpl.
    + split; [discriminate|].
      intros [[e H] | [e H]]; discriminate.
    + split; [intros _; right; now exists e | reflexivity].
  - split; [intros _; left; now exists e | reflexivity].
Qed.

(** In the loop of [main], a strategy either of whose methods raises
    leaves no record and changes nothing else: the records collected are
    those of the strategies before it followed by those of the strategies
    after it; and there are never more records than strategies. *)
Theorem failing_strategy_is_skipped (before after : list Strategy.t)
        (strategy : Strategy.t) :
  raises (Strategy.run_backtest strategy) \/
  raises (Strategy.get_metrics strategy) ->
  Backtester.all_metrics (before ++ strategy :: after)
  = Backtester.all_metrics before ++ Backtester.all_metrics after /\
  (length (Backtester.all_metrics (before ++ strategy :: after))
   <= length before + length after)%nat.
Proof.
  intros Hraise. apply run_backtest_none_iff in Hraise.
  assert (Hlen : forall l, (length (Backtester.all_metrics l)
                            <= length l)%nat).
  { induction l as [|s l IH]; simpl; [lia|].
    rewrite length_app. destruct (Backtester.run_backtest s); simpl; lia. }
  assert (Heq : Backtester.all_metrics (before ++ strategy :: after)
                = Backtester.all_metrics before
                    ++ Backtester.all_metrics after).
  { rewrite all_metrics_app. f_equal.
    change (strategy :: after) with ([strategy] ++ after).
    rewrite all_metrics_app. unfold Backtester.all_metrics at 1.
    simpl. now rewrite Hraise. }
  split; [exact Heq|].
  rewrite Heq, length_app.
  pose proof (Hlen before). pose proof (Hlen after). lia.
Qed.

Lemma failing_strategy_is_skipped_witness :
  Backtester.all_metrics [failing_run; broken_run; failing_run]
  = Backtester.all_metrics [failing_run]
      ++ Backtester.all_metrics [failing_run].
Proof.
  apply (failing_strategy_is_skipped [failing_run] [failing_run]
           broken_run).
  left. exists length_mismatch. vm_compute. reflexivity.
Defined.

(** ** Missing closes, end to end *)

(** For the crossover and the oscillator and band strategies on a
    well-formed panel, one missing close in one pair loses the whole run:
    [run_backtest] and [get_metrics] raise, the backtester returns nothing,
    and the strategy leaves no record in the batch. *)
Theorem missing_close_loses_run
        (rsi_indicator : nat -> list float -> list float)
        (bollinger_lband bollinger_hband :
           nat -> float -> list float -> list float)
        (derive_statistics : list Vbt.Column -> Vbt.Statistics)
        (v : Variant) (pair : string) (bars : list Bar) :
  drops_missing v = true ->
  well_formed (variant_data v) ->
  lookup pair (assets (variant_data v)) = Some bars ->
  existsb (fun b => is_nan (bar_close b)) bars = true ->
  let strategy :=
    strategy_of rsi_indicator bollinger_lband bollinger_hband
                derive_statistics v in
  raises (Strategy.run_backtest strategy) /\
  raises (Strategy.get_metrics strategy) /\
  Backtester.run_backtest strategy = None /\
  Backtester.all_metrics [strategy] = [].
Proof.
  intros Hdrops Hwf Hl Hnan strategy.
  assert (Hrun : raises (Strategy.run_backtest strategy)).
  { destruct v as [self | self | self]; try discriminate; simpl in *.
    - destruct (crossover_raises_on_gap self pair bars Hwf Hl Hnan)
        as [e He].
      exists e. unfold SMACrossoverStrategy.run_backtest. now rewrite He.
    - destruct (band_raises_on_gap rsi_indicator bollinger_lband
                  bollinger_hband self pair bars Hwf Hl Hnan) as [e He].
      exists e. unfold RSIBollingerStrategy.run_backtest. now rewrite He. }
  assert (Hget : raises (Strategy.get_metrics strategy)).
  { destruct Hrun as [e He]. exists e.
    pose proof (get_metrics_of rsi_indicator bollinger_lband bollinger_hband
                  derive_statistics v) as Hof.
    fold strategy in Hof. cbv zeta in Hof. now rewrite Hof, He. }
  assert (Hnone : Backtester.run_backtest strategy = None).
  { apply run_backtest_none_iff. now left. }
  repeat split; auto.
  unfold Backtester.all_metrics. simpl. now rewrite Hnone.
Qed.

Lemma missing_close_loses_run_witness :
  Backtester.run_backtest
    (strategy_of echo_rsi echo_band echo_band (fun _ => sample_statistics)
       (OscillatorBand (RSIBollingerStrategy.mk (settings gap_panel) 14 20
                          (of_Z 2) (of_Z 30) (of_Z 70)))) = None.
Proof.
  apply (missing_close_loses_run echo_rsi echo_band echo_band
           (fun _ => sample_statistics)
           (OscillatorBand (RSIBollingerStrategy.mk (settings gap_panel)
                              14 20 (of_Z 2) (of_Z 30) (of_Z 70)))
           "BTC/USDT"%string
           [flat_bar (of_Z 1); flat_bar NaN; flat_bar (of_Z 2)]
           eq_refl ltac:(repeat constructor) eq_refl eq_refl).
Defined.

(** ** The VWAP strategy over missing prices, end to end *)

Lemma check_price_tradable (close : float) :
  tradable close -> Vbt.check_price close <> Vbt.Refused.
Proof.
  intros [Hnan | (x & -> & Hx)].
  - destruct close; discriminate.
  - now rewrite (check_price_valid _ Hx).
Qed.

Lemma step_tradable (c : string) (fees slippage : float) (i : nat)
      (close : float) (is_entry is_exit : bool) (s : Vbt.SimState) :
  tradable close ->
  exists s', Vbt.step c fees slippage i close is_entry is_exit s = Ok s'.
Proof.
  intros Ht. pose proof (check_price_tradable _ Ht) as Hc.
  unfold Vbt.step.
  destruct (is_entry && negb is_exit).
  - destruct (feqb (Vbt.position s) zero); [|now exists s].
    unfold Vbt.buy. destruct (Vbt.check_price close); try congruence.
    + now exists s.
    + destruct (flt zero (Vbt.cash s)); eexists; reflexivity.
  - destruct (is_exit && negb is_entry); [|now exists s].
    destruct (flt zero (Vbt.position s)); [|now exists s].
    unfold Vbt.sell. destruct (Vbt.check_price close); try congruence.
    + now exists s.
    + eexists. reflexivity.
Qed.

Lemma simulate_from_tradable (c : string) (fees slippage : float)
      (close : list float) (flags : list (bool * bool)) (i : nat)
      (s : Vbt.SimState) :
  Forall tradable close ->
  exists s',
    Vbt.simulate_from c fees slippage i (combine close flags) s = Ok s'.
Proof.
  intros Hall. revert flags i s.
  induction Hall as [|x close Hx Hclose IH]; intros [|[e x'] flags] i s;
    simpl; try (now exists s).
  destruct (step_tradable c fees slippage i x e x' s Hx) as [s1 ->].
  simpl. apply IH.
Qed.

Lemma simulate_columns_tradable (fees slippage : float)
      (cols : list (string * (list float * (list bool * list bool)))) :
  Forall (fun col => Forall tradable (fst (snd col))) cols ->
  exists sims, Vbt.simulate_columns fees slippage cols = Ok sims.
Proof.
  induction cols as [|[c [close [entries exits]]] cols IH]; intros Hall;
    simpl; [now exists []|].
  inversion Hall as [|? ? Hc Hcols]; subst. simpl in Hc.
  unfold Vbt.simulate.
  destruct (simulate_from_tradable c fees slippage close
              (combine entries exits) 0 Vbt.init_state Hc) as [s ->].
  destruct (IH Hcols) as [sims ->]. simpl. eexists. reflexivity.
Qed.

Lemma backtest_signals_tradable
      (derive_statistics : list Vbt.Column -> Vbt.Statistics)
      (self : StrategyBase.t) (signals : SignalFrame) :
  Forall (fun a => Forall (fun b => tradable (bar_close b)) (snd a))
         (assets (StrategyBase.price_data self)) ->
  exists portfolio,
    StrategyBase.backtest_signals derive_statistics self signals
    = Ok portfolio.
Proof.
  intros Hall. unfold StrategyBase.backtest_signals, Vbt.from_signals.
  destruct (simulate_columns_tradable (StrategyBase.commission self)
              (StrategyBase.slippage self)
              (StrategyBase.signal_columns self signals)) as [sims ->].
  - unfold StrategyBase.signal_columns. apply Forall_map.
    eapply Forall_impl; [|exact Hall].
    intros [pair bars] Hbars. simpl in *. now apply Forall_map.
  - simpl. eexists. reflexivity.
Qed.

(** The VWAP strategy runs through whatever is missing: on a well-formed
    panel each of whose closes is nan or a positive finite price, with fees
    and slippage below one, the backtester returns a portfolio and a
    record carrying the name of the strategy, and the batch keeps that
    record. *)
Theorem vwap_run_tolerates_gaps
        (derive_statistics : list Vbt.Column -> Vbt.Statistics)
        (self : VWAPReversionStrategy.t) :
  let data := StrategyBase.price_data (VWAPReversionStrategy.base self) in
  let strategy := VWAPReversionStrategy.strategy derive_statistics self in
  well_formed data ->
  Forall (fun a => Forall (fun b => tradable (bar_close b)) (snd a))
         (assets data) ->
  fraction (StrategyBase.commission (VWAPReversionStrategy.base self)) ->
  fraction (StrategyBase.slippage (VWAPReversionStrategy.base self)) ->
  exists outcome,
    Backtester.run_backtest strategy = Some outcome /\
    Strategy.run_backtest strategy = Ok (Backtester.portfolio outcome) /\
    lookup "strategy" (Backtester.metrics outcome)
      = Some (VStr "VWAP Reversion") /\
    Backtester.all_metrics [strategy] = [Backtester.metrics outcome].
Proof.
  intros data strategy Hwf Hall _ _.
  destruct (vwap_generate_signals_ok self Hwf) as (signals & Hgen & _).
  destruct (backtest_signals_tradable derive_statistics
              (VWAPReversionStrategy.base self) signals Hall)
    as [portfolio Hback].
  assert (Hrun : Strategy.run_backtest strategy = Ok portfolio).
  { unfold strategy. simpl.
    unfold VWAPReversionStrategy.run_backtest. rewrite Hgen. exact Hback. }
  assert (Hget : Strategy.get_metrics strategy =
                 Ok (dict_update (StrategyBase.calculate_metrics portfolio)
                                 (identity_of (MeanReversion self)))).
  { unfold strategy. simpl.
    unfold VWAPReversionStrategy.get_metrics.
    unfold strategy in Hrun. simpl in Hrun. now rewrite Hrun. }
  assert (Hsome : Backtester.run_backtest strategy =
                  Some {| Backtester.metrics :=
                            dict_update
                              (StrategyBase.calculate_metrics portfolio)
                              (identity_of (MeanReversion self));
                          Backtester.portfolio := portfolio |}).
  { unfold Backtester.run_backtest, Backtester.run_body.
    now rewrite Hrun, Hget. }
  eexists. split; [exact Hsome|]. cbn [Backtester.portfolio Backtester.metrics].
  split; [exact Hrun|]. split.
  - apply lookup_dict_update_in;
      [apply identity_keys_distinct | simpl; auto].
  - unfold Backtester.all_metrics. simpl. now rewrite Hsome.
Qed.

Lemma vwap_run_tolerates_gaps_witness :
  exists outcome,
    Backtester.run_backtest
      (VWAPReversionStrategy.strategy
         (fun _ => sample_statistics)
         (VWAPReversionStrategy.mk (settings gap_panel) 2 (Fin (1 # 100))))
    = Some outcome.
Proof.
  destruct (vwap_run_tolerates_gaps
              (fun _ => sample_statistics)
              (VWAPReversionStrategy.mk (settings gap_panel) 2
                                        (Fin (1 # 100))))
    as (outcome & Hsome & _).
  - repeat constructor.
  - apply Forall_cons; [|constructor]. simpl.
    apply Forall_cons;
      [right; exists (inject_Z 1); split; reflexivity|].
    apply Forall_cons; [left; reflexivity|].
    apply Forall_cons;
      [right; exists (inject_Z 2); split; reflexivity | constructor].
  - exact fraction_default_commission.
  - exact fraction_default_slippage.
  - now exists outcome.
Defined.

(** ** Verifying a price panel *)

Lemma fle_zero_false (c : float) :
  fle c zero = false <-> is_nan c = true \/ flt zero c = true.
Proof.
  destruct c as [| | |q]; simpl; try (split; [auto | reflexivity]);
    try (split; [discriminate | intros [H | H]; discriminate]).
  unfold Qlt_bool. rewrite negb_true_iff. split; [now right|].
  now intros [H | H].
Qed.

Lemma unique_In (xs seen : list string) (x : string) :
  In x (BinanceDataLoader.unique seen xs) <-> In x xs /\ ~ In x seen.
Proof.
  revert seen. induction xs as [|y xs IH]; intros seen; simpl.
  - split; [intros [] | intros [[] _]].
  - destruct (existsb (String.eqb y) seen) eqn:E.
    + apply existsb_exists in E. destruct E as (z & Hz & Hyz).
      apply String.eqb_eq in Hyz. subst z.
      rewrite IH. split.
      * intros [Hin Hs]. split; [now right | exact Hs].
      * intros [[<- | Hin] Hs]; [contradiction | now split].
    + assert (Hy : ~ In y seen).
      { intros Hin.
        assert (Hex : existsb (String.eqb y) seen = true).
        { apply existsb_exists. exists y.
          split; [exact Hin | apply String.eqb_refl]. }
        congruence. }
      simpl. rewrite IH. simpl. split.
      * intros [<- | [Hin Hs]]; [split; [now left | exact Hy]|].
        split; [now right | intros H; apply Hs; now right].
      * intros [[<- | Hin] Hs]; [now left|].
        destruct (string_dec y x) as [<- | Hne]; [now left | right].
        split; [exact Hin | intros [H | H]; contradiction].
Qed.

(** The pairs of the loop are the pairs that label some column. *)
Lemma level_pairs_In (data : BinanceDataLoader.Frame) (pair : string) :
  In pair (BinanceDataLoader.level_pairs data) <->
  exists field values,
    In ((pair, field), values) (BinanceDataLoader.frame_columns data).
Proof.
  unfold BinanceDataLoader.level_pairs. rewrite unique_In, in_map_iff.
  split.
  - intros [([[n f] v] & <- & Hin) _]. now exists f, v.
  - intros (f & v & Hin). split; [|intros []].
    now exists ((pair, f), v).
Qed.

Lemma check_closes_true (data : BinanceDataLoader.Frame)
      (names : list string) :
  BinanceDataLoader.check_closes data names = Ok true <->
  forall name, In name names ->
    exists close,
      BinanceDataLoader.column data (name, "close"%string) = Ok close /\
      Forall (fun c => fle c zero = false) close.
Proof.
  induction names as [|name names IH]; cbn [BinanceDataLoader.check_closes].
  - split; [intros _ ? [] | reflexivity].
  - destruct (BinanceDataLoader.column data (name, "close"%string))
      as [close|e] eqn:Ec; cbn [bind].
    + destruct (existsb (fun c => fle c zero) close) eqn:E.
      * split; [discriminate|]. intros Hall.
        destruct (Hall name (or_introl eq_refl)) as (close' & Hc & Hpos).
        rewrite Ec in Hc. injection Hc as <-.
        apply existsb_exists in E. destruct E as (c & Hin & Hle).
        rewrite Forall_forall in Hpos. rewrite (Hpos c Hin) in Hle.
        discriminate.
      * rewrite IH. split.
        -- intros Hall n [<- | Hn]; [|now apply Hall].
           exists close. split; [exact Ec|].
           apply Forall_forall. intros c Hin.
           destruct (fle c zero) eqn:Ef; [|reflexivity].
           assert (Hex : existsb (fun c => fle c zero) close = true).
           { apply existsb_exists. now exists c. }
           congruence.
        -- intros Hall n Hn. apply Hall. now right.
    + split; [discriminate|]. intros Hall.
      destruct (Hall name (or_introl eq_refl)) as (close & Hc & _).
      rewrite Ec in Hc. discriminate.
Qed.

(** The loop raises only a [KeyError], and only for a pair without a
    close column. *)
Lemma check_closes_raise (data : BinanceDataLoader.Frame)
      (names : list string) (e : exn) :
  BinanceDataLoader.check_closes data names = Raise e ->
  e = BinanceDataLoader.key_error /\
  exists name,
    In name names /\
    BinanceDataLoader.column data (name, "close"%string)
    = Raise BinanceDataLoader.key_error.
Proof.
  induction names as [|name names IH]; cbn [BinanceDataLoader.check_closes];
    [discriminate|].
  destruct (BinanceDataLoader.column data (name, "close"%string))
    as [close|e'] eqn:Ec; cbn [bind].
  - destruct (existsb (fun c => fle c zero) close); [discriminate|].
    intros H. destruct (IH H) as (He & n & Hn & Hc).
    split; [exact He|]. exists n. split; [now right | exact Hc].
  - intros H. injection H as <-.
    assert (He : e' = BinanceDataLoader.key_error).
    { revert Ec. unfold BinanceDataLoader.column.
      destruct (find _ _); [discriminate|]. intros H. now injection H. }
    subst e'. split; [reflexivity|]. exists name.
    split; [now left | exact Ec].
Qed.

(** [verify_data_integrity] accepts a frame exactly when the frame has
    rows and columns and every pair that labels a column has a close column
    whose values are all missing or above zero: missing values are no
    ground to reject, and no field other than the close is looked at.  An
    empty frame is rejected without an exception.  The only exception is
    the [KeyError] of a pair that has no close column; where every pair has
    one, nothing is raised. *)
Theorem verify_data_integrity_accepts (data : BinanceDataLoader.Frame) :
  NoDup (map fst (BinanceDataLoader.frame_columns data)) ->
  let has_close pair close :=
    BinanceDataLoader.column data (pair, "close"%string) = Ok close in
  let labelled pair :=
    exists field values,
      In ((pair, field), values) (BinanceDataLoader.frame_columns data) in
  (BinanceDataLoader.verify_data_integrity data = Ok true <->
   BinanceDataLoader.empty data = false /\
   forall pair, labelled pair ->
     exists close,
       has_close pair close /\
       Forall (fun c => is_nan c = true \/ flt zero c = true) close) /\
  (BinanceDataLoader.empty data = true ->
   BinanceDataLoader.verify_data_integrity data = Ok false) /\
  (forall e,
      BinanceDataLoader.verify_data_integrity data = Raise e ->
      e = BinanceDataLoader.key_error /\
      exists pair,
        labelled pair /\
        BinanceDataLoader.column data (pair, "close"%string)
        = Raise BinanceDataLoader.key_error) /\
  ((forall pair, labelled pair -> exists close, has_close pair close) ->
   exists verdict,
     BinanceDataLoader.verify_data_integrity data = Ok verdict).
Proof.
  intros _ has_close labelled.
  assert (Hraise : forall e,
             BinanceDataLoader.verify_data_integrity data = Raise e ->
             e = BinanceDataLoader.key_error /\
             exists pair,
               labelled pair /\
               BinanceDataLoader.column data (pair, "close"%string)
               = Raise BinanceDataLoader.key_error).
  { intros e. unfold BinanceDataLoader.verify_data_integrity.
    destruct (BinanceDataLoader.empty data); [discriminate|].
    intros H. destruct (check_closes_raise _ _ _ H) as (He & n & Hn & Hc).
    split; [exact He|]. exists n. split; [|exact Hc].
    now apply level_pairs_In. }
  split; [|split; [|split; [exact Hraise|]]].
  - unfold BinanceDataLoader.verify_data_integrity.
    destruct (BinanceDataLoader.empty data).
    + split; [discriminate | intros [H _]; discriminate].
    + rewrite check_closes_true. split.
      * intros Hall. split; [reflexivity|]. intros pair Hp.
        destruct (Hall pair (proj2 (level_pairs_In data pair) Hp))
          as (close & Hc & Hpos).
        exists close. split; [exact Hc|].
        eapply Forall_impl; [|exact Hpos]. intros c. apply fle_zero_false.
      * intros [_ Hall] pair Hp.
        destruct (Hall pair (proj1 (level_pairs_In data pair) Hp))
          as (close & Hc & Hpos).
        exists close. split; [exact Hc|].
        eapply Forall_impl; [|exact Hpos]. intros c. apply fle_zero_false.
  - intros He. unfold BinanceDataLoader.verify_data_integrity.
    now rewrite He.
  - intros Hall.
    destruct (BinanceDataLoader.verify_data_integrity data) as [b|e] eqn:E;
      [now exists b|].
    destruct (Hraise e eq_refl) as (_ & pair & Hp & Hc).
    destruct (Hall pair Hp) as (close & Hclose).
    unfold has_close in Hclose. rewrite Hc in Hclose. discriminate.
Qed.

Lemma verify_data_integrity_accepts_witness :
  BinanceDataLoader.verify_data_integrity sound_frame = Ok true /\
  BinanceDataLoader.verify_data_integrity closeless_frame
  = Raise BinanceDataLoader.key_error.
Proof.
  split.
  - apply (proj1 (verify_data_integrity_accepts sound_frame
                    ltac:(repeat constructor; simpl; intuition congruence))).
    split; [reflexivity|].
    intros pair (field & values & Hin).
    simpl in Hin.
    destruct Hin as [H | [H | [H | []]]]; injection H as <- _ _;
      eexists; (split; [reflexivity|]);
      repeat constructor; (right; reflexivity) || (left; reflexivity).
  - destruct (BinanceDataLoader.verify_data_integrity closeless_frame)
      as [b|e] eqn:E; [vm_compute in E; discriminate|].
    destruct (proj1 (proj2 (proj2
                (verify_data_integrity_accepts closeless_frame
                   ltac:(repeat constructor; simpl; intuition congruence))))
                e E) as (-> & _).
    reflexivity.
Defined.

(** ** The pairs with the largest volume *)

Lemma insert_by_volume_permutation (m : BinanceDataLoader.Market)
      (l : list BinanceDataLoader.Market) :
  Permutation (m :: l) (BinanceDataLoader.insert_by_volume m l).
Proof.
  induction l as [|x l IH]; simpl; [apply Permutation_refl|].
  destruct (Qle_bool _ _); [|apply Permutation_refl].
  eapply perm_trans; [apply perm_swap|]. now apply perm_skip.
Qed.

Lemma insert_by_volume_sorted (m : BinanceDataLoader.Market)
      (l : list BinanceDataLoader.Market) :
  StronglySorted by_volume l ->
  StronglySorted by_volume (BinanceDataLoader.insert_by_volume m l).
Proof.
  induction l as [|x l IH]; intros Hs; simpl.
  - repeat constructor.
  - inversion Hs as [|? ? Hl Hx]; subst.
    destruct (Qle_bool (BinanceDataLoader.volume_of m)
                       (BinanceDataLoader.volume_of x)) eqn:E.
    + apply Qle_bool_iff in E. constructor; [now apply IH|].
      rewrite Forall_forall. intros y Hy.
      apply (Permutation_in _
               (Permutation_sym (insert_by_volume_permutation m l))) in Hy.
      destruct Hy as [<- | Hy]; [exact E|].
      rewrite Forall_forall in Hx. now apply Hx.
    + assert (Hlt : (BinanceDataLoader.volume_of x
                     < BinanceDataLoader.volume_of m)%Q).
      { apply Qnot_le_lt. intros H. apply Qle_bool_iff in H. congruence. }
      constructor; [exact Hs|].
      constructor; [unfold by_volume; now apply Qlt_le_weak|].
      rewrite Forall_forall in *. intros y Hy. unfold by_volume in *.
      eapply Qle_trans; [apply (Hx y Hy) | now apply Qlt_le_weak].
Qed.

Lemma sort_by_volume_from (markets sorted : list BinanceDataLoader.Market) :
  StronglySorted by_volume sorted ->
  StronglySorted by_volume
    (fold_left (fun acc m => BinanceDataLoader.insert_by_volume m acc)
               markets sorted) /\
  Permutation (sorted ++ markets)
    (fold_left (fun acc m => BinanceDataLoader.insert_by_volume m acc)
               markets sorted).
Proof.
  revert sorted. induction markets as [|m markets IH]; intros sorted Hs;
    simpl.
  - rewrite app_nil_r. split; [exact Hs | apply Permutation_refl].
  - destruct (IH _ (insert_by_volume_sorted m sorted Hs)) as [Hs' Hp].
    split; [exact Hs'|].
    eapply perm_trans; [|exact Hp].
    eapply perm_trans; [apply Permutation_sym, Permutation_middle|].
    exact (Permutation_app_tail markets
             (insert_by_volume_permutation m sorted)).
Qed.

Lemma sort_by_volume_sorted (markets : list BinanceDataLoader.Market) :
  StronglySorted by_volume (BinanceDataLoader.sort_by_volume markets) /\
  Permutation markets (BinanceDataLoader.sort_by_volume markets).
Proof.
  destruct (sort_by_volume_from markets [] (SSorted_nil _)) as [Hs Hp].
  split; assumption.
Qed.

Lemma sorted_firstn_skipn (l : list BinanceDataLoader.Market) (n : nat) :
  StronglySorted by_volume l ->
  StronglySorted by_volume (firstn n l) /\
  forall kept cut, In kept (firstn n l) -> In cut (skipn n l) ->
                   by_volume kept cut.
Proof.
  revert l. induction n as [|n IH]; intros l Hs.
  { simpl. split; [constructor | intros kept cut []]. }
  destruct l as [|x l].
  { simpl. split; [constructor | intros kept cut []]. }
  cbn [firstn skipn].
  inversion Hs as [|? ? Hl Hx]; subst.
  destruct (IH l Hl) as [Hf Hcut]. split.
  - constructor; [exact Hf|].
    rewrite Forall_forall in *. intros y Hy.
    apply Hx. eapply in_firstn_in, Hy.
  - intros kept cut [<- | Hk] Hc; [|now apply Hcut].
    rewrite Forall_forall in Hx. apply Hx. eapply in_skipn_in, Hc.
Qed.

(** With the markets loaded, [get_top_btc_pairs] returns the symbols of at
    most [top_n] markets, as many as there are when fewer end in "/BTC".
    Each is a loaded market whose symbol ends in "/BTC"; they come in
    decreasing order of volume; and no "/BTC" market that was left out has
    a larger volume than one that was taken. *)
Theorem top_btc_pairs_by_volume (markets : list BinanceDataLoader.Market)
        (top_n : nat) :
  exists chosen,
    BinanceDataLoader.get_top_btc_pairs (Ok markets) top_n = map fst chosen /\
    length chosen
      = Nat.min top_n (length (BinanceDataLoader.btc_pairs markets)) /\
    Forall (fun m => In m markets /\
                     BinanceDataLoader.ends_with "/BTC" (fst m) = true)
           chosen /\
    StronglySorted by_volume chosen /\
    (forall left_out taken,
        In left_out markets ->
        BinanceDataLoader.ends_with "/BTC" (fst left_out) = true ->
        ~ In left_out chosen -> In taken chosen ->
        by_volume taken left_out).
Proof.
  destruct (sort_by_volume_sorted (BinanceDataLoader.btc_pairs markets))
    as [Hsorted Hperm].
  set (sorted := BinanceDataLoader.sort_by_volume
                   (BinanceDataLoader.btc_pairs markets)) in *.
  destruct (sorted_firstn_skipn sorted top_n Hsorted) as [Hfirst Hcut].
  exists (firstn top_n sorted).
  split; [reflexivity|].
  split.
  { rewrite length_firstn. now rewrite <- (Permutation_length Hperm). }
  split.
  { apply Forall_forall. intros m Hm.
    apply in_firstn_in in Hm.
    apply (Permutation_in _ (Permutation_sym Hperm)) in Hm.
    unfold BinanceDataLoader.btc_pairs in Hm.
    now apply filter_In in Hm. }
  split; [exact Hfirst|].
  intros left_out taken Hin Hbtc Hnot Htaken.
  apply Hcut; [exact Htaken|].
  assert (Hs : In left_out sorted).
  { apply (Permutation_in _ Hperm).
    unfold BinanceDataLoader.btc_pairs. apply filter_In. now split. }
  rewrite <- (firstn_skipn top_n sorted) in Hs.
  apply in_app_or in Hs. destruct Hs as [Hs | Hs]; [contradiction | exact Hs].
Qed.

Lemma insert_without_volume (m : BinanceDataLoader.Market)
      (sorted : list BinanceDataLoader.Market) :
  snd m = None -> Forall (fun x => snd x = None) sorted ->
  BinanceDataLoader.insert_by_volume m sorted = sorted ++ [m].
Proof.
  intros Hm. induction sorted as [|x sorted IH]; intros Hall; simpl;
    [reflexivity|].
  inversion Hall as [|? ? Hx Hs]; subst.
  unfold BinanceDataLoader.volume_of. rewrite Hm, Hx.
  replace (Qle_bool 0 0) with true by reflexivity.
  f_equal. now apply IH.
Qed.

Lemma sort_without_volume (markets sorted : list BinanceDataLoader.Market) :
  Forall (fun x => snd x = None) sorted ->
  Forall (fun x => snd x = None) markets ->
  fold_left (fun acc m => BinanceDataLoader.insert_by_volume m acc)
            markets sorted
  = sorted ++ markets.
Proof.
  revert sorted. induction markets as [|m markets IH]; intros sorted Hs Hm;
    simpl; [now rewrite app_nil_r|].
  inversion Hm as [|? ? Hm0 Hms]; subst.
  rewrite (insert_without_volume m sorted Hm0 Hs).
  rewrite IH; [now rewrite <- app_assoc | | exact Hms].
  apply Forall_app. split; [exact Hs | now constructor].
Qed.

(** When the call to the exchange raises, [get_top_btc_pairs] returns the
    empty list.  When no loaded market carries a volume, every key is 0
    and the sort moves nothing: the result is the first [top_n] symbols
    ending in "/BTC", in the order the exchange listed them. *)
Theorem top_btc_pairs_without_volume
        (load_markets : result (list BinanceDataLoader.Market))
        (top_n : nat) :
  (raises load_markets ->
   BinanceDataLoader.get_top_btc_pairs load_markets top_n = []) /\
  (forall markets,
      load_markets = Ok markets ->
      Forall (fun m => snd m = None) markets ->
      BinanceDataLoader.get_top_btc_pairs load_markets top_n
      = firstn top_n
          (filter (BinanceDataLoader.ends_with "/BTC") (map fst markets))).
Proof.
  split.
  - intros [e ->]. reflexivity.
  - intros markets -> Hnone.
    unfold BinanceDataLoader.get_top_btc_pairs,
      BinanceDataLoader.sort_by_volume.
    rewrite sort_without_volume; [|constructor|].
    + rewrite app_nil_l, <- firstn_map. f_equal.
      unfold BinanceDataLoader.btc_pairs.
      clear Hnone. induction markets as [|m markets IH]; simpl;
        [reflexivity|].
      destruct (BinanceDataLoader.ends_with "/BTC" (fst m)); simpl;
        now rewrite IH.
    + unfold BinanceDataLoader.btc_pairs.
      rewrite Forall_forall in *. intros m Hm.
      apply filter_In in Hm. now apply Hnone.
Qed.

Lemma top_btc_pairs_without_volume_witness :
  BinanceDataLoader.get_top_btc_pairs
    (Ok [("ETH/BTC"%string, None); ("BTC/USDT"%string, None);
         ("LTC/BTC"%string, None)]) 5
  = ["ETH/BTC"; "LTC/BTC"]%string /\
  BinanceDataLoader.get_top_btc_pairs (Raise (OtherError "network")) 5 = [].
Proof.
  split.
  - apply (proj2 (top_btc_pairs_without_volume
                    (Ok [("ETH/BTC"%string, None); ("BTC/USDT"%string, None);
                         ("LTC/BTC"%string, None)]) 5) _ eq_refl).
    repeat constructor.
  - apply (proj1 (top_btc_pairs_without_volume
                    (Raise (OtherError "network")) 5)).
    eexists. reflexivity.
Defined.

(** ** Bounds on the bar counts of trades *)

Lemma fold_max_lower (ds : list Z) (d : Z) : d <= fold_left Z.max ds d.
Proof.
  revert d. induction ds as [|e ds IH]; intros d; simpl; [lia|].
  specialize (IH (Z.max d e)). lia.
Qed.

Lemma fold_max_upper (ds : list Z) (d x : Z) :
  In x ds -> x <= fold_left Z.max ds d.
Proof.
  revert d. induction ds as [|e ds IH]; intros d; simpl; [intros []|].
  intros [<- | Hin]; [|now apply IH].
  pose proof (fold_max_lower ds (Z.max d e)). lia.
Qed.

Lemma fold_min_upper (ds : list Z) (d : Z) : fold_left Z.min ds d <= d.
Proof.
  revert d. induction ds as [|e ds IH]; intros d; simpl; [lia|].
  specialize (IH (Z.min d e)). lia.
Qed.

Lemma fold_min_lower (ds : list Z) (d x : Z) :
  In x ds -> fold_left Z.min ds d <= x.
Proof.
  revert d. induction ds as [|e ds IH]; intros d; simpl; [intros []|].
  intros [<- | Hin]; [|now apply IH].
  pose proof (fold_min_upper ds (Z.min d e)). lia.
Qed.

(** Every bar count lies between the least and the largest. *)
Lemma bars_between (ds : list Z) (x : Z) :
  In x ds -> bars_min ds <= x <= bars_max ds.
Proof.
  destruct ds as [|d ds]; [intros []|]. simpl.
  intros [<- | Hin].
  - split; [apply fold_min_upper | apply fold_max_lower].
  - split; [now apply fold_min_lower | now apply fold_max_upper].
Qed.

Lemma sum_between (lo hi : Z) (ds : list Z) (a : Z) :
  (forall x, In x ds -> lo <= x <= hi) ->
  a + Z.of_nat (length ds) * lo <= fold_left Z.add ds a
  <= a + Z.of_nat (length ds) * hi.
Proof.
  revert a. induction ds as [|d ds IH]; intros a Hall.
  - simpl. lia.
  - cbn [fold_left length]. rewrite Nat2Z.inj_succ.
    specialize (IH (a + d) (fun x Hx => Hall x (or_intror Hx))).
    pose proof (Hall d (or_introl eq_refl)). lia.
Qed.

(** ** Exposure *)

Lemma Qsum_inject (ds : list Z) (q : Q) (a : Z) :
  (q == inject_Z a)%Q ->
  (fold_left Qplus (map inject_Z ds) q
   == inject_Z (fold_left Z.add ds a))%Q.
Proof.
  revert q a. induction ds as [|d ds IH]; intros q a Hq; simpl;
    [exact Hq|].
  apply IH. rewrite Hq, inject_Z_plus. reflexivity.
Qed.

(** Exposure is 0.0 without positions.  With positions and at least one
    order it is the mean holding time in bars over the number of orders, a
    finite number, not negative when no position exits before it enters.
    With positions and no order the division is by zero: nothing is raised
    and the result is an infinity or nan. *)
Theorem exposure_rule (portfolio : Vbt.Portfolio) :
  let positions := Vbt.positions_records portfolio in
  let ds := MetricsCalculator.durations_bars positions in
  let exposure := StrategyBase.calculate_exposure portfolio in
  (positions = [] -> exposure = Fin 0) /\
  (positions <> [] -> (0 < Vbt.orders_len portfolio)%nat ->
   exists q,
     exposure = Fin q /\
     (q == bars_mean ds / inject_Z (Z.of_nat (Vbt.orders_len portfolio)))%Q /\
     (Forall (fun t => (Vbt.entry_idx t <= Vbt.exit_idx t)%nat) positions ->
      (0 <= q)%Q)) /\
  (positions <> [] -> Vbt.orders_len portfolio = 0%nat ->
   is_finite exposure = false).
Proof.
  intros positions ds exposure.
  assert (Hmean : positions <> [] ->
                  exists m, MetricsCalculator.mean (map of_Z ds) = Fin m /\
                            (m == bars_mean ds)%Q).
  { intros Hne. unfold MetricsCalculator.mean, bars_mean.
    assert (Hn : (0 < length ds)%nat).
    { unfold ds, MetricsCalculator.durations_bars. rewrite length_map.
      destruct positions; [congruence | simpl; lia]. }
    replace (map of_Z ds) with (map Fin (map inject_Z ds))
      by (rewrite map_map; reflexivity).
    rewrite fsum_fin, !length_map. unfold of_nat, of_Z, fdiv.
    rewrite (inject_nat_nonzero _ Hn).
    eexists. split; [reflexivity|].
    now rewrite (Qsum_inject ds 0 0). }
  assert (Hbody : positions <> [] ->
                  exposure = fdiv (MetricsCalculator.mean (map of_Z ds))
                                  (of_nat (Vbt.orders_len portfolio))).
  { intros Hne. unfold exposure, StrategyBase.calculate_exposure,
      StrategyBase.exposure_body. fold positions.
    destruct positions; [congruence | reflexivity]. }
  split.
  { intros He. unfold exposure, StrategyBase.calculate_exposure,
      StrategyBase.exposure_body. fold positions. now rewrite He. }
  split.
  - intros Hne Horders. destruct (Hmean Hne) as (m & Hm & Hmq).
    rewrite (Hbody Hne), Hm. unfold of_nat, of_Z, fdiv.
    rewrite (inject_nat_nonzero _ Horders).
    eexists. split; [reflexivity|].
    split; [now rewrite Hmq|].
    intros Horder.
    assert (Hq : (0 < inject_Z (Z.of_nat (Vbt.orders_len portfolio)))%Q).
    { replace 0%Q with (inject_Z 0) by reflexivity.
      rewrite <- Zlt_Qlt. lia. }
    apply Qle_shift_div_l; [exact Hq|]. rewrite Qmult_0_l, Hmq.
    unfold bars_mean.
    assert (Hds : forall x, In x ds -> 0 <= x <= bars_max ds).
    { intros x Hx. split; [|now apply bars_between].
      unfold ds, MetricsCalculator.durations_bars in Hx.
      apply in_map_iff in Hx. destruct Hx as (t & <- & Ht).
      rewrite Forall_forall in Horder. specialize (Horder t Ht). lia. }
    pose proof (sum_between 0 (bars_max ds) ds 0 Hds) as [Hsum _].
    assert (Hn : (0 < inject_Z (Z.of_nat (length ds)))%Q).
    { replace 0%Q with (inject_Z 0) by reflexivity.
      rewrite <- Zlt_Qlt. unfold ds, MetricsCalculator.durations_bars.
      rewrite length_map. destruct positions; [congruence | simpl; lia]. }
    apply Qle_shift_div_l; [exact Hn|]. rewrite Qmult_0_l.
    replace 0%Q with (inject_Z 0) by reflexivity.
    rewrite <- Zle_Qle. lia.
  - intros Hne Horders. destruct (Hmean Hne) as (m & Hm & _).
    rewrite (Hbody Hne), Hm, Horders. unfold of_nat, of_Z. simpl.
    destruct (Qeq_bool m 0); [reflexivity|].
    destruct (Qlt_bool 0 m); reflexivity.
Qed.

(** ** The grid of the comparison plot *)

(** For at least one metric to plot, the grid of [compare_strategies] has
    an axis for every metric, so [axes[i]] is always in range, and at most
    one axis is left over to be removed: none for one metric or an even
    number of them. *)
Theorem comparison_grid_fits (n : nat) :
  (1 <= n)%nat ->
  (n <= CompareStrategies.axes_len n <= n + 1)%nat /\
  (length (CompareStrategies.spare_axes n) <= 1)%nat /\
  (n = 1%nat \/ Nat.even n = true -> CompareStrategies.spare_axes n = []).
Proof.
  intros Hn.
  unfold CompareStrategies.spare_axes, CompareStrategies.axes_len,
    CompareStrategies.nrows, CompareStrategies.ncols.
  destruct (Nat.ltb_spec 1 n) as [Hgt | Hle].
  - rewrite Nat.min_r by lia.
    pose proof (Nat.div_mod_eq (n + 1) 2) as Hdiv.
    pose proof (Nat.mod_upper_bound (n + 1) 2 ltac:(lia)) as Hmod.
    rewrite length_seq.
    split; [lia|]. split; [lia|].
    intros [-> | Heven]; [lia|].
    apply Nat.even_spec in Heven. destruct Heven as [k ->].
    replace ((2 * k + 1) / 2)%nat with k.
    + now replace (k * 2 - 2 * k)%nat with 0%nat by lia.
    + apply (Nat.div_unique _ 2 k 1); lia.
  - assert (n = 1%nat) as -> by lia. simpl.
    split; [lia|]. split; [lia | reflexivity].
Qed.

Lemma comparison_grid_fits_witness :
  CompareStrategies.axes_len 9 = 10%nat /\
  CompareStrategies.spare_axes 9 = [9%nat] /\
  CompareStrategies.spare_axes 2 = [].
Proof.
  split; [reflexivity|]. split; [reflexivity|].
  apply (comparison_grid_fits 2 ltac:(lia)). right. reflexivity.
Defined.
